(** * Browser client of the conversational search service

    A shallow embedding of [ui/script.js] and of the document it runs in
    ([index.html]).  The script is event driven: every handler is modelled
    as a state transformer on the page, asynchronous functions are split at
    their [await] points, and the browser (user input, timers, network) is
    the environment that chooses the next event.

    The page state is what the handlers read and write: the elements with
    an [id], [localStorage], the two variables of the script, the timers
    and the requests in flight.  Output on the console is left out; the
    colour scheme ([updateTheme]) writes the root element only and is
    modelled apart from the page; a timer fires when the environment
    says so, whatever its delay. *)

From stdpp Require Import base option list functions gmap strings.
From Stdlib Require Import NArith ZArith Ascii.

Local Open Scope N_scope.
Set Warnings "-register-all".

(** ** Strings

    A JavaScript string is a sequence of UTF-16 code units. *)

Abbreviation jsstring := (list N).

(** An ASCII literal of the source as a sequence of code units. *)
Definition js (s : string) : jsstring :=
  (λ a, N_of_ascii a) <$> String.list_ascii_of_string s.

(** The double quote, written by its code unit. *)
Definition dquote : jsstring := [34].

Definition quoted (s : jsstring) : jsstring := dquote ++ s ++ dquote.

(** ECMAScript [LineTerminator]: LF, CR, LS, PS. *)
Definition is_line_terminator (c : N) : bool :=
  (c =? 10) || (c =? 13) || (c =? 8232) || (c =? 8233).

(** ECMAScript [WhiteSpace]: TAB, VT, FF, ZWNBSP and the space separators
    of Unicode (category Zs). *)
Definition is_white_space (c : N) : bool :=
  (c =? 9) || (c =? 11) || (c =? 12) || (c =? 65279)
  || (c =? 32) || (c =? 160) || (c =? 5760)
  || ((8192 <=? c) && (c <=? 8202))
  || (c =? 8239) || (c =? 8287) || (c =? 12288).

(** What [String.prototype.trim] strips from either end. *)
Definition is_trimmed_char (c : N) : bool :=
  is_white_space c || is_line_terminator c.

Fixpoint trim_start (s : jsstring) : jsstring :=
  match s with
  | [] => []
  | c :: s' => if is_trimmed_char c then trim_start s' else s
  end.

Definition trim_end (s : jsstring) : jsstring :=
  reverse (trim_start (reverse s)).

(** [String.prototype.trim] *)
Definition trim (s : jsstring) : jsstring := trim_end (trim_start s).

(** A string that is empty or consists of white space only. *)
Definition blank (s : jsstring) : bool := forallb is_trimmed_char s.

(** [String.prototype.substr(start, length)] for non-negative arguments. *)
Definition substr (start len : nat) (s : jsstring) : jsstring :=
  take len (drop start s).

(** [s.startsWith(p)] *)
Fixpoint starts_with (p s : jsstring) : bool :=
  match p, s with
  | [], _ => true
  | _ :: _, [] => false
  | a :: p', b :: s' => (a =? b) && starts_with p' s'
  end.

(** The value sanitization of an [input] element of type [text]: line
    feeds (10) and carriage returns (13) are stripped from the string. *)
Definition strip_newlines (s : jsstring) : jsstring :=
  filter (λ c, c ≠ 10 ∧ c ≠ 13) s.

(** [Array.prototype.join('')] on an array of strings. *)
Definition join_empty (parts : list jsstring) : jsstring := concat parts.

(** [str.repeat(n)] for a count already known to be in range. *)
Fixpoint repeat_string (n : nat) (s : jsstring) : jsstring :=
  match n with
  | O => []
  | S n' => s ++ repeat_string n' s
  end.

(** ** The JavaScript engine

    Numbers are IEEE-754 doubles, and the wording of the errors the engine
    raises differs from browser to browser.  Both are taken from the host:
    the script is modelled over any [Host]. *)

(** Errors raised by the engine while it evaluates the script. *)
Inductive fault (num : Type) :=
| ReadNullish (base_is_null : bool) (prop : string)
    (* TypeError: a property is read from null (true) or undefined (false) *)
| WriteNullish (prop : string)
    (* TypeError: a property is assigned on null *)
| NotCallable (callee : string)
    (* TypeError: the value called is not a function *)
| InvalidCount (count : num)
    (* RangeError of String.prototype.repeat *)
| NotPrimitive.
    (* TypeError: an object has no method that gives a primitive value *)

Arguments ReadNullish {num}.
Arguments WriteNullish {num}.
Arguments NotCallable {num}.
Arguments InvalidCount {num}.
Arguments NotPrimitive {num}.

Class Host := {
  num : Type;
  (* the Number value of a length or of a numeric literal *)
  num_of_nat : nat → num;
  num_nan : num;
  (* ToBoolean *)
  num_truthy : num → bool;
  (* Number::toString in radix 10 *)
  num_to_string : num → jsstring;
  (* StringToNumber *)
  num_of_string : jsstring → num;
  (* x < y *)
  num_lt : num → num → bool;
  (* x - y *)
  num_sub : num → num → num;
  (* Math.round *)
  num_round : num → num;
  (* Number.prototype.toFixed *)
  num_to_fixed : num → nat → jsstring;
  (* ToIntegerOrInfinity of the argument of String.prototype.repeat;
     None when repeat raises a RangeError *)
  num_repeat_count : num → option nat;
  (* the message property of an error raised by the engine *)
  fault_message : fault num → jsstring;
  (* a length is falsy exactly when it is zero, and 0 < n for the others *)
  num_truthy_of_nat : ∀ n, num_truthy (num_of_nat n) = negb (Nat.eqb n 0);
  num_lt_zero_of_nat : ∀ n, num_lt (num_of_nat 0) (num_of_nat n) = Nat.ltb 0 n;
}.

(** What a [throw] carries and a [catch] receives: an [Error] object made
    by the script or by the browser with its message, or an error of the
    engine. *)
Inductive exn `{Host} :=
| ErrorObject (message : jsstring)
| EngineError (f : fault num).

(** [err.message] *)
Definition exn_message `{Host} (e : exn) : jsstring :=
  match e with
  | ErrorObject m => m
  | EngineError f => fault_message f
  end.

(** ** Values

    The values [response.json()] can produce, and [undefined]. The fields
    of an object are listed in the order a lookup meets them: the first
    binding of a key is the property. *)
Inductive value `{Host} :=
| VUndefined
| VNull
| VBool (b : bool)
| VNumber (n : num)
| VString (s : jsstring)
| VArray (items : list value)
| VObject (fields : list (jsstring * value)).

(** Completion of an expression or statement. *)
Inductive completion `{Host} (A : Type) :=
| Normal (a : A)
| Abrupt (e : exn).

Arguments Normal {_ _} a.
Arguments Abrupt {_ _} e.

Section Values.
Context `{Host}.

(** Evaluation in sequence: an abrupt completion ends it. *)
Definition c_bind {A B} (c : completion A) (k : A → completion B) : completion B :=
  match c with
  | Normal a => k a
  | Abrupt e => Abrupt e
  end.

(** The callback of [Array.prototype.map] applied to the items in order. *)
Fixpoint c_map_list {A B} (f : A → completion B) (l : list A) : completion (list B) :=
  match l with
  | [] => Normal []
  | x :: l' =>
      c_bind (f x) (λ y, c_bind (c_map_list f l') (λ ys, Normal (y :: ys)))
  end.

(** The own property [k] of an object. *)
Fixpoint assoc (k : jsstring) (fields : list (jsstring * value)) : option value :=
  match fields with
  | [] => None
  | (k', v) :: rest => if bool_decide (k = k') then Some v else assoc k rest
  end.

(** ToBoolean *)
Definition truthy (v : value) : bool :=
  match v with
  | VUndefined | VNull => false
  | VBool b => b
  | VNumber n => num_truthy n
  | VString s => negb (bool_decide (s = []))
  | VArray _ | VObject _ => true
  end.

(** [a || b] *)
Definition or_else (a b : value) : value := if truthy a then a else b.

(** ToString, as a template literal applies it to a substitution.  An
    object from JSON is converted by [Object.prototype.toString] unless
    it has a field [toString] of its own, which hides that method and is
    never a function: then no method gives a primitive value.  An array
    is converted by [Array.prototype.join(',')], which converts its
    items. *)
Fixpoint to_string (v : value) : completion jsstring :=
  match v with
  | VUndefined => Normal (js "undefined")
  | VNull => Normal (js "null")
  | VBool true => Normal (js "true")
  | VBool false => Normal (js "false")
  | VNumber n => Normal (num_to_string n)
  | VString s => Normal s
  | VArray items =>
      let item x :=
        match x with
        | VUndefined | VNull => Normal []
        | _ => to_string x
        end in
      (fix join (l : list value) : completion jsstring :=
         match l with
         | [] => Normal []
         | [x] => item x
         | x :: l' =>
             c_bind (item x) (λ first,
             c_bind (join l') (λ others, Normal (first ++ js "," ++ others)))
         end) items
  | VObject fields =>
      match assoc (js "toString") fields with
      | Some _ => Abrupt (EngineError NotPrimitive)
      | None => Normal (js "[object Object]")
      end
  end.

(** ToNumber; an object or array is first converted to a primitive
    value, which for a value from JSON is the string [to_string] gives. *)
Definition to_number (v : value) : completion num :=
  match v with
  | VUndefined => Normal num_nan
  | VNull => Normal (num_of_nat 0)
  | VBool b => Normal (num_of_nat (if b then 1 else 0))
  | VNumber n => Normal n
  | VString s => Normal (num_of_string s)
  | VArray _ | VObject _ => c_bind (to_string v) (λ s, Normal (num_of_string s))
  end.

(** [v.prop] for the property names the script reads.  None of them is a
    property of a built-in prototype, so on an object only its own fields
    count; [length] is the one property arrays and strings answer. *)
Definition get_prop (v : value) (prop : string) : completion value :=
  match v with
  | VUndefined => Abrupt (EngineError (ReadNullish false prop))
  | VNull => Abrupt (EngineError (ReadNullish true prop))
  | VObject fields => Normal (default VUndefined (assoc (js prop) fields))
  | VArray items =>
      Normal (if bool_decide (prop = "length"%string)
              then VNumber (num_of_nat (length items)) else VUndefined)
  | VString s =>
      Normal (if bool_decide (prop = "length"%string)
              then VNumber (num_of_nat (length s)) else VUndefined)
  | VBool _ | VNumber _ => Normal VUndefined
  end.

(** [v?.prop] *)
Definition get_prop_opt (v : value) (prop : string) : completion value :=
  match v with
  | VUndefined | VNull => Normal VUndefined
  | _ => get_prop v prop
  end.

(** [typeof v === 'number'] *)
Definition is_number (v : value) : bool :=
  match v with VNumber _ => true | _ => false end.

(** [v.method(...)] on a value that has no function [method]: reading the
    callee from [null] or [undefined] fails, and what any other value
    gives is not callable. *)
Definition not_a_method {A} (v : value) (callee method : string) : completion A :=
  match v with
  | VUndefined => Abrupt (EngineError (ReadNullish false method))
  | VNull => Abrupt (EngineError (ReadNullish true method))
  | _ => Abrupt (EngineError (NotCallable callee))
  end.

(** [v.map(f)]: [Array.prototype.map] on an array; every other value
    either has no [map] or, for an object, a field that is not a
    function. *)
Definition call_map {B} (v : value) (callee : string) (f : value → completion B)
  : completion (list B) :=
  match v with
  | VArray items => c_map_list f items
  | _ => not_a_method v callee "map"
  end.

(** [v.toFixed(digits)] *)
Definition call_toFixed (v : value) (callee : string) (digits : nat) : completion jsstring :=
  match v with
  | VNumber n => Normal (num_to_fixed n digits)
  | _ => not_a_method v callee "toFixed"
  end.

(** [str.repeat(count)] *)
Definition call_repeat (s : jsstring) (count : num) : completion jsstring :=
  match num_repeat_count count with
  | Some n => Normal (repeat_string n s)
  | None => Abrupt (EngineError (InvalidCount count))
  end.

End Values.

Notation "'let!' x ':=' c 'in' k" := (c_bind c (λ x, k))
  (at level 10, x name, c at level 100, k at level 200).

(** ** Markup

    A piece of a template literal of the source.  The double quote is
    written as a backtick, the one character a template literal cannot
    contain unescaped. *)
Definition tpl (s : string) : jsstring :=
  (λ c, if c =? 96 then 34 else c) <$> js s.

(** The placeholder image of [createProductCard]. *)
Definition placeholderImage : jsstring :=
  js "data:image/svg+xml;base64,PHN2ZyB3aWR0aD0iMjAwIiBoZWlnaHQ9IjIwMCIgeG1sbnM9Imh0dHA6Ly93d3cudzMub3JnLzIwMDAvc3ZnIj48cmVjdCB3aWR0aD0iMjAwIiBoZWlnaHQ9IjIwMCIgZmlsbD0iIzRBNTU2OCIvPjxwYXRoIGQ9Ik04NSA2NUgxMTVWMTM1SDg1VjY1WiIgZmlsbD0iI0EwQUVDMCIvPjwvc3ZnPg==".

(** The template of lines 153-160, shown when [explanation] is truthy. *)
Definition explanation_template (explanation : jsstring) : jsstring :=
  concat [
    tpl "
                <div class=`mt-2 text-sm text-blue-400`>
                    <svg class=`inline w-4 h-4 mr-1` fill=`currentColor` viewBox=`0 0 20 20`>
                        <path d=`M11 3a1 1 0 10-2 0v1a1 1 0 102 0V3zM15.657 5.757a1 1 0 00-1.414-1.414l-.707.707a1 1 0 001.414 1.414l.707-.707zM18 10a1 1 0 01-1 1h-1a1 1 0 110-2h1a1 1 0 011 1zM5.05 6.464A1 1 0 106.464 5.05l-.707-.707a1 1 0 00-1.414 1.414l.707.707zM5 10a1 1 0 01-1 1H3a1 1 0 110-2h1a1 1 0 011 1zM8 16v-1h4v1a2 2 0 11-4 0zM12 14c.015-.34.208-.646.477-.859a4 4 0 10-4.954 0c.27.213.462.519.477.859h4z`/>
                    </svg>
                    ";
    explanation;
    tpl "
                </div>
            " ].

(** The template literal of [createProductCard], lines 139-162, over its substitutions. *)
Definition product_card_template (image name description price category explanation : jsstring) : jsstring :=
  concat [
    tpl "
        <div class=`product-card p-4 rounded-lg shadow-md hover:shadow-lg transition-all`>
            <div class=`aspect-w-16 aspect-h-9 mb-4`>
                <img src=`";
    image;
    tpl "`
                     alt=`";
    name;
    tpl "`
                     class=`object-cover rounded-md w-full h-48`
                     onerror=`this.onerror=null; this.src='";
    placeholderImage;
    tpl "';`>
            </div>
            <h3 class=`font-semibold text-lg mb-2 text-gray-100`>";
    name;
    tpl "</h3>
            <p class=`text-gray-400 text-sm mb-2`>";
    description;
    tpl "</p>
            <div class=`flex justify-between items-center mb-2`>
                <span class=`price-tag`>";
    price;
    tpl "</span>
                <span class=`text-sm text-gray-500`>";
    category;
    tpl "</span>
            </div>
            ";
    explanation;
    tpl "
        </div>
    " ].

(** The template literal of [createSuggestionTag], lines 166-170. *)
Definition suggestion_tag_template (suggestion : jsstring) : jsstring :=
  concat [
    tpl "
        <button class=`suggestion-tag` onclick=`applySuggestion('";
    suggestion;
    tpl "')`>
            ";
    suggestion;
    tpl "
        </button>
    " ].

(** The template of lines 309-314, shown when [product.rating] is a number. *)
Definition rating_template (filled hollow rating : jsstring) : jsstring :=
  concat [
    tpl "
                                <span class=`flex items-center text-yellow-500`>
                                    ";
    filled;
    hollow;
    tpl "
                                    <span class=`ml-1 text-gray-600`>(";
    rating;
    tpl ")</span>
                                </span>
                            " ].

(** The template of lines 315-317, shown when [product.reviews_count] is truthy. *)
Definition reviews_template (reviews_count : jsstring) : jsstring :=
  concat [
    tpl "
                                <span class=`ml-2 text-gray-500`>";
    reviews_count;
    tpl " reviews</span>
                            " ].

(** The template literal of [performSearch], lines 295-320, over its substitutions. *)
Definition result_card_template (name price description rating reviews : jsstring) : jsstring :=
  concat [
    tpl "
                    <div class=`product-card p-4 border rounded-lg hover:shadow-lg transition-shadow`>
                        <div class=`flex justify-between items-start mb-3`>
                            <h3 class=`font-semibold text-lg text-gray-900`>";
    name;
    tpl "</h3>
                            <span class=`text-lg font-bold text-blue-600`>
                                ";
    price;
    tpl "
                            </span>
                        </div>

                        <div class=`mt-2`>
                            <p class=`text-sm text-gray-600`>";
    description;
    tpl "</p>
                        </div>

                        <div class=`mt-3 flex items-center`>
                            ";
    rating;
    tpl "
                            ";
    reviews;
    tpl "
                        </div>
                    </div>
                " ].

(** *** Regular expressions of [formatAIResponse]

    [lazy_group close s] matches [(.*?)] followed by the literal [close] at
    the head of [s]: the shortest run of characters other than line
    terminators after which [close] stands.  It returns the captured group
    and what follows the match. *)
Fixpoint lazy_group (close s : jsstring) : option (jsstring * jsstring) :=
  if starts_with close s then Some ([], drop (length close) s)
  else match s with
       | [] => None
       | c :: s' =>
           if is_line_terminator c then None
           else match lazy_group close s' with
                | Some (group, rest) => Some (c :: group, rest)
                | None => None
                end
       end.

(** [s.replace(/D(.*?)D/g, before + '$1' + after)] for a literal delimiter
    [D]: matches are searched from left to right, the search resumes after
    each match, and [skip] counts the characters of the current match still
    to pass over. *)
Fixpoint replace_delimited (delim before after : jsstring) (skip : nat) (s : jsstring)
  : jsstring :=
  match s with
  | [] => []
  | c :: s' =>
      match skip with
      | S k => replace_delimited delim before after k s'
      | O =>
          if starts_with delim s then
            match lazy_group delim (drop (length delim) s) with
            | Some (group, _) =>
                before ++ group ++ after
                ++ replace_delimited delim before after
                     (length delim + length group + length delim - 1) s'
            | None => c :: replace_delimited delim before after 0 s'
            end
          else c :: replace_delimited delim before after 0 s'
      end
  end.

(** [s.replace(/\n/g, '<br>')] *)
Fixpoint replace_newlines (s : jsstring) : jsstring :=
  match s with
  | [] => []
  | c :: s' => (if c =? 10 then js "<br>" else [c]) ++ replace_newlines s'
  end.

Section Rendering.
Context `{Host}.

(** [formatAIResponse], lines 173-179 *)
Definition formatAIResponse (response : value) : completion jsstring :=
  match response with
  | VString s =>
      let s1 := replace_delimited (js "**") (js "<strong>") (js "</strong>") 0 s in
      let s2 := replace_delimited (js "*") (js "<em>") (js "</em>") 0 s1 in
      Normal (replace_newlines s2)
  | _ => not_a_method response "response.replace" "replace"
  end.

(** [createSuggestionTag], lines 165-171; the substitution occurs twice *)
Definition createSuggestionTag (suggestion : value) : completion jsstring :=
  let! argument := to_string suggestion in
  let! label := to_string suggestion in
  Normal (suggestion_tag_template label).

(** [createProductCard], lines 133-163; the substitutions are evaluated
    and converted in the order of the template *)
Definition createProductCard (result : value) : completion jsstring :=
  let! product := get_prop result "product" in
  let! relevance_score := get_prop result "relevance_score" in
  let! personalization_score := get_prop result "personalization_score" in
  let! explanation := get_prop result "explanation" in
  let! attributes := get_prop product "attributes" in
  let! image_url := get_prop_opt attributes "image_url" in
  let! image := to_string (or_else image_url (VString placeholderImage)) in
  let! name := get_prop product "name" in
  let! alt := to_string name in
  let! heading := to_string name in
  let! description := get_prop product "description" in
  let! description_text := to_string description in
  let! price := get_prop product "price" in
  let! price_text := call_toFixed price "product.price.toFixed" 2 in
  let! category := get_prop product "category" in
  let! category_text := to_string category in
  let! explanation_text :=
    if truthy explanation
    then let! text := to_string explanation in Normal (explanation_template text)
    else Normal [] in
  Normal (product_card_template
            image heading description_text price_text category_text explanation_text).

(** The arrow function [performSearch] maps over [data.products],
    lines 295-320. *)
Definition renderResultCard (product : value) : completion jsstring :=
  let! name := get_prop product "name" in
  let! name_text := to_string (or_else name (VString (js "Unnamed Product"))) in
  let! price := get_prop product "price" in
  let! price_text :=
    if is_number price
    then let! fixed := call_toFixed price "product.price.toFixed" 2 in
         Normal (js "$" ++ fixed)
    else Normal (js "Price not available") in
  let! description := get_prop product "description" in
  let! description_text :=
    to_string (or_else description (VString (js "No description available"))) in
  let! rating := get_prop product "rating" in
  let! rating_text :=
    match rating with
    | VNumber r =>
        let! filled := call_repeat [9733] (num_round r) in
        let! hollow := call_repeat [9734] (num_sub (num_of_nat 5) (num_round r)) in
        let! fixed := call_toFixed rating "product.rating.toFixed" 1 in
        Normal (rating_template filled hollow fixed)
    | _ => Normal []
    end in
  let! reviews_count := get_prop product "reviews_count" in
  let! reviews_text :=
    if truthy reviews_count
    then let! count := to_string reviews_count in Normal (reviews_template count)
    else Normal [] in
  Normal (result_card_template
            name_text price_text description_text rating_text reviews_text).

End Rendering.

(** ** The document

    The elements of [index.html] that carry an [id], in document order.
    The script never creates or removes an element. *)
Inductive node :=
| el_searchInput
| el_searchButton
| el_suggestions
| el_suggestionsList
| el_loading
| el_results
| el_productResults
| el_error
| el_errorMessage.

Global Instance node_eq_dec : EqDecision node.
Proof. solve_decision. Defined.

Definition index_html_ids : list (string * node) :=
  [ ("searchInput", el_searchInput);
    ("searchButton", el_searchButton);
    ("suggestions", el_suggestions);
    ("suggestionsList", el_suggestionsList);
    ("loading", el_loading);
    ("results", el_results);
    ("productResults", el_productResults);
    ("error", el_error);
    ("errorMessage", el_errorMessage) ]%string.

(** The first element of the document with the given [id]. *)
Fixpoint element_with_id (id : string) (ids : list (string * node)) : option node :=
  match ids with
  | [] => None
  | (id', n) :: rest => if String.eqb id id' then Some n else element_with_id id rest
  end.

(** The children of an element: the markup of [index.html] as long as the
    script has not assigned [innerHTML] or [textContent]. *)
Inductive content :=
| Original
| InnerHTML (markup : jsstring)
| TextContent (text : jsstring).

Record element := {
  classList : list string;
  children : content;
  input_value : jsstring;
}.

(** The [class] attributes of [index.html]. *)
Definition index_html_classes (n : node) : list string :=
  match n with
  | el_searchInput =>
      ["flex-1"; "px-4"; "py-2"; "rounded-lg"; "focus:outline-none";
       "focus:ring-2"; "placeholder-gray-400"]
  | el_searchButton =>
      ["px-6"; "py-2"; "text-white"; "rounded-lg"; "hover:bg-blue-700";
       "focus:outline-none"; "focus:ring-2"]
  | el_suggestions => ["mt-3"; "space-y-1"; "hidden"]
  | el_suggestionsList => ["flex"; "flex-wrap"; "gap-2"]
  | el_loading => ["text-center"; "py-8"; "hidden"]
  | el_results => ["space-y-6"; "hidden"]
  | el_productResults => ["grid"; "gap-4"; "grid-cols-1"; "md:grid-cols-2"]
  | el_error => ["px-4"; "py-3"; "rounded-lg"; "hidden"]
  | el_errorMessage => ["text-sm"]
  end%string.

Definition index_html (n : node) : element :=
  {| classList := index_html_classes n; children := Original; input_value := [] |}.

(** [DOMTokenList.add] and [DOMTokenList.remove] *)
Definition token_add (t : string) (l : list string) : list string :=
  if bool_decide (t ∈ l) then l else l ++ [t].

Definition token_remove (t : string) (l : list string) : list string :=
  filter (λ t', t' ≠ t) l.

Definition with_classList (f : list string → list string) (e : element) : element :=
  {| classList := f (classList e); children := children e; input_value := input_value e |}.

Definition with_children (c : content) (e : element) : element :=
  {| classList := classList e; children := c; input_value := input_value e |}.

Definition with_input_value (v : jsstring) (e : element) : element :=
  {| classList := classList e; children := children e; input_value := v |}.

(** An element is shown unless it carries the class [hidden], which the
    style sheet [index.html] links (Tailwind) renders as [display: none]. *)
Definition hidden (e : element) : bool := bool_decide ("hidden"%string ∈ classList e).

(** ** The page *)

(** The call site of a [fetch]: line 40, line 82 or line 274. *)
Inductive origin := FromHandleSearch | FromSuggestions | FromPerformSearch.

Global Instance origin_eq_dec : EqDecision origin.
Proof. solve_decision. Defined.

(** The [await] at which an activation of an asynchronous function is
    parked: [await fetch(...)] or [await response.json()]. *)
Inductive stage := AwaitingResponse | AwaitingBody.

Global Instance stage_eq_dec : EqDecision stage.
Proof. solve_decision. Defined.

Record task := { t_origin : origin; t_stage : stage }.

Global Instance task_eq_dec : EqDecision task.
Proof. solve_decision. Defined.

(** How [fetch] settles: rejected (network failure), or fulfilled with a
    response of which the script reads [ok] and [statusText]. *)
Inductive fetch_result :=
| Rejected (message : jsstring)
| Responded (ok : bool) (statusText : jsstring).

(** Whether an activation has run to its end or is parked at an [await]. *)
Inductive progress := Completed | Suspended.

Section Page.
Context `{Host}.

(** What an identifier of the script denotes: an element of the document,
    [null], or a value. *)
Inductive object_ref :=
| ElementRef (n : node)
| NullRef
| ValueRef (v : value).

#[warning="-uniform-inheritance"]
Coercion ValueRef : value >-> object_ref.

(** [document.getElementById] on [index.html] *)
Definition getElementById (id : string) : object_ref :=
  match element_with_id id index_html_ids with
  | Some n => ElementRef n
  | None => NullRef
  end.

(** The argument of [fetch]; [req_body] is the object handed to
    [JSON.stringify]. *)
Record request := {
  req_url : jsstring;
  req_method : jsstring;
  req_headers : list (jsstring * jsstring);
  req_body : list (jsstring * value);
}.

(** How [response.json()] settles. *)
Inductive body_result :=
| BodyError (message : jsstring)
| BodyJson (data : value).

Record page := {
  dom : node → element;
  localStorage : gmap jsstring jsstring;
  (* let currentQuery, let searchTimeout *)
  currentQuery : jsstring;
  searchTimeout : option positive;
  (* the timers of the window that have not fired, each with the query
     its callback has captured, and the next handle setTimeout returns *)
  timers : gmap positive jsstring;
  next_timer : positive;
  (* the activations parked at an await *)
  tasks : gmap nat task;
  next_task : nat;
  (* the requests issued so far, oldest first *)
  sent : list (origin * request);
  (* assignments to properties of script values, oldest first *)
  heap_writes : list (value * string * jsstring);
}.

Definition set_dom (f : (node → element) → node → element) (s : page) : page :=
  {| dom := f (dom s); localStorage := localStorage s;
     currentQuery := currentQuery s; searchTimeout := searchTimeout s;
     timers := timers s; next_timer := next_timer s;
     tasks := tasks s; next_task := next_task s;
     sent := sent s; heap_writes := heap_writes s |}.

Definition set_localStorage (m : gmap jsstring jsstring) (s : page) : page :=
  {| dom := dom s; localStorage := m;
     currentQuery := currentQuery s; searchTimeout := searchTimeout s;
     timers := timers s; next_timer := next_timer s;
     tasks := tasks s; next_task := next_task s;
     sent := sent s; heap_writes := heap_writes s |}.

Definition set_currentQuery (q : jsstring) (s : page) : page :=
  {| dom := dom s; localStorage := localStorage s;
     currentQuery := q; searchTimeout := searchTimeout s;
     timers := timers s; next_timer := next_timer s;
     tasks := tasks s; next_task := next_task s;
     sent := sent s; heap_writes := heap_writes s |}.

Definition set_searchTimeout (t : option positive) (s : page) : page :=
  {| dom := dom s; localStorage := localStorage s;
     currentQuery := currentQuery s; searchTimeout := t;
     timers := timers s; next_timer := next_timer s;
     tasks := tasks s; next_task := next_task s;
     sent := sent s; heap_writes := heap_writes s |}.

Definition set_timers (m : gmap positive jsstring) (next : positive) (s : page) : page :=
  {| dom := dom s; localStorage := localStorage s;
     currentQuery := currentQuery s; searchTimeout := searchTimeout s;
     timers := m; next_timer := next;
     tasks := tasks s; next_task := next_task s;
     sent := sent s; heap_writes := heap_writes s |}.

Definition set_tasks (m : gmap nat task) (next : nat) (s : page) : page :=
  {| dom := dom s; localStorage := localStorage s;
     currentQuery := currentQuery s; searchTimeout := searchTimeout s;
     timers := timers s; next_timer := next_timer s;
     tasks := m; next_task := next;
     sent := sent s; heap_writes := heap_writes s |}.

Definition set_sent (l : list (origin * request)) (s : page) : page :=
  {| dom := dom s; localStorage := localStorage s;
     currentQuery := currentQuery s; searchTimeout := searchTimeout s;
     timers := timers s; next_timer := next_timer s;
     tasks := tasks s; next_task := next_task s;
     sent := l; heap_writes := heap_writes s |}.

Definition set_heap_writes (l : list (value * string * jsstring)) (s : page) : page :=
  {| dom := dom s; localStorage := localStorage s;
     currentQuery := currentQuery s; searchTimeout := searchTimeout s;
     timers := timers s; next_timer := next_timer s;
     tasks := tasks s; next_task := next_task s;
     sent := sent s; heap_writes := l |}.

(** The page once [index.html] is parsed and the script has run its top
    level, with what the browser has stored for the origin. *)
Definition loaded (storage : gmap jsstring jsstring) : page :=
  {| dom := index_html; localStorage := storage;
     currentQuery := []; searchTimeout := None;
     timers := ∅; next_timer := 1%positive;
     tasks := ∅; next_task := 0%nat;
     sent := []; heap_writes := [] |}.

End Page.

(** ** Statements

    A statement of the script runs on the page and completes normally or
    abruptly; what it did to the page before a [throw] stays done. *)
Definition action `{Host} (A : Type) : Type := page → completion A * page.

Section Actions.
Context `{Host}.

Definition ret {A} (a : A) : action A := λ s, (Normal a, s).

Definition throw {A} (e : exn) : action A := λ s, (Abrupt e, s).

Definition bind {A B} (m : action A) (k : A → action B) : action B :=
  λ s, match m s with
       | (Normal a, s') => k a s'
       | (Abrupt e, s') => (Abrupt e, s')
       end.

Definition lift {A} (c : completion A) : action A := λ s, (c, s).

Definition modify (f : page → page) : action unit := λ s, (Normal (), f s).

Definition gets {A} (f : page → A) : action A := λ s, (Normal (f s), s).

(** [try { body } catch (err) { handler }] *)
Definition try_catch {A} (body : action A) (handler : exn → action A) : action A :=
  λ s, match body s with
       | (Normal a, s') => (Normal a, s')
       | (Abrupt e, s') => handler e s'
       end.

(** [try { body } finally { finalizer }]: the completion of [body] stands
    unless the finalizer itself completes abruptly. *)
Definition try_finally {A} (body : action A) (finalizer : action unit) : action A :=
  λ s, match body s with
       | (c, s') =>
           match finalizer s' with
           | (Normal _, s'') => (c, s'')
           | (Abrupt e, s'') => (Abrupt e, s'')
           end
       end.

End Actions.

Notation "'let*' x ':=' m 'in' k" := (bind m (λ x, k))
  (at level 10, x name, m at level 100, k at level 200).
Notation "m >> k" := (bind m (λ _, k))
  (at level 100, k at level 200, right associativity).

Section Script.
Context `{Host}.

(** *** Properties of elements and values *)

(** [target.prop = text] where [target] is a value of the script: an
    array or object gets the property, a primitive ignores the assignment
    (the script is not in strict mode). *)
Definition assign_on_value (v : value) (prop : string) (text : jsstring) : action unit :=
  match v with
  | VUndefined | VNull => throw (EngineError (WriteNullish prop))
  | VArray _ | VObject _ =>
      modify (λ s, set_heap_writes (heap_writes s ++ [(v, prop, text)]) s)
  | VBool _ | VNumber _ | VString _ => ret ()
  end.

(** [target.classList.add(t)] and [target.classList.remove(t)] *)
Definition classList_call (target : object_ref) (method : string)
    (f : list string → list string) : action unit :=
  match target with
  | ElementRef n => modify (set_dom (alter (with_classList f) n))
  | NullRef => throw (EngineError (ReadNullish true "classList"))
  | ValueRef v =>
      let* tokens := lift (get_prop v "classList") in
      lift (not_a_method tokens ("classList." +:+ method) method)
  end.

Definition classList_add (target : object_ref) (t : string) : action unit :=
  classList_call target "add" (token_add t).

Definition classList_remove (target : object_ref) (t : string) : action unit :=
  classList_call target "remove" (token_remove t).

(** [target.innerHTML = markup] *)
Definition set_innerHTML (target : object_ref) (markup : jsstring) : action unit :=
  match target with
  | ElementRef n => modify (set_dom (alter (with_children (InnerHTML markup)) n))
  | NullRef => throw (EngineError (WriteNullish "innerHTML"))
  | ValueRef v => assign_on_value v "innerHTML" markup
  end.

(** [target.textContent = text] *)
Definition set_textContent (target : object_ref) (text : jsstring) : action unit :=
  match target with
  | ElementRef n => modify (set_dom (alter (with_children (TextContent text)) n))
  | NullRef => throw (EngineError (WriteNullish "textContent"))
  | ValueRef v => assign_on_value v "textContent" text
  end.

(** [target.value] *)
Definition get_value (target : object_ref) : action value :=
  match target with
  | ElementRef n => gets (λ s, VString (input_value (dom s n)))
  | NullRef => throw (EngineError (ReadNullish true "value"))
  | ValueRef v => lift (get_prop v "value")
  end.

(** What the setter of [value] stores: the search box is an [input]
    element of type [text], whose setter strips the line breaks; on the
    other elements the property is an ordinary one. *)
Definition stored_value (n : node) (text : jsstring) : jsstring :=
  match n with
  | el_searchInput => strip_newlines text
  | _ => text
  end.

(** [target.value = text] *)
Definition set_value (target : object_ref) (text : jsstring) : action unit :=
  match target with
  | ElementRef n => modify (set_dom (alter (with_input_value (stored_value n text)) n))
  | NullRef => throw (EngineError (WriteNullish "value"))
  | ValueRef v => assign_on_value v "value" text
  end.

(** [v.trim()] *)
Definition call_trim (v : value) (callee : string) : completion jsstring :=
  match v with
  | VString s => Normal (trim s)
  | _ => not_a_method v callee "trim"
  end.

(** *** The window: storage, timers, network *)

(** [localStorage.getItem], [None] for [null] *)
Definition localStorage_getItem (key : jsstring) : action (option jsstring) :=
  gets (λ s, localStorage s !! key).

Definition localStorage_setItem (key text : jsstring) : action unit :=
  modify (λ s, set_localStorage (<[key := text]> (localStorage s)) s).

(** [setTimeout(callback, delay)]: the callback is the arrow function of
    line 80, of which the table keeps the [query] it has captured.  The
    handle returned is fresh and positive. *)
Definition setTimeout (captured_query : jsstring) (delay : N) : action positive :=
  λ s, (Normal (next_timer s),
        set_timers (<[next_timer s := captured_query]> (timers s))
                   (Pos.succ (next_timer s)) s).

(** [clearTimeout(handle)] *)
Definition clearTimeout (handle : positive) : action unit :=
  modify (λ s, set_timers (delete handle (timers s)) (next_timer s) s).

(** [await fetch(url, init)]: the request goes out and the activation is
    parked until the browser settles the promise. *)
Definition await_fetch (o : origin) (r : request) : action progress :=
  λ s, (Normal Suspended,
        set_sent (sent s ++ [(o, r)])
          (set_tasks (<[next_task s := {| t_origin := o; t_stage := AwaitingResponse |}]> (tasks s))
                     (S (next_task s)) s)).

(** [await response.json()] in activation [id] *)
Definition await_json (o : origin) (id : nat) : action progress :=
  λ s, (Normal Suspended,
        set_tasks (<[id := {| t_origin := o; t_stage := AwaitingBody |}]> (tasks s))
                  (next_task s) s).

(** *** script.js, lines 1-19 *)

Definition API_BASE_URL : jsstring := js "/api".
Definition DEBOUNCE_DELAY : N := 300.

Definition searchInput := getElementById "searchInput".
Definition searchButton := getElementById "searchButton".
Definition suggestions := getElementById "suggestions".
Definition suggestionsList := getElementById "suggestionsList".
Definition loading := getElementById "loading".
Definition results := getElementById "results".
Definition aiResponse := getElementById "aiResponse".
Definition productResults := getElementById "productResults".
Definition error := getElementById "error".
Definition errorMessage := getElementById "errorMessage".

Definition json_headers : list (jsstring * jsstring) :=
  [(js "Content-Type", js "application/json")].

(** The arguments of the three calls of [fetch]: lines 40-51, 82-91 and
    274-280. *)
Definition handleSearch_request (query user_id : jsstring) : request :=
  {| req_url := API_BASE_URL ++ js "/search";
     req_method := js "POST";
     req_headers := json_headers;
     req_body := [ (js "query", VString query);
                   (js "user_id", VString user_id);
                   (js "filters", VObject []);
                   (js "context", VObject []) ] |}.

Definition suggestions_request (query : jsstring) : request :=
  {| req_url := API_BASE_URL ++ js "/search";
     req_method := js "POST";
     req_headers := json_headers;
     req_body := [ (js "query", VString query);
                   (js "generate_suggestions", VBool true) ] |}.

Definition performSearch_request (query : jsstring) : request :=
  {| req_url := js "/api/search";
     req_method := js "POST";
     req_headers := json_headers;
     req_body := [ (js "query", VString query) ] |}.

(** *** Utility functions, lines 182-216 *)

Definition showLoading : action unit :=
  classList_remove loading "hidden" >>
  classList_add results "hidden".

Definition hideLoading : action unit :=
  classList_add loading "hidden".

Definition showError (message : jsstring) : action unit :=
  classList_remove error "hidden" >>
  set_textContent errorMessage message.

Definition hideError : action unit :=
  classList_add error "hidden".

Definition hideSuggestions : action unit :=
  classList_add suggestions "hidden".

(** [getUserId]; [random36] is what [Math.random().toString(36)] returns
    when it is evaluated. *)
Definition getUserId (random36 : jsstring) : action jsstring :=
  let* userId := localStorage_getItem (js "userId") in
  if negb (truthy (from_option VString VNull userId)) then
    let userId := js "user_" ++ substr 2 9 random36 in
    localStorage_setItem (js "userId") userId >>
    ret userId
  else ret (default [] userId).

End Script.

Section Handlers.
Context `{Host}.

(** *** Display functions, lines 107-131 *)

Definition displayResults (data : value) : action unit :=
  classList_remove results "hidden" >>
  classList_add results "animate-fade-in" >>
  (* line 113; the right-hand side is evaluated before the assignment *)
  let* ai_response := lift (get_prop data "ai_response") in
  let* formatted :=
    lift (formatAIResponse (or_else ai_response (VString (js "No response available.")))) in
  set_innerHTML aiResponse formatted >>
  (* lines 116-118 *)
  let* products := lift (get_prop data "products") in
  let* cards :=
    lift (call_map (or_else products (VArray [])) "(intermediate value).map"
            (λ product, createProductCard (VObject [(js "product", product)]))) in
  set_innerHTML productResults (join_empty cards).

(** The parameter hides the constant of line 9 in the body. *)
Definition displaySuggestions (suggestionsList : value) : action unit :=
  let* len := lift (get_prop suggestionsList "length") in
  if negb (truthy len) then hideSuggestions
  else
    classList_remove suggestions "hidden" >>
    let* tags :=
      lift (call_map suggestionsList "suggestionsList.map"
              createSuggestionTag) in
    set_innerHTML suggestionsList (join_empty tags).

(** *** [handleSearch], lines 31-65

    The function is asynchronous: [handleSearch] runs up to the first
    [await], [handleSearch_response] from there to the second and
    [handleSearch_body] to the end.  [handleSearch_settle] is the [catch]
    and [finally] of lines 60-64 around each of them. *)
Definition handleSearch_settle (body : action progress) : action progress :=
  λ s, match body s with
       | (Normal Suspended, s') => (Normal Suspended, s')
       | (Normal Completed, s') => (hideLoading >> ret Completed) s'
       | (Abrupt err, s') =>
           try_finally (showError (exn_message err) >> ret Completed) hideLoading s'
       end.

Definition handleSearch (random36 : jsstring) : action progress :=
  let* value := get_value searchInput in
  let* query := lift (call_trim value "searchInput.value.trim") in
  if bool_decide (query = []) then ret Completed
  else
    modify (set_currentQuery query) >>
    showLoading >>
    hideError >>
    handleSearch_settle
      (let* user_id := getUserId random36 in
       await_fetch FromHandleSearch (handleSearch_request query user_id)).

Definition handleSearch_response (id : nat) (r : fetch_result) : action progress :=
  handleSearch_settle
    match r with
    | Rejected message => throw (ErrorObject message)
    | Responded ok _ =>
        if negb ok then throw (ErrorObject (js "Search request failed"))
        else await_json FromHandleSearch id
    end.

Definition handleSearch_body (b : body_result) : action progress :=
  handleSearch_settle
    match b with
    | BodyError message => throw (ErrorObject message)
    | BodyJson data => displayResults data >> ret Completed
    end.

(** *** [handleSearchInput], lines 68-104 *)

Definition handleSearchInput : action unit :=
  (* e.target is the search box *)
  let* value := get_value searchInput in
  let* query := lift (call_trim value "e.target.value.trim") in
  let* pending := gets searchTimeout in
  match pending with
  | Some handle => clearTimeout handle
  | None => ret ()
  end >>
  if (length query <? 2)%nat then hideSuggestions
  else
    let* handle := setTimeout query DEBOUNCE_DELAY in
    modify (set_searchTimeout (Some handle)).

(** The [catch] of lines 100-102 writes to the console only. *)
Definition suggestions_settle (body : action progress) : action progress :=
  try_catch body (λ err, ret Completed).

(** The callback of the timer, lines 80-103, up to its first [await],
    from there to the second, and to the end. *)
Definition suggestionsCallback (query : jsstring) : action progress :=
  suggestions_settle
    (await_fetch FromSuggestions (suggestions_request query)).

Definition suggestionsCallback_response (id : nat) (r : fetch_result) : action progress :=
  suggestions_settle
    match r with
    | Rejected message => throw (ErrorObject message)
    | Responded ok _ =>
        if negb ok then throw (ErrorObject (js "Failed to get suggestions"))
        else await_json FromSuggestions id
    end.

Definition suggestionsCallback_body (b : body_result) : action progress :=
  suggestions_settle
    match b with
    | BodyError message => throw (ErrorObject message)
    | BodyJson data =>
        let* list := lift (get_prop data "suggestions") in
        displaySuggestions (or_else list (VArray [])) >>
        ret Completed
    end.

(** [applySuggestion], lines 204-207 *)
Definition applySuggestion (suggestion random36 : jsstring) : action progress :=
  set_value searchInput suggestion >>
  handleSearch random36.

(** *** The listener of [DOMContentLoaded], lines 229-353

    Its constants are bound by the same calls of [getElementById] as those
    of lines 6-15. *)

Definition performSearch_settle (body : action progress) : action progress :=
  let loading := getElementById "loading" in
  let error := getElementById "error" in
  let errorMessage := getElementById "errorMessage" in
  λ s, match body s with
       | (Normal Suspended, s') => (Normal Suspended, s')
       | (Normal Completed, s') => (classList_add loading "hidden" >> ret Completed) s'
       | (Abrupt err, s') =>
           try_finally
             (classList_remove error "hidden" >>
              set_textContent errorMessage (exn_message err) >>
              ret Completed)
             (classList_add loading "hidden") s'
       end.

(** [performSearch], lines 260-334, in the same three parts *)
Definition performSearch (query : jsstring) : action progress :=
  let loading := getElementById "loading" in
  let results := getElementById "results" in
  let error := getElementById "error" in
  if bool_decide (trim query = []) then ret Completed
  else
    performSearch_settle
      (classList_remove loading "hidden" >>
       classList_add results "hidden" >>
       classList_add error "hidden" >>
       await_fetch FromPerformSearch (performSearch_request query)).

Definition performSearch_response (id : nat) (r : fetch_result) : action progress :=
  performSearch_settle
    match r with
    | Rejected message => throw (ErrorObject message)
    | Responded ok statusText =>
        if negb ok
        then throw (ErrorObject (js "Search request failed: " ++ statusText))
        else await_json FromPerformSearch id
    end.

Definition performSearch_body (b : body_result) : action progress :=
  let results := getElementById "results" in
  let productResults := getElementById "productResults" in
  performSearch_settle
    match b with
    | BodyError message => throw (ErrorObject message)
    | BodyJson data =>
        let* products := lift (get_prop data "products") in
        let* some :=
          if truthy products
          then let* len := lift (get_prop products "length") in
               let* n := lift (to_number len) in
               ret (num_lt (num_of_nat 0) n)
          else ret false in
        (if some : bool then
           let* cards := lift (call_map products "data.products.map" renderResultCard) in
           set_innerHTML productResults (join_empty cards)
         else
           set_innerHTML productResults
             (tpl "<p class=`text-gray-500`>No products found.</p>")) >>
        classList_remove results "hidden" >>
        ret Completed
    end.

(** The listener of the example searches, lines 246-256; [searchText] is
    the text of the paragraph that was clicked. *)
Definition exampleClick (searchText : jsstring) : action progress :=
  let searchInput := getElementById "searchInput" in
  (* replace: every single quote (39) and double quote (34) is removed *)
  let cleanQuery := filter (λ c, c ≠ 39 ∧ c ≠ 34) searchText in
  set_value searchInput cleanQuery >>
  performSearch cleanQuery.

(** The listeners of lines 337-350 *)
Definition searchClick : action progress :=
  let searchInput := getElementById "searchInput" in
  let* value := get_value searchInput in
  let* query := lift (call_trim value "searchInput.value.trim") in
  performSearch query.

(** ** The event loop *)

Inductive event :=
| InputEvent (text : jsstring)
    (* the user edits the search box to [text] *)
| SearchEvent (random36 : jsstring)
    (* click on the button or Enter in the box, lines 23-28 *)
| SuggestionEvent (suggestion random36 : jsstring)
    (* click on a suggestion tag *)
| ExampleEvent (searchText : jsstring)
    (* click on an example search *)
| SearchClickEvent
    (* click on the button or Enter in the box, lines 337-350 *)
| TimerEvent (handle : positive)
| ResponseEvent (id : nat) (r : fetch_result)
| BodyEvent (id : nat) (b : body_result).

(** The page after a listener has run; an exception it lets escape is
    reported on the console. *)
Definition run {A} (m : action A) (s : page) : page := snd (m s).

Definition step (e : event) (s : page) : page :=
  match e with
  | InputEvent text =>
      run handleSearchInput (set_dom (alter (with_input_value text) el_searchInput) s)
  | SearchEvent random36 => run (handleSearch random36) s
  | SuggestionEvent suggestion random36 => run (applySuggestion suggestion random36) s
  | ExampleEvent searchText => run (exampleClick searchText) s
  | SearchClickEvent => run searchClick s
  | TimerEvent handle =>
      match timers s !! handle with
      | Some query =>
          run (suggestionsCallback query)
              (set_timers (delete handle (timers s)) (next_timer s) s)
      | None => s
      end
  | ResponseEvent id r =>
      match tasks s !! id with
      | Some {| t_origin := o; t_stage := AwaitingResponse |} =>
          let s' := set_tasks (delete id (tasks s)) (next_task s) s in
          match o with
          | FromHandleSearch => run (handleSearch_response id r) s'
          | FromSuggestions => run (suggestionsCallback_response id r) s'
          | FromPerformSearch => run (performSearch_response id r) s'
          end
      | _ => s
      end
  | BodyEvent id b =>
      match tasks s !! id with
      | Some {| t_origin := o; t_stage := AwaitingBody |} =>
          let s' := set_tasks (delete id (tasks s)) (next_task s) s in
          match o with
          | FromHandleSearch => run (handleSearch_body b) s'
          | FromSuggestions => run (suggestionsCallback_body b) s'
          | FromPerformSearch => run (performSearch_body b) s'
          end
      | _ => s
      end
  end.

(** The page after a sequence of events, oldest first. *)
Definition steps (es : list event) (s : page) : page :=
  foldl (λ s e, step e s) s es.

End Handlers.

(** ** A reference host

    The Numbers that are integers (or NaN), printed in decimal, and the
    wording of the errors of V8.  It serves the sample runs, which stay
    within what it gets right: integers below 10^21 in absolute value
    (from there on JavaScript prints in exponent form), strings of
    decimal digits read as numbers (every other string is read as NaN
    here), and counts of [repeat] whose result has a length a string can
    have.  The theorems are over any [Host]. *)
Module V8.

Inductive number := Int (z : Z) | NaN.

Fixpoint digits (fuel : nat) (n : N) (acc : jsstring) : jsstring :=
  match fuel with
  | O => acc
  | S fuel' =>
      let acc' := (48 + n mod 10) :: acc in
      if n / 10 =? 0 then acc' else digits fuel' (n / 10) acc'
  end.

Definition decimal (z : Z) : jsstring :=
  let n := Z.abs_N z in
  (if (z <? 0)%Z then js "-" else []) ++ digits (S (N.to_nat (N.log2 n))) n [].

Definition number_to_string (x : number) : jsstring :=
  match x with
  | Int z => decimal z
  | NaN => js "NaN"
  end.

(** A string of decimal digits read as an integer; the empty string is 0
    and every other string is outside the integers. *)
Fixpoint of_digits (s : jsstring) (acc : Z) : number :=
  match s with
  | [] => Int acc
  | c :: s' =>
      if (48 <=? c) && (c <=? 57)
      then of_digits s' (10 * acc + Z.of_N (c - 48))%Z
      else NaN
  end.

Definition to_fixed (x : number) (fraction_digits : nat) : jsstring :=
  match x with
  | Int z =>
      decimal z ++
      match fraction_digits with
      | O => []
      | _ => js "." ++ repeat_string fraction_digits (js "0")
      end
  | NaN => js "NaN"
  end.

Definition message (f : fault number) : jsstring :=
  match f with
  | ReadNullish true prop =>
      js "Cannot read properties of null (reading '" ++ js prop ++ js "')"
  | ReadNullish false prop =>
      js "Cannot read properties of undefined (reading '" ++ js prop ++ js "')"
  | WriteNullish prop =>
      js "Cannot set properties of null (setting '" ++ js prop ++ js "')"
  | NotCallable callee => js callee ++ js " is not a function"
  | InvalidCount count => js "Invalid count value: " ++ number_to_string count
  | NotPrimitive => js "Cannot convert object to primitive value"
  end.

Definition host : Host :=
  {| num := number;
     num_of_nat n := Int (Z.of_nat n);
     num_nan := NaN;
     num_truthy x := match x with Int z => negb (z =? 0)%Z | NaN => false end;
     num_to_string := number_to_string;
     num_of_string s := of_digits (trim s) 0;
     num_lt x y := match x, y with Int a, Int b => (a <? b)%Z | _, _ => false end;
     num_sub x y := match x, y with Int a, Int b => Int (a - b) | _, _ => NaN end;
     num_round x := x;
     num_to_fixed := to_fixed;
     num_repeat_count x :=
       match x with
       | Int z => if (z <? 0)%Z then None else Some (Z.to_nat z)
       | NaN => Some O
       end;
     fault_message := message;
     num_truthy_of_nat n := match n with O => eq_refl | S _ => eq_refl end;
     num_lt_zero_of_nat n := match n with O => eq_refl | S _ => eq_refl end |}.

(** An integer as a value of this host. *)
Definition int (z : Z) : value (H:=host) := VNumber (H:=host) (Int z).

End V8.

(** ** Notions the claims are stated with *)

(** The fields of the inbound request of the search service. *)
Definition inbound_contract : list jsstring :=
  [js "query"; js "user_id"; js "filters"; js "context"; js "generate_suggestions"].

(** The fields of a product in the outbound response of the service. *)
Definition product_contract : list string :=
  ["id"; "name"; "description"; "price"; "category"; "attributes"]%string.

(** Modelled from the spec: the planner of the search service is not in
    this repository.  [plan(raw_text, prior_turns)] fails with
    [MalformedQueryError] when [raw_text] is empty or white space after
    trimming. *)
Definition plan_is_malformed (raw_text : jsstring) : bool :=
  bool_decide (trim raw_text = []).

Section Notions.
Context `{Host}.

(** The events of the suggestion path: an edit of the search box, the
    firing of a timer, and the settling of a promise the callback of a
    timer awaits. *)
Definition suggestion_event (s : page) (e : event) : Prop :=
  match e with
  | InputEvent _ | TimerEvent _ => True
  | ResponseEvent id _ | BodyEvent id _ =>
      ∃ st, tasks s !! id = Some {| t_origin := FromSuggestions; t_stage := st |}
  | _ => False
  end.

(** A promise of [fetch] that does not deliver an ok response. *)
Definition fetch_failed (r : fetch_result) : bool :=
  match r with
  | Rejected _ => true
  | Responded ok _ => negb ok
  end.

(** The requests of the two search entry points. *)
Definition main_requests (s : page) : list (origin * request) :=
  filter (λ x, x.1 ≠ FromSuggestions) (sent s).

(** The suggestion computations under way: timers that have not fired and
    suggestion requests that have not been answered. *)
Definition suggestion_fetches (s : page) : nat :=
  length (filter (λ x, t_origin x.2 = FromSuggestions) (map_to_list (tasks s))).

Definition active_suggestion_computations (s : page) : nat :=
  (size (timers s) + suggestion_fetches s)%nat.

(** The names of the fields [JSON.stringify] writes for a request body:
    those whose value is not [undefined]. *)
Definition is_defined (v : value) : bool :=
  match v with VUndefined => false | _ => true end.

Definition body_fields (r : request) : list jsstring :=
  (filter (λ x, Is_true (is_defined x.2)) (req_body r)).*1.

(** Two products have the same properties of the given names. *)
Definition same_props (props : list string) (p q : value) : Prop :=
  ∀ prop, prop ∈ props → get_prop p prop = get_prop q prop.

(** What [Math.random().toString(36)] returns: a zero, and after a point
    the digits of the fraction in base 36. *)
Definition is_base36 (c : N) : bool :=
  ((48 <=? c) && (c <=? 57)) || ((97 <=? c) && (c <=? 122)).

Definition is_random36 (s : jsstring) : bool :=
  match s with
  | [48] => true
  | 48 :: 46 :: digits => forallb is_base36 digits
  | _ => false
  end.

End Notions.

(** ** Observations and invariants of the page *)
Section Observations.
Context `{Host}.

(** Running [m] leaves the observation [f] of the page as it was, however
    [m] completes. *)
Definition keeps {A B} (f : page → B) (m : action A) : Prop :=
  ∀ s, f (snd (m s)) = f s.

(** The observation does not look at element [n]. *)
Definition blind_at {B} (n : node) (f : page → B) : Prop :=
  ∀ g s, f (set_dom (alter g n) s) = f s.

(** The observation does not look at the element [target] denotes. *)
Definition blind_to {B} (target : object_ref) (f : page → B) : Prop :=
  ∀ n, target = ElementRef n → blind_at n f.

(** The observation does not look at the values of the script. *)
Definition blind_to_heap {B} (f : page → B) : Prop :=
  ∀ l s, f (set_heap_writes l s) = f s.

(** How [m] completes does not depend on the page, and what [m] makes of
    an element depends on that element only. *)
Definition uniform {A} (m : action A) : Prop :=
  ∀ s1 s2,
    fst (m s1) = fst (m s2) ∧
    ∀ n, dom s1 n = dom s2 n → dom (snd (m s1)) n = dom (snd (m s2)) n.

(** The page after the [catch] and [finally] clauses of lines 60-64 and
    of lines 327-333 have run with the error [err]. *)
Definition error_shown (err : exn) (s : page) : page :=
  set_dom (alter (with_classList (token_add "hidden")) el_loading)
    (set_dom (alter (with_children (TextContent (exn_message err))) el_errorMessage)
       (set_dom (alter (with_classList (token_remove "hidden")) el_error) s)).

(** The page after lines 71-73: the timer [searchTimeout] remembers is
    cleared. *)
Definition timer_cleared (s : page) : page :=
  match searchTimeout s with
  | Some handle => set_timers (delete handle (timers s)) (next_timer s) s
  | None => s
  end.

(** The debounce state: the timers that are pending, the handle the
    script remembers and the next handle of the window. *)
Definition debounce (s : page) : gmap positive jsstring * option positive * positive :=
  (timers s, searchTimeout s, next_timer s).

(** A pending timer is the one [searchTimeout] remembers, and its handle
    has been handed out. *)
Definition one_timer (s : page) : Prop :=
  ∀ handle, is_Some (timers s !! handle) →
    searchTimeout s = Some handle ∧ (handle < next_timer s)%positive.

(** A request as one of the three calls of [fetch] builds it, for a query
    that does not trim to the empty string. *)
Definition request_ok (o : origin) (r : request) : Prop :=
  ∃ query, trim query ≠ [] ∧
    match o with
    | FromHandleSearch => ∃ user_id, r = handleSearch_request query user_id
    | FromSuggestions => r = suggestions_request query
    | FromPerformSearch => r = performSearch_request query
    end.

(** The query a pending timer has captured does not trim to the empty
    string. *)
Definition timers_ok (s : page) : Prop :=
  ∀ handle query, timers s !! handle = Some query → trim query ≠ [].

Definition sent_ok (s : page) : Prop :=
  ∀ o r, (o, r) ∈ sent s → request_ok o r.

(** The activations parked at an [await], and the next identifier. *)
Definition pending (s : page) : gmap nat task * nat := (tasks s, next_task s).

(** The same after a [fetch] from call site [o]. *)
Definition parked (o : origin) (s : page) : gmap nat task * nat :=
  (<[next_task s := {| t_origin := o; t_stage := AwaitingResponse |}]> (tasks s),
   S (next_task s)).

(** The identifiers in use are below the next one. *)
Definition tasks_fresh (s : page) : Prop :=
  ∀ id, is_Some (tasks s !! id) → (id < next_task s)%nat.

End Observations.

(** ** Sample runs on the reference host *)
Module Sample.

Definition random36 : jsstring := js "0.4fzyo82mvyr".

(** The user types [laptop] and presses Enter: [handleSearch] has sent
    its request and awaits the response. *)
Definition searching : page (H:=V8.host) :=
  steps [InputEvent (js "laptop"); SearchEvent random36] (loaded ∅).

(** The response has arrived with status 200; its body is awaited. *)
Definition answered : page (H:=V8.host) :=
  step (ResponseEvent 0 (Responded true (js "OK"))) searching.

(** A response of the service as the contract describes it. *)
Definition product : value (H:=V8.host) :=
  VObject [ (js "id", VString (js "p1"));
            (js "name", VString (js "Laptop"));
            (js "description", VString (js "A laptop"));
            (js "price", V8.int 999);
            (js "category", VString (js "laptops"));
            (js "attributes", VObject []) ].

Definition response : value (H:=V8.host) :=
  VObject [ (js "products", VArray [product]);
            (js "ai_response", VString (js "Here is a laptop.")) ].

(** The same response with a field the contract does not name. *)
Definition timed_response : value (H:=V8.host) :=
  VObject [ (js "products", VArray [product]);
            (js "ai_response", VString (js "Here is a laptop."));
            (js "took_ms", V8.int 12) ].

(** The same product with the two fields [performSearch] also shows. *)
Definition rated_product : value (H:=V8.host) :=
  VObject [ (js "id", VString (js "p1"));
            (js "name", VString (js "Laptop"));
            (js "description", VString (js "A laptop"));
            (js "price", V8.int 999);
            (js "category", VString (js "laptops"));
            (js "attributes", VObject []);
            (js "rating", V8.int 4);
            (js "reviews_count", V8.int 12) ].

(** The product under another identifier. *)
Definition renamed_product : value (H:=V8.host) :=
  VObject [ (js "id", VString (js "p2"));
            (js "name", VString (js "Laptop"));
            (js "description", VString (js "A laptop"));
            (js "price", V8.int 999);
            (js "category", VString (js "laptops"));
            (js "attributes", VObject []) ].

(** The user types [ab], the timer fires and the suggestion request goes
    out; then the user types [c]. *)
Definition typing : list (event (H:=V8.host)) :=
  [InputEvent (js "ab"); TimerEvent 1; InputEvent (js "abc")].

(** The length of a completion that is a string. *)
Definition length_of (c : completion (H:=V8.host) jsstring) : nat :=
  match c with
  | Normal s => length s
  | Abrupt _ => 0
  end.

End Sample.

(** ** The colour scheme, lines 218-229

    [updateTheme] runs when the script is loaded and whenever the media
    query [(prefers-color-scheme: dark)] changes; [matches] is what the
    query answers at that moment.  It writes the class list of
    [document.documentElement] and nothing of the page state above, so
    it is modelled on that element alone. *)
Definition updateTheme (matches : bool) (documentElement : element) : element :=
  if matches
  then with_classList (token_add "dark") documentElement
  else with_classList (token_remove "dark") documentElement.

(** The root element after the call of line 228 and one call of the
    listener of line 229 for each change of the media query, oldest
    first. *)
Definition theme_after (initial : bool) (changes : list bool) (root : element) : element :=
  foldl (λ e matches, updateTheme matches e) (updateTheme initial root) changes.

(** ** Notions of the further properties *)

(** A character the three replacements of [formatAIResponse] pass over:
    neither an asterisk (42) nor a line feed (10). *)
Definition is_text (c : N) : bool :=
  negb (c =? 42) && negb (c =? 10).

(** A character a group [(.*?)] of lines 176-177 can hold without an
    asterisk: the dot matches no line terminator. *)
Definition is_plain (c : N) : bool :=
  negb (c =? 42) && negb (is_line_terminator c).

Section FurtherNotions.
Context `{Host}.

(** An activation of [handleSearch] or of [performSearch] is parked at an
    [await]. *)
Definition search_in_flight (s : page) : Prop :=
  ∃ id t, tasks s !! id = Some t ∧ t_origin t ≠ FromSuggestions.

(** The page after lines 109-110. *)
Definition results_unveiled (s : page) : page :=
  set_dom (alter (with_classList (token_add "animate-fade-in")) el_results)
    (set_dom (alter (with_classList (token_remove "hidden")) el_results) s).

(** The page after [performSearch] has assigned [markup] (line 295 or
    323), shown the results (line 326) and hidden the loading indicator
    (line 332). *)
Definition results_shown (markup : jsstring) (s : page) : page :=
  set_dom (alter (with_classList (token_add "hidden")) el_loading)
    (set_dom (alter (with_classList (token_remove "hidden")) el_results)
       (set_dom (alter (with_children (InnerHTML markup)) el_productResults) s)).

(** A substitution of a template literal can be converted to a string. *)
Definition converts (v : value) : Prop := ∃ text, to_string v = Normal text.

(** The two calls of [repeat] of line 311 accept their counts. *)
Definition rating_drawable (rating : value) : Prop :=
  match rating with
  | VNumber r =>
      is_Some (num_repeat_count (num_round r)) ∧
      is_Some (num_repeat_count (num_sub (num_of_nat 5) (num_round r)))
  | _ => True
  end.

(** An event that is neither an edit of the search box nor the firing of
    a timer. *)
Definition quiet (e : event) : bool :=
  match e with
  | InputEvent _ | TimerEvent _ => false
  | _ => true
  end.

(** The [user_id] a request carries. *)
Definition user_id_of (r : request) : option value :=
  assoc (js "user_id") (req_body r).

(** What [getUserId] returns on a page: the stored identifier unless it
    is missing or empty. *)
Definition user_id_on (random36 : jsstring) (s : page) : jsstring :=
  match localStorage s !! js "userId" with
  | Some (c :: stored) => c :: stored
  | _ => js "user_" ++ substr 2 9 random36
  end.

(** The page after the statements both search functions begin with
    (lines 36-37 and 269-271): the loading indicator is shown, the
    results and the error panel are hidden. *)
Definition search_announced (s : page) : page :=
  set_dom (alter (with_classList (token_add "hidden")) el_error)
    (set_dom (alter (with_classList (token_add "hidden")) el_results)
       (set_dom (alter (with_classList (token_remove "hidden")) el_loading) s)).

(** The page after a call of [fetch] from call site [o]. *)
Definition request_sent (o : origin) (r : request) (s : page) : page :=
  set_sent (sent s ++ [(o, r)])
    (set_tasks
       (<[next_task s := {| t_origin := o; t_stage := AwaitingResponse |}]> (tasks s))
       (S (next_task s)) s).

(** Every request of [handleSearch] sent so far carries the identifier
    the storage holds, which is not empty. *)
Definition stored_id_sent (s : page) : Prop :=
  ∀ i r, sent s !! i = Some (FromHandleSearch, r) →
    ∃ user_id, user_id ≠ [] ∧
      user_id_of r = Some (VString user_id) ∧
      localStorage s !! js "userId" = Some user_id.

(** The identifiers of the activations count the requests, and a parked
    activation has the origin of the request with its number. *)
Definition requests_match_tasks (s : page) : Prop :=
  next_task s = length (sent s) ∧
  ∀ id t, tasks s !! id = Some t → ∃ r, sent s !! id = Some (t_origin t, r).

(** The loading indicator is shown only while a search is in flight. *)
Definition loading_means_search (s : page) : Prop :=
  hidden (dom s el_loading) = false → search_in_flight s.

(** The page once the activation parked under [id] has been taken up
    again. *)
Definition resumed (id : nat) (s : page) : page :=
  set_tasks (delete id (tasks s)) (next_task s) s.

End FurtherNotions.

(** ** Further sample runs on the reference host *)
Module Scenario.

(** A product whose rating is above five. *)
Definition overrated_product : value (H:=V8.host) :=
  VObject [ (js "name", VString (js "Laptop"));
            (js "price", V8.int 999);
            (js "rating", V8.int 6) ].

(** A product whose name hides the method [toString]. *)
Definition unprintable_product : value (H:=V8.host) :=
  VObject [ (js "name", VObject [(js "toString", V8.int 1)]);
            (js "price", V8.int 5) ].

(** A product without a price. *)
Definition unpriced_product : value (H:=V8.host) :=
  VObject [ (js "name", VString (js "Laptop")) ].

(** Two example searches are clicked one after the other; both responses
    have arrived with status 200 and their bodies are awaited. *)
Definition two_searches : page (H:=V8.host) :=
  steps [ ExampleEvent (quoted (js "gaming laptop under $2000"));
          ExampleEvent (quoted (js "latest MacBook models compared"));
          ResponseEvent 0 (Responded true (js "OK"));
          ResponseEvent 1 (Responded true (js "OK")) ] (loaded ∅).

(** The user types [laptop] and the timer fires: the suggestion request
    is in flight. *)
Definition suggesting : page (H:=V8.host) :=
  steps [InputEvent (js "laptop"); TimerEvent 1] (loaded ∅).

End Scenario.

(** * Properties *)

(** ** Trimming *)

Lemma trim_start_idem (s : jsstring) : trim_start (trim_start s) = trim_start s.
Proof.
  induction s as [|c s IH]; simpl; [done|].
  destruct (is_trimmed_char c) eqn:Hc; [done|].
  simpl. by rewrite Hc.
Qed.

Lemma trim_start_head (s : jsstring) :
  trim_start s = [] ∨ ∃ c r, trim_start s = c :: r ∧ is_trimmed_char c = false.
Proof.
  induction s as [|c s IH]; simpl; [by left|].
  destruct (is_trimmed_char c) eqn:Hc; [done|].
  right. by exists c, s.
Qed.

Lemma trim_start_snoc (s : jsstring) (c : N) :
  is_trimmed_char c = false → trim_start (s ++ [c]) = trim_start s ++ [c].
Proof.
  intros Hc. induction s as [|d s IH]; simpl.
  - by rewrite Hc.
  - by destruct (is_trimmed_char d).
Qed.

Lemma trim_end_cons (c : N) (r : jsstring) :
  is_trimmed_char c = false → trim_end (c :: r) = c :: trim_end r.
Proof.
  intros Hc. unfold trim_end.
  by rewrite reverse_cons, trim_start_snoc, reverse_snoc.
Qed.

Lemma trim_end_idem (s : jsstring) : trim_end (trim_end s) = trim_end s.
Proof.
  unfold trim_end. by rewrite reverse_involutive, trim_start_idem.
Qed.

Lemma trim_head (s : jsstring) :
  trim s = [] ∨ ∃ c r, trim s = c :: r ∧ is_trimmed_char c = false.
Proof.
  unfold trim. destruct (trim_start_head s) as [->|(c & r & -> & Hc)].
  - by left.
  - right. exists c, (trim_end r). by rewrite trim_end_cons.
Qed.

Lemma trim_idem (s : jsstring) : trim (trim s) = trim s.
Proof.
  unfold trim at 2 3. destruct (trim_start_head s) as [->|(c & r & -> & Hc)].
  - done.
  - rewrite trim_end_cons by done. unfold trim. simpl. rewrite Hc.
    by rewrite trim_end_cons, trim_end_idem.
Qed.

Lemma trim_start_nil_blank (s : jsstring) : trim_start s = [] ↔ blank s = true.
Proof.
  unfold blank. induction s as [|c s IH]; simpl; [done|].
  destruct (is_trimmed_char c); simpl; [done|]. split; done.
Qed.

(** A string trims to the empty string exactly when it is empty or made of
    white space and line terminators only. *)
Lemma trim_nil_blank (s : jsstring) : trim s = [] ↔ blank s = true.
Proof.
  rewrite <- trim_start_nil_blank. unfold trim.
  destruct (trim_start_head s) as [->|(c & r & -> & Hc)]; [done|].
  rewrite trim_end_cons by done. split; done.
Qed.

(** ** Frames *)
Section Frames.
Context `{Host}.

Lemma keeps_ret {A B} (f : page → B) (a : A) : keeps f (ret a).
Proof. done. Qed.

Lemma keeps_throw {A B} (f : page → B) e : keeps f (throw (A:=A) e).
Proof. done. Qed.

Lemma keeps_lift {A B} (f : page → B) (c : completion A) : keeps f (lift c).
Proof. done. Qed.

Lemma keeps_gets {A B} (f : page → B) (g : page → A) : keeps f (gets g).
Proof. done. Qed.

Lemma keeps_modify {B} (f : page → B) g : (∀ s, f (g s) = f s) → keeps f (modify g).
Proof. intros Hg s. apply Hg. Qed.

Lemma keeps_bind {A A' B} (f : page → B) (m : action A) (k : A → action A') :
  keeps f m → (∀ a, keeps f (k a)) → keeps f (bind m k).
Proof.
  intros Hm Hk s. unfold bind. specialize (Hm s).
  destruct (m s) as [[a|e] s']; simpl in *; [|done].
  by rewrite Hk.
Qed.

Lemma keeps_try_catch {A B} (f : page → B) (m : action A) h :
  keeps f m → (∀ e, keeps f (h e)) → keeps f (try_catch m h).
Proof.
  intros Hm Hh s. unfold try_catch. specialize (Hm s).
  destruct (m s) as [[a|e] s']; simpl in *; [done|].
  by rewrite Hh.
Qed.

Lemma keeps_try_finally {A B} (f : page → B) (m : action A) fin :
  keeps f m → keeps f fin → keeps f (try_finally m fin).
Proof.
  intros Hm Hfin s. unfold try_finally. specialize (Hm s).
  destruct (m s) as [c s']; simpl in *. specialize (Hfin s').
  destruct (fin s') as [[[]|e] s'']; simpl in *; congruence.
Qed.

Lemma keeps_assign_on_value {B} (f : page → B) v prop text :
  blind_to_heap f → keeps f (assign_on_value v prop text).
Proof. intros Hf s. destruct v; simpl; try done; apply Hf. Qed.

Lemma keeps_classList_call {B} (f : page → B) target method g :
  blind_to target f → keeps f (classList_call target method g).
Proof.
  intros Hf. destruct target as [n| |v]; simpl.
  - apply keeps_modify. intros s. by apply Hf.
  - apply keeps_throw.
  - apply keeps_bind; [apply keeps_lift|]. intros. apply keeps_lift.
Qed.

Lemma keeps_classList_add {B} (f : page → B) target t :
  blind_to target f → keeps f (classList_add target t).
Proof. apply keeps_classList_call. Qed.

Lemma keeps_classList_remove {B} (f : page → B) target t :
  blind_to target f → keeps f (classList_remove target t).
Proof. apply keeps_classList_call. Qed.

Lemma keeps_set_innerHTML {B} (f : page → B) target markup :
  blind_to target f → blind_to_heap f → keeps f (set_innerHTML target markup).
Proof.
  intros Hf Hh. destruct target as [n| |v]; simpl.
  - apply keeps_modify. intros s. by apply Hf.
  - apply keeps_throw.
  - by apply keeps_assign_on_value.
Qed.

Lemma keeps_set_textContent {B} (f : page → B) target text :
  blind_to target f → blind_to_heap f → keeps f (set_textContent target text).
Proof.
  intros Hf Hh. destruct target as [n| |v]; simpl.
  - apply keeps_modify. intros s. by apply Hf.
  - apply keeps_throw.
  - by apply keeps_assign_on_value.
Qed.

Lemma keeps_set_value {B} (f : page → B) target text :
  blind_to target f → blind_to_heap f → keeps f (set_value target text).
Proof.
  intros Hf Hh. destruct target as [n| |v]; simpl.
  - apply keeps_modify. intros s. by apply Hf.
  - apply keeps_throw.
  - by apply keeps_assign_on_value.
Qed.

Lemma keeps_set_element {B} (f : page → B) (n : node) (g : element → element) :
  blind_at n f → keeps f (modify (set_dom (alter g n))).
Proof. intros Hf s. apply Hf. Qed.

Lemma keeps_get_value {B} (f : page → B) target : keeps f (get_value target).
Proof. destruct target; simpl; done. Qed.

Lemma blind_to_element {B} (f : page → B) (n : node) :
  blind_at n f → blind_to (ElementRef n) f.
Proof. by intros Hf ? [= <-]. Qed.

Lemma blind_to_null {B} (f : page → B) : blind_to NullRef f.
Proof. by intros ? [=]. Qed.

Lemma blind_to_value {B} (f : page → B) (v : value) : blind_to (ValueRef v) f.
Proof. by intros ? [=]. Qed.

(** An element other than [n] is not looked at by the observation of
    element [n]. *)
Lemma blind_at_other {B} (n m : node) (g : element → B) :
  n ≠ m → blind_at m (λ s, g (dom s n)).
Proof. intros Hne k s. simpl. by rewrite fn_lookup_alter_ne. Qed.

End Frames.

Arguments js : simpl never.
Arguments tpl : simpl never.
Arguments trim : simpl never.
Arguments substr : simpl never.

Section HandlerFrames.
Context `{Host}.

Lemma keeps_localStorage_getItem {B} (f : page → B) key :
  keeps f (localStorage_getItem key).
Proof. done. Qed.

Lemma keeps_localStorage_setItem {B} (f : page → B) key text :
  (∀ m s, f (set_localStorage m s) = f s) → keeps f (localStorage_setItem key text).
Proof. intros Hf s. apply Hf. Qed.

Lemma keeps_getUserId {B} (f : page → B) random36 :
  (∀ m s, f (set_localStorage m s) = f s) → keeps f (getUserId random36).
Proof.
  intros Hf. unfold getUserId.
  apply keeps_bind; [apply keeps_localStorage_getItem|]. intros stored.
  destruct (negb _); [|apply keeps_ret].
  apply keeps_bind; [by apply keeps_localStorage_setItem|]. intros. apply keeps_ret.
Qed.

Lemma keeps_setTimeout {B} (f : page → B) query delay :
  (∀ m n s, f (set_timers m n s) = f s) → keeps f (setTimeout query delay).
Proof. intros Hf s. apply Hf. Qed.

Lemma keeps_clearTimeout {B} (f : page → B) handle :
  (∀ m n s, f (set_timers m n s) = f s) → keeps f (clearTimeout handle).
Proof. intros Hf s. apply Hf. Qed.

Lemma keeps_await_fetch {B} (f : page → B) o r :
  (∀ m n s, f (set_tasks m n s) = f s) →
  (∀ l s, f (set_sent l s) = f s) →
  keeps f (await_fetch o r).
Proof. intros Ht Hs s. simpl. by rewrite Hs, Ht. Qed.

Lemma keeps_await_json {B} (f : page → B) o id :
  (∀ m n s, f (set_tasks m n s) = f s) → keeps f (await_json o id).
Proof. intros Ht s. apply Ht. Qed.

Lemma keeps_showError {B} (f : page → B) message :
  blind_at el_error f → blind_at el_errorMessage f → keeps f (showError message).
Proof.
  intros ??. unfold showError.
  apply keeps_bind; [apply keeps_classList_remove|intros].
  - by apply (blind_to_element _ el_error).
  - by apply (keeps_set_element f el_errorMessage).
Qed.

Lemma keeps_hideLoading {B} (f : page → B) :
  blind_at el_loading f → keeps f hideLoading.
Proof. intros ?. apply keeps_classList_add. by apply (blind_to_element _ el_loading). Qed.

Lemma keeps_showLoading {B} (f : page → B) :
  blind_at el_loading f → blind_at el_results f → keeps f showLoading.
Proof.
  intros ??. unfold showLoading.
  apply keeps_bind; [apply keeps_classList_remove|intros; apply keeps_classList_add].
  - by apply (blind_to_element _ el_loading).
  - by apply (blind_to_element _ el_results).
Qed.

Lemma keeps_hideError {B} (f : page → B) :
  blind_at el_error f → keeps f hideError.
Proof. intros ?. apply keeps_classList_add. by apply (blind_to_element _ el_error). Qed.

Lemma keeps_hideSuggestions {B} (f : page → B) :
  blind_at el_suggestions f → keeps f hideSuggestions.
Proof. intros ?. apply keeps_classList_add. by apply (blind_to_element _ el_suggestions). Qed.

Lemma keeps_handleSearch_settle {B} (f : page → B) body :
  blind_at el_error f → blind_at el_errorMessage f → blind_at el_loading f →
  keeps f body → keeps f (handleSearch_settle body).
Proof.
  intros He Hm Hl Hb s. unfold handleSearch_settle. specialize (Hb s).
  destruct (body s) as [[[]|err] s']; simpl in *; [| done |]; rewrite <- Hb.
  - apply Hl.
  - by rewrite Hl, Hm, He.
Qed.

Lemma keeps_performSearch_settle {B} (f : page → B) body :
  blind_at el_error f → blind_at el_errorMessage f → blind_at el_loading f →
  keeps f body → keeps f (performSearch_settle body).
Proof.
  intros He Hm Hl Hb s. unfold performSearch_settle. specialize (Hb s).
  destruct (body s) as [[[]|err] s']; simpl in *; [| done |]; rewrite <- Hb.
  - apply Hl.
  - by rewrite Hl, Hm, He.
Qed.

Lemma keeps_suggestions_settle {B} (f : page → B) body :
  keeps f body → keeps f (suggestions_settle body).
Proof. intros Hb. apply keeps_try_catch; [done|]. intros; apply keeps_ret. Qed.

Lemma keeps_displayResults {B} (f : page → B) data :
  blind_at el_results f → blind_at el_productResults f →
  keeps f (displayResults data).
Proof.
  intros Hr Hp. unfold displayResults.
  apply keeps_bind;
    [apply keeps_classList_remove; by apply (blind_to_element _ el_results)|]. intros _.
  apply keeps_bind;
    [apply keeps_classList_add; by apply (blind_to_element _ el_results)|]. intros _.
  apply keeps_bind; [apply keeps_lift|]. intros ?.
  apply keeps_bind; [apply keeps_lift|]. intros ?.
  apply keeps_bind; [apply keeps_throw|]. intros _.
  apply keeps_bind; [apply keeps_lift|]. intros ?.
  apply keeps_bind; [apply keeps_lift|]. intros ?.
  apply (keeps_modify f). intros s. apply Hp.
Qed.

Lemma keeps_displaySuggestions {B} (f : page → B) list :
  blind_at el_suggestions f → blind_to_heap f →
  keeps f (displaySuggestions list).
Proof.
  intros Hs Hh. unfold displaySuggestions.
  apply keeps_bind; [apply keeps_lift|]. intros len.
  destruct (negb _); [by apply keeps_hideSuggestions|].
  apply keeps_bind;
    [apply keeps_classList_remove; by apply (blind_to_element _ el_suggestions)|]. intros _.
  apply keeps_bind; [apply keeps_lift|]. intros ?.
  apply keeps_set_innerHTML; [apply blind_to_value|done].
Qed.

End HandlerFrames.

(** Closes the side conditions of a frame goal: the observation is a field
    the statement does not write, or an element it does not touch. *)
Ltac blind_at_node :=
  first [ by intros ??
        | by (intros ??; cbn [dom set_dom];
              rewrite fn_lookup_alter_ne by (done || congruence)) ].

Ltac blind :=
  lazymatch goal with
  | |- blind_to_heap _ => by intros ??
  | |- blind_to (ValueRef _) _ => apply blind_to_value
  | |- blind_to _ _ =>
      let n := fresh in let E := fresh in
      intros n E; cbv in E; first [discriminate E | injection E as <-];
      blind_at_node
  | |- blind_at _ _ => blind_at_node
  | |- _ => by intros
  end.

(** Splits a frame goal along the structure of the statement. *)
Ltac keeps_step :=
  lazymatch goal with
  | |- keeps _ (bind _ _) => apply keeps_bind; [|intros ?]
  | |- keeps _ (ret _) => apply keeps_ret
  | |- keeps _ (throw _) => apply keeps_throw
  | |- keeps _ (lift _) => apply keeps_lift
  | |- keeps _ (gets _) => apply keeps_gets
  | |- keeps _ (get_value _) => apply keeps_get_value
  | |- keeps _ (try_catch _ _) => apply keeps_try_catch; [|intros ?]
  | |- keeps _ (try_finally _ _) => apply keeps_try_finally
  | |- keeps _ (classList_add _ _) => apply keeps_classList_add
  | |- keeps _ (classList_remove _ _) => apply keeps_classList_remove
  | |- keeps _ (set_innerHTML _ _) => apply keeps_set_innerHTML
  | |- keeps _ (set_textContent _ _) => apply keeps_set_textContent
  | |- keeps _ (set_value _ _) => apply keeps_set_value
  | |- keeps _ (modify _) => apply keeps_modify; intros ?
  | |- keeps _ (localStorage_getItem _) => apply keeps_localStorage_getItem
  | |- keeps _ (localStorage_setItem _ _) => apply keeps_localStorage_setItem
  | |- keeps _ (getUserId _) => apply keeps_getUserId
  | |- keeps _ (setTimeout _ _) => apply keeps_setTimeout
  | |- keeps _ (clearTimeout _) => apply keeps_clearTimeout
  | |- keeps _ (await_fetch _ _) => apply keeps_await_fetch
  | |- keeps _ (await_json _ _) => apply keeps_await_json
  | |- keeps _ showLoading => apply keeps_showLoading
  | |- keeps _ hideLoading => apply keeps_hideLoading
  | |- keeps _ (showError _) => apply keeps_showError
  | |- keeps _ hideError => apply keeps_hideError
  | |- keeps _ hideSuggestions => apply keeps_hideSuggestions
  | |- keeps _ (handleSearch_settle _) => apply keeps_handleSearch_settle
  | |- keeps _ (performSearch_settle _) => apply keeps_performSearch_settle
  | |- keeps _ (suggestions_settle _) => apply keeps_suggestions_settle
  | |- keeps _ (displayResults _) => apply keeps_displayResults
  | |- keeps _ (displaySuggestions _) => apply keeps_displaySuggestions
  | |- keeps _ (if ?b then _ else _) => destruct b
  | |- keeps _ (match ?x with _ => _ end) => destruct x
  | |- keeps _ (let _ := _ in _) => cbv zeta
  end.

Ltac keeps_auto := repeat keeps_step; try blind.

(** ** What the handlers do *)
Section Effects.
Context `{Host}.

Lemma not_hidden_after_remove (e : element) :
  hidden (with_classList (token_remove "hidden") e) = false.
Proof.
  unfold hidden, with_classList, token_remove. simpl.
  apply bool_decide_eq_false. rewrite list_elem_of_filter. by intros [? _].
Qed.

Lemma hidden_after_add (e : element) :
  hidden (with_classList (token_add "hidden") e) = true.
Proof.
  unfold hidden, with_classList, token_add. simpl.
  apply bool_decide_eq_true. case_bool_decide; [done|].
  apply elem_of_app. right. by apply list_elem_of_singleton.
Qed.

Lemma handleSearch_settle_abrupt body s err s' :
  body s = (Abrupt err, s') →
  handleSearch_settle body s = (Normal Completed, error_shown err s').
Proof. intros Hb. unfold handleSearch_settle. by rewrite Hb. Qed.

Lemma performSearch_settle_abrupt body s err s' :
  body s = (Abrupt err, s') →
  performSearch_settle body s = (Normal Completed, error_shown err s').
Proof. intros Hb. unfold performSearch_settle. by rewrite Hb. Qed.

Lemma error_shown_panel err s : hidden (dom (error_shown err s) el_error) = false.
Proof.
  unfold error_shown. cbn [dom set_dom].
  rewrite !fn_lookup_alter_ne by done. rewrite fn_lookup_alter.
  apply not_hidden_after_remove.
Qed.

Lemma error_shown_message err s :
  children (dom (error_shown err s) el_errorMessage) = TextContent (exn_message err).
Proof.
  unfold error_shown. cbn [dom set_dom].
  rewrite fn_lookup_alter_ne by done. by rewrite fn_lookup_alter.
Qed.

Lemma error_shown_loading err s : hidden (dom (error_shown err s) el_loading) = true.
Proof.
  unfold error_shown. cbn [dom set_dom]. rewrite fn_lookup_alter. apply hidden_after_add.
Qed.

(** A suggestion that is a string, as the contract has it, gets its
    tag. *)
Lemma createSuggestionTag_strings (texts : list jsstring) :
  c_map_list createSuggestionTag (VString <$> texts)
  = Normal (suggestion_tag_template <$> texts).
Proof.
  induction texts as [|t texts IH]; [done|].
  rewrite !fmap_cons. cbn [c_map_list]. by rewrite IH.
Qed.

(** Line 117 wraps each product in an object with the one field
    [product], so the other three names of line 134 are [undefined]. *)
Lemma wrapped_product (p : value) :
  let result := VObject [(js "product", p)] in
  get_prop result "product" = Normal p ∧
  get_prop result "relevance_score" = Normal VUndefined ∧
  get_prop result "personalization_score" = Normal VUndefined ∧
  get_prop result "explanation" = Normal VUndefined.
Proof. done. Qed.

(** Line 113 throws whatever the response is: the property read, the call
    of [replace] or, last, the assignment to [null]. *)
Lemma displayResults_throws data s :
  ∃ err s', displayResults data s = (Abrupt err, s').
Proof.
  unfold displayResults. cbn.
  destruct (get_prop data "ai_response") as [ai|err]; cbn; [|by eauto].
  destruct (formatAIResponse _) as [formatted|err]; cbn; by eauto.
Qed.

End Effects.

(** ** Statements that do not read the page *)
Section Uniform.
Context `{Host}.

Lemma uniform_ret {A} (a : A) : uniform (ret a).
Proof. by intros s1 s2. Qed.

Lemma uniform_throw {A} e : uniform (throw (A:=A) e).
Proof. by intros s1 s2. Qed.

Lemma uniform_lift {A} (c : completion A) : uniform (lift c).
Proof. by intros s1 s2. Qed.

Lemma uniform_bind {A B} (m : action A) (k : A → action B) :
  uniform m → (∀ a, uniform (k a)) → uniform (bind m k).
Proof.
  intros Hm Hk s1 s2. unfold bind. destruct (Hm s1 s2) as [Hc Hd].
  destruct (m s1) as [c1 t1], (m s2) as [c2 t2]. simpl in *. subst c2.
  destruct c1 as [a|e]; simpl; [|done].
  destruct (Hk a t1 t2) as [Hc' Hd']. split; [done|]. intros n Hn. by apply Hd', Hd.
Qed.

Lemma uniform_try_finally {A} (m : action A) fin :
  uniform m → uniform fin → uniform (try_finally m fin).
Proof.
  intros Hm Hf s1 s2. unfold try_finally. destruct (Hm s1 s2) as [Hc Hd].
  destruct (m s1) as [c1 t1], (m s2) as [c2 t2]. simpl in *. subst c2.
  destruct (Hf t1 t2) as [Hc' Hd'].
  destruct (fin t1) as [d1 u1], (fin t2) as [d2 u2]. simpl in *. subst d2.
  destruct d1 as [[]|e]; simpl; (split; [done|]); intros n Hn; by apply Hd', Hd.
Qed.

Lemma uniform_element (n : node) (g : element → element) :
  uniform (modify (set_dom (alter g n))).
Proof.
  intros s1 s2. split; [done|]. intros m Hm. cbn.
  destruct (decide (n = m)) as [->|Hne].
  - rewrite !fn_lookup_alter. by rewrite Hm.
  - by rewrite !fn_lookup_alter_ne.
Qed.

Lemma uniform_off_dom (f : page → page) :
  (∀ s, dom (f s) = dom s) → uniform (modify f).
Proof. intros Hf s1 s2. split; [done|]. intros n Hn. cbn. by rewrite !Hf. Qed.

Lemma uniform_assign_on_value v prop text : uniform (assign_on_value v prop text).
Proof.
  destruct v; try apply uniform_throw; try apply uniform_ret;
    by apply uniform_off_dom.
Qed.

Lemma uniform_classList_call target method g : uniform (classList_call target method g).
Proof.
  destruct target; simpl.
  - apply uniform_element.
  - apply uniform_throw.
  - apply uniform_bind; [apply uniform_lift|intros; apply uniform_lift].
Qed.

Lemma uniform_set_innerHTML target markup : uniform (set_innerHTML target markup).
Proof.
  destruct target; simpl;
    [apply uniform_element|apply uniform_throw|apply uniform_assign_on_value].
Qed.

Lemma uniform_set_textContent target text : uniform (set_textContent target text).
Proof.
  destruct target; simpl;
    [apply uniform_element|apply uniform_throw|apply uniform_assign_on_value].
Qed.

Lemma uniform_await_json o id : uniform (await_json o id).
Proof. by intros s1 s2. Qed.

End Uniform.

Ltac uniform_step :=
  lazymatch goal with
  | |- uniform (bind _ _) => apply uniform_bind; [|intros ?]
  | |- uniform (ret _) => apply uniform_ret
  | |- uniform (throw _) => apply uniform_throw
  | |- uniform (lift _) => apply uniform_lift
  | |- uniform (try_finally _ _) => apply uniform_try_finally
  | |- uniform (classList_add _ _) => apply uniform_classList_call
  | |- uniform (classList_remove _ _) => apply uniform_classList_call
  | |- uniform (set_innerHTML _ _) => apply uniform_set_innerHTML
  | |- uniform (set_textContent _ _) => apply uniform_set_textContent
  | |- uniform (await_json _ _) => apply uniform_await_json
  | |- uniform (if ?b then _ else _) => destruct b
  | |- uniform (match ?x with _ => _ end) => destruct x
  | |- uniform (let _ := _ in _) => cbv zeta
  end.

Section UniformHandlers.
Context `{Host}.

Lemma uniform_handleSearch_settle body :
  uniform body → uniform (handleSearch_settle body).
Proof.
  intros Hb s1 s2. unfold handleSearch_settle. destruct (Hb s1 s2) as [Hc Hd].
  destruct (body s1) as [c1 t1], (body s2) as [c2 t2]. simpl in *. subst c2.
  destruct c1 as [[]|err]; [| done |].
  - assert (Hu : uniform (hideLoading >> ret Completed))
      by (unfold hideLoading; repeat uniform_step).
    destruct (Hu t1 t2) as [? Hd']. split; [done|]. intros n Hn. by apply Hd', Hd.
  - assert (Hu : uniform (try_finally (showError (exn_message err) >> ret Completed)
                            hideLoading))
      by (unfold showError, hideLoading; repeat uniform_step).
    destruct (Hu t1 t2) as [? Hd']. split; [done|]. intros n Hn. by apply Hd', Hd.
Qed.

Lemma uniform_performSearch_settle body :
  uniform body → uniform (performSearch_settle body).
Proof.
  intros Hb s1 s2. unfold performSearch_settle. cbv zeta.
  destruct (Hb s1 s2) as [Hc Hd].
  destruct (body s1) as [c1 t1], (body s2) as [c2 t2]. simpl in *. subst c2.
  destruct c1 as [[]|err]; [| done |].
  - assert (Hu : uniform (classList_add (getElementById "loading") "hidden" >> ret Completed))
      by repeat uniform_step.
    destruct (Hu t1 t2) as [? Hd']. split; [done|]. intros n Hn. by apply Hd', Hd.
  - assert (Hu : uniform (try_finally
                   (classList_remove (getElementById "error") "hidden" >>
                    set_textContent (getElementById "errorMessage") (exn_message err) >>
                    ret Completed)
                   (classList_add (getElementById "loading") "hidden")))
      by repeat uniform_step.
    destruct (Hu t1 t2) as [? Hd']. split; [done|]. intros n Hn. by apply Hd', Hd.
Qed.

(** The continuations of the two searches do not read the page. *)
Lemma uniform_main_continuation (o : origin) id (settled : fetch_result + body_result) :
  o ≠ FromSuggestions →
  uniform
    match o, settled with
    | FromHandleSearch, inl r => handleSearch_response id r
    | FromHandleSearch, inr b => handleSearch_body b
    | FromPerformSearch, inl r => performSearch_response id r
    | FromPerformSearch, inr b => performSearch_body b
    | FromSuggestions, _ => ret Completed
    end.
Proof.
  intros Ho. destruct o, settled as [r|b]; try done.
  - unfold handleSearch_response. apply uniform_handleSearch_settle.
    repeat uniform_step.
  - unfold handleSearch_body. apply uniform_handleSearch_settle.
    unfold displayResults. repeat uniform_step.
  - unfold performSearch_response. apply uniform_performSearch_settle.
    repeat uniform_step.
  - unfold performSearch_body. cbv zeta. apply uniform_performSearch_settle.
    repeat uniform_step.
Qed.

End UniformHandlers.

Create HintDb handlers.
Hint Unfold handleSearch handleSearch_response handleSearch_body
  handleSearchInput suggestionsCallback suggestionsCallback_response
  suggestionsCallback_body applySuggestion performSearch
  performSearch_response performSearch_body exampleClick searchClick : handlers.

(** Proves that a handler keeps an observation it does not write. *)
Ltac solve_keeps := repeat autounfold with handlers; keeps_auto.

(** Reduces "the observation is the same after the handler has run from
    [s']" to a frame goal and to the same statement about [s']. *)
Ltac after_handler :=
  lazymatch goal with
  | |- dom (snd (?m ?s')) ?n = _ =>
      transitivity (dom s' n);
      [ let K := fresh in
        assert (K : keeps (λ s, dom s n) m) by solve_keeps; apply K
      | try reflexivity ]
  | |- tasks (snd (?m ?s')) !! ?i = _ =>
      transitivity (tasks s' !! i);
      [ let K := fresh in
        assert (K : keeps (λ s, tasks s !! i) m) by solve_keeps; apply K
      | try reflexivity ]
  | |- ?f (snd (?m ?s')) = _ =>
      transitivity (f s');
      [ let K := fresh in assert (K : keeps f m) by solve_keeps; apply K
      | try reflexivity ]
  end.

(** ** The event loop *)
Section Traces.
Context `{Host}.

Lemma steps_snoc es e s : steps (es ++ [e]) s = step e (steps es s).
Proof. unfold steps. by rewrite foldl_app. Qed.

(** What runs when a timer fires. *)
Lemma suggestionsCallback_run query s :
  suggestionsCallback query s =
  (Normal Suspended,
   set_sent (sent s ++ [(FromSuggestions, suggestions_request query)])
     (set_tasks
        (<[next_task s := {| t_origin := FromSuggestions; t_stage := AwaitingResponse |}]>
           (tasks s))
        (S (next_task s)) s)).
Proof. done. Qed.

(** What [handleSearchInput] does, with [query] the trimmed text of the
    search box: the pending timer is cleared, and either the suggestions
    are hidden or a new timer is set. *)
Lemma handleSearchInput_run s :
  let query := trim (input_value (dom s el_searchInput)) in
  handleSearchInput s =
  (Normal (),
   if (length query <? 2)%nat
   then set_dom (alter (with_classList (token_add "hidden")) el_suggestions)
          (timer_cleared s)
   else set_searchTimeout (Some (next_timer s))
          (set_timers (<[next_timer s := query]> (timers (timer_cleared s)))
             (Pos.succ (next_timer s)) (timer_cleared s))).
Proof.
  unfold handleSearchInput, timer_cleared. cbn.
  destruct (searchTimeout s); cbn; by destruct (Nat.leb _ _).
Qed.

(** Of the timers, an input event removes the one [searchTimeout]
    remembers and no other. *)
Lemma input_clears_searchTimeout_only text s handle :
  handle ≠ next_timer s →
  timers (step (InputEvent text) s) !! handle =
  if bool_decide (searchTimeout s = Some handle) then None else timers s !! handle.
Proof.
  intros Hfresh. unfold step, run. rewrite handleSearchInput_run. cbv zeta.
  set (s0 := set_dom _ s).
  assert (Hcleared : timers (timer_cleared s0) !! handle =
            if bool_decide (searchTimeout s = Some handle) then None
            else timers s !! handle).
  { unfold timer_cleared. change (searchTimeout s0) with (searchTimeout s).
    destruct (searchTimeout s) as [h0|]; cbn.
    - case_bool_decide as Hh; [injection Hh as ->; apply lookup_delete_eq|].
      apply lookup_delete_ne. congruence.
    - by case_bool_decide. }
  destruct (length (trim (input_value (dom s0 el_searchInput))) <? 2)%nat; cbn.
  - done.
  - by rewrite lookup_insert_ne.
Qed.

(** Only the input listener and the firing of a timer change the debounce
    state. *)
Lemma step_debounce e s :
  (∀ text, e ≠ InputEvent text) → (∀ handle, e ≠ TimerEvent handle) →
  debounce (step e s) = debounce s.
Proof.
  intros Hi Ht.
  destruct e; try (by exfalso; eapply Hi); try (by exfalso; eapply Ht);
    unfold step, run;
    try (destruct (tasks s !! id) as [[[] []]|]; try done); after_handler.
Qed.

Lemma step_timer_debounce handle s :
  debounce (step (TimerEvent handle) s) =
  (match timers s !! handle with
   | Some _ => delete handle (timers s)
   | None => timers s
   end, searchTimeout s, next_timer s).
Proof.
  unfold step. destruct (timers s !! handle) eqn:E; [|done].
  unfold run. by rewrite suggestionsCallback_run.
Qed.

Lemma one_timer_size s : one_timer s → (size (timers s) ≤ 1)%nat.
Proof.
  intros Hs. destruct (searchTimeout s) as [h|] eqn:E.
  - assert (timers s ⊆ {[h := default [] (timers s !! h)]}) as Hsub.
    { apply map_subseteq_spec. intros i q Hi.
      assert (i = h) as ->.
      { destruct (Hs i (mk_is_Some _ _ Hi)) as [? _]. congruence. }
      rewrite lookup_singleton_eq. by rewrite Hi. }
    apply map_subseteq_size in Hsub. by rewrite map_size_singleton in Hsub.
  - assert (timers s = ∅) as ->; [|rewrite map_size_empty; lia].
    apply map_empty. intros i. destruct (timers s !! i) eqn:Hi; [|done].
    destruct (Hs i (mk_is_Some _ _ Hi)) as [? _]. congruence.
Qed.

Lemma one_timer_cleared s :
  one_timer s → timers (timer_cleared s) = ∅.
Proof.
  intros Hs. unfold timer_cleared. destruct (searchTimeout s) as [h|] eqn:E; simpl.
  - apply map_empty. intros i.
    destruct (decide (i = h)) as [->|Hne]; [apply lookup_delete_eq|].
    rewrite lookup_delete_ne by done.
    destruct (timers s !! i) eqn:Hi; [|done].
    destruct (Hs i (mk_is_Some _ _ Hi)) as [? _]. congruence.
  - apply map_empty. intros i.
    destruct (timers s !! i) eqn:Hi; [|done].
    destruct (Hs i (mk_is_Some _ _ Hi)) as [? _]. congruence.
Qed.

(** The timers after an input event: none, or the one just set. *)
Lemma input_timers text s :
  one_timer s →
  let s' := step (InputEvent text) s in
  (timers s' = ∅ ∨
   ∃ query, timers s' = {[next_timer s := query]} ∧
            searchTimeout s' = Some (next_timer s) ∧
            next_timer s' = Pos.succ (next_timer s) ∧
            query = trim text ∧ (2 ≤ length query)%nat) ∧
  (next_timer s ≤ next_timer s')%positive ∧
  (timers s' = ∅ → next_timer s' = next_timer s).
Proof.
  intros Hs. unfold step, run. rewrite handleSearchInput_run. cbv zeta.
  set (s0 := set_dom _ s).
  assert (Hs0 : one_timer s0) by done.
  pose proof (one_timer_cleared s0 Hs0) as Hempty.
  assert (Hnext : next_timer (timer_cleared s0) = next_timer s).
  { unfold timer_cleared. by destruct (searchTimeout s0). }
  assert (Hvalue : input_value (dom s0 el_searchInput) = text) by done.
  rewrite Hvalue.
  destruct (length (trim text) <? 2)%nat eqn:Hlen; cbn.
  - rewrite Hempty, Hnext. split; [by left|]. split; [lia|done].
  - rewrite Hempty. split.
    + right. exists (trim text). repeat (split; [done|]).
      apply Nat.ltb_ge in Hlen. lia.
    + split; [lia|]. intros Hbad.
      apply (f_equal (λ m, m !! next_timer s)) in Hbad.
      by rewrite lookup_insert_eq, lookup_empty in Hbad.
Qed.

Lemma step_one_timer e s : one_timer s → one_timer (step e s).
Proof.
  intros Hs.
  assert (Hother : (∀ text, e ≠ InputEvent text) → (∀ handle, e ≠ TimerEvent handle) →
                   one_timer (step e s)).
  { intros Hi Ht.
    pose proof (step_debounce e s Hi Ht) as Hd. injection Hd as Htimers Htimeout Hnext.
    intros h. unfold one_timer in Hs.
    change (timers (step e s)) with (fst (fst (debounce (step e s)))).
    change (searchTimeout (step e s)) with (snd (fst (debounce (step e s)))).
    change (next_timer (step e s)) with (snd (debounce (step e s))).
    rewrite (step_debounce e s Hi Ht). apply Hs. }
  destruct e as [text| | | | |handle| |]; try (by apply Hother).
  - destruct (input_timers text s Hs)
      as ([Hempty|(q & Htimers & Htimeout & Hsucc & _)] & Hle & _);
      intros h [q' Hq'].
    + rewrite Hempty in Hq'. by rewrite lookup_empty in Hq'.
    + rewrite Htimers in Hq'. apply lookup_singleton_Some in Hq' as [<- _].
      split; [done|]. rewrite Hsucc. lia.
  - pose proof (step_timer_debounce handle s) as Hd.
    intros h.
    change (timers (step (TimerEvent handle) s))
      with (fst (fst (debounce (step (TimerEvent handle) s)))).
    change (searchTimeout (step (TimerEvent handle) s))
      with (snd (fst (debounce (step (TimerEvent handle) s)))).
    change (next_timer (step (TimerEvent handle) s))
      with (snd (debounce (step (TimerEvent handle) s))).
    rewrite Hd. cbn [fst snd]. intros [q Hq]. apply Hs.
    destruct (timers s !! handle); [|by eexists].
    apply lookup_delete_Some in Hq as [_ Hq]. by eexists.
Qed.

Lemma loaded_one_timer storage : one_timer (loaded storage).
Proof. intros h [q Hq]. simpl in Hq. by rewrite lookup_empty in Hq. Qed.

Lemma reachable_one_timer es storage : one_timer (steps es (loaded storage)).
Proof.
  induction es as [|e es IH] using rev_ind; [apply loaded_one_timer|].
  rewrite steps_snoc. by apply step_one_timer.
Qed.

(** ** The requests the page sends *)

Lemma getUserId_normal random36 s :
  ∃ user_id s', getUserId random36 s = (Normal user_id, s').
Proof.
  unfold getUserId. cbn. destruct (negb _); cbn; by eauto.
Qed.

(** [handleSearch] returns at once, or sends one request and parks. *)
Lemma handleSearch_fetch random36 s :
  let s' := snd (handleSearch random36 s) in
  (sent s' = sent s ∧ pending s' = pending s) ∨
  ∃ user_id,
    let query := trim (input_value (dom s el_searchInput)) in
    query ≠ [] ∧
    sent s' = sent s ++ [(FromHandleSearch, handleSearch_request query user_id)] ∧
    pending s' = parked FromHandleSearch s.
Proof.
  unfold handleSearch. cbn.
  case_bool_decide as Hq; [by left|]. right. cbn.
  set (s1 := set_dom _ _).
  destruct (getUserId_normal random36 s1) as (user_id & s2 & Hid).
  exists user_id. split; [done|].
  pose proof (keeps_getUserId sent random36 ltac:(done) s1) as Hsent.
  pose proof (keeps_getUserId pending random36 ltac:(done) s1) as Hpending.
  rewrite Hid in Hsent, Hpending. cbn in Hsent, Hpending.
  injection Hpending as Htasks Hnext.
  unfold handleSearch_settle, bind. rewrite Hid. cbn.
  unfold parked. by rewrite Hsent, Htasks, Hnext.
Qed.

Lemma performSearch_fetch query s :
  let s' := snd (performSearch query s) in
  (sent s' = sent s ∧ pending s' = pending s) ∨
  trim query ≠ [] ∧
  sent s' = sent s ++ [(FromPerformSearch, performSearch_request query)] ∧
  pending s' = parked FromPerformSearch s.
Proof.
  unfold performSearch. cbn.
  case_bool_decide as Hq; [by left|]. by right.
Qed.

Lemma applySuggestion_run suggestion random36 s :
  applySuggestion suggestion random36 s =
  handleSearch random36
    (set_dom (alter (with_input_value (strip_newlines suggestion)) el_searchInput) s).
Proof. done. Qed.

Lemma exampleClick_run searchText s :
  let cleanQuery := filter (λ c, c ≠ 39 ∧ c ≠ 34) searchText in
  exampleClick searchText s =
  performSearch cleanQuery
    (set_dom (alter (with_input_value (strip_newlines cleanQuery)) el_searchInput) s).
Proof. done. Qed.

Lemma searchClick_run s :
  searchClick s = performSearch (trim (input_value (dom s el_searchInput))) s.
Proof. done. Qed.

Lemma request_ok_handleSearch query user_id :
  query ≠ [] → trim query = query →
  request_ok FromHandleSearch (handleSearch_request query user_id).
Proof. intros Hq Ht. exists query. rewrite Ht. split; [done|by exists user_id]. Qed.

(** An event sends at most one request, and a well-formed one. *)
Lemma step_sent e s :
  timers_ok s →
  sent (step e s) = sent s ∨
  ∃ o r, request_ok o r ∧ sent (step e s) = sent s ++ [(o, r)].
Proof.
  intros Htimers. destruct e; unfold step, run.
  - left. after_handler.
  - destruct (handleSearch_fetch random36 s) as [[-> _]|(user_id & Hq & -> & _)]; [by left|].
    right. eexists _, _. split; [|done].
    apply request_ok_handleSearch; [done|apply trim_idem].
  - rewrite applySuggestion_run. set (s1 := set_dom _ s).
    destruct (handleSearch_fetch random36 s1) as [[-> _]|(user_id & Hq & -> & _)]; [by left|].
    right. eexists _, _. split; [|done].
    apply request_ok_handleSearch; [done|apply trim_idem].
  - rewrite exampleClick_run. cbv zeta. set (s1 := set_dom _ s).
    destruct (performSearch_fetch (filter (λ c, c ≠ 39 ∧ c ≠ 34) searchText) s1)
      as [[-> _]|(Hq & -> & _)]; [by left|].
    right. eexists _, _. split; [|done]. by eexists.
  - rewrite searchClick_run.
    destruct (performSearch_fetch (trim (input_value (dom s el_searchInput))) s)
      as [[-> _]|(Hq & -> & _)]; [by left|].
    right. eexists _, _. split; [|done]. by eexists.
  - destruct (timers s !! handle) as [query|] eqn:Hh; [|by left].
    right. rewrite suggestionsCallback_run. cbn.
    eexists _, _. split; [|done]. exists query. split; [|done]. by eapply Htimers.
  - left. destruct (tasks s !! id) as [[[] []]|]; try done; after_handler.
  - left. destruct (tasks s !! id) as [[[] []]|]; try done; after_handler.
Qed.

Lemma step_timers_ok e s : one_timer s → timers_ok s → timers_ok (step e s).
Proof.
  intros Hone Hs.
  assert (Hother : (∀ text, e ≠ InputEvent text) → (∀ handle, e ≠ TimerEvent handle) →
                   timers_ok (step e s)).
  { intros Hi Ht h q.
    change (timers (step e s)) with (fst (fst (debounce (step e s)))).
    rewrite (step_debounce e s Hi Ht). apply Hs. }
  destruct e as [text| | | | |handle| |]; try (by apply Hother).
  - destruct (input_timers text s Hone)
      as ([Hempty|(q & Htimers & _ & _ & -> & Hlen)] & _); intros h q' Hq'.
    + rewrite Hempty in Hq'. by rewrite lookup_empty in Hq'.
    + rewrite Htimers in Hq'. apply lookup_singleton_Some in Hq' as [_ <-].
      rewrite trim_idem. intros Hnil. rewrite Hnil in Hlen. simpl in Hlen. lia.
  - intros h q.
    change (timers (step (TimerEvent handle) s))
      with (fst (fst (debounce (step (TimerEvent handle) s)))).
    rewrite step_timer_debounce. cbn [fst]. intros Hq. apply (Hs h).
    destruct (timers s !! handle); [|done].
    by apply lookup_delete_Some in Hq as [_ Hq].
Qed.

Lemma step_sent_ok e s : timers_ok s → sent_ok s → sent_ok (step e s).
Proof.
  intros Ht Hs o r.
  destruct (step_sent e s Ht) as [->|(o' & r' & Hok & ->)]; [apply Hs|].
  rewrite elem_of_app, list_elem_of_singleton. intros [Hin|[= -> ->]]; [by apply Hs|done].
Qed.

Lemma reachable_requests_ok es storage :
  let s := steps es (loaded storage) in timers_ok s ∧ sent_ok s.
Proof.
  induction es as [|e es [IHt IHs]] using rev_ind.
  - split; [intros h q Hq; exfalso; exact (lookup_empty_Some (M:=gmap positive) h q Hq)|].
    intros o r Hin. by apply elem_of_nil in Hin.
  - cbv zeta. rewrite steps_snoc. split.
    + apply step_timers_ok; [apply reachable_one_timer|done].
    + by apply step_sent_ok.
Qed.

(** ** The activations in flight *)

Lemma response_pending (o : origin) id r s :
  let m := match o with
           | FromHandleSearch => handleSearch_response id r
           | FromSuggestions => suggestionsCallback_response id r
           | FromPerformSearch => performSearch_response id r
           end in
  pending (snd (m s)) = pending s ∨
  pending (snd (m s)) =
    (<[id := {| t_origin := o; t_stage := AwaitingBody |}]> (tasks s), next_task s).
Proof.
  destruct o, r as [message|[] statusText]; cbv zeta;
    first [ by right
          | left; repeat autounfold with handlers; cbn [negb];
            lazymatch goal with
            | |- pending (snd (?m ?s')) = _ =>
                let K := fresh in assert (K : keeps pending m) by keeps_auto; apply K
            end ].
Qed.

Lemma body_pending (o : origin) b s :
  let m := match o with
           | FromHandleSearch => handleSearch_body b
           | FromSuggestions => suggestionsCallback_body b
           | FromPerformSearch => performSearch_body b
           end in
  pending (snd (m s)) = pending s.
Proof. destruct o; cbv zeta; after_handler. Qed.

(** What an event does to the activations in flight: nothing; or it parks
    a new one; or it resumes the one it settles, which ends or parks again
    under the same identifier. *)
Lemma step_pending e s :
  pending (step e s) = pending s
  ∨ (∃ o, pending (step e s) = parked o s)
  ∨ (∃ id t, tasks s !! id = Some t ∧
       ((∃ r, e = ResponseEvent id r) ∨ (∃ b, e = BodyEvent id b)) ∧
       next_task (step e s) = next_task s ∧
       (tasks (step e s) = delete id (tasks s) ∨
        tasks (step e s) =
          <[id := {| t_origin := t_origin t; t_stage := AwaitingBody |}]> (delete id (tasks s)))).
Proof.
  destruct e; unfold step, run.
  - left. after_handler.
  - destruct (handleSearch_fetch random36 s) as [[_ ->]|(user_id & _ & _ & ->)];
      [by left|right; left; by eexists].
  - rewrite applySuggestion_run. set (s1 := set_dom _ s).
    destruct (handleSearch_fetch random36 s1) as [[_ ->]|(user_id & _ & _ & ->)];
      [by left|right; left; by eexists].
  - rewrite exampleClick_run. cbv zeta. set (s1 := set_dom _ s).
    destruct (performSearch_fetch (filter (λ c, c ≠ 39 ∧ c ≠ 34) searchText) s1)
      as [[_ ->]|(_ & _ & ->)]; [by left|right; left; by eexists].
  - rewrite searchClick_run.
    destruct (performSearch_fetch (trim (input_value (dom s el_searchInput))) s)
      as [[_ ->]|(_ & _ & ->)]; [by left|right; left; by eexists].
  - destruct (timers s !! handle); [|by left].
    right; left. exists FromSuggestions. by rewrite suggestionsCallback_run.
  - destruct (tasks s !! id) as [[o []]|] eqn:E; [|by left|by left].
    right; right. exists id, {| t_origin := o; t_stage := AwaitingResponse |}.
    split; [done|]. split; [left; by eexists|].
    set (s' := set_tasks _ _ s).
    pose proof (response_pending o id r s') as Hp.
    destruct o; cbv zeta in Hp; destruct Hp as [Hp|Hp];
      injection Hp as Htasks Hnext; rewrite Htasks, Hnext; split; by eauto.
  - destruct (tasks s !! id) as [[o []]|] eqn:E; [by left| |by left].
    right; right. exists id, {| t_origin := o; t_stage := AwaitingBody |}.
    split; [done|]. split; [right; by eexists|].
    set (s' := set_tasks _ _ s).
    pose proof (body_pending o b s') as Hp.
    destruct o; cbv zeta in Hp;
      injection Hp as Htasks Hnext; rewrite Htasks, Hnext; split; by eauto.
Qed.

Lemma step_tasks_fresh e s : tasks_fresh s → tasks_fresh (step e s).
Proof.
  intros Hs id.
  destruct (step_pending e s)
    as [Hp|[[o Hp]|(id0 & t & Hid0 & _ & Hnext & Htasks)]].
  - injection Hp as -> ->. apply Hs.
  - injection Hp as -> ->. intros [t Ht].
    apply lookup_insert_Some in Ht as [[<- _]|[_ Ht]]; [lia|].
    specialize (Hs id (mk_is_Some _ _ Ht)). lia.
  - rewrite Hnext. intros [t' Ht'].
    destruct Htasks as [Htasks|Htasks]; rewrite Htasks in Ht'.
    + apply lookup_delete_Some in Ht' as [_ Ht']. by apply Hs.
    + apply lookup_insert_Some in Ht' as [[<- _]|[_ Ht']]; [by apply Hs|].
      apply lookup_delete_Some in Ht' as [_ Ht']. by apply Hs.
Qed.

Lemma reachable_tasks_fresh es storage : tasks_fresh (steps es (loaded storage)).
Proof.
  induction es as [|e es IH] using rev_ind.
  - intros id [t Ht]. exfalso. exact (lookup_empty_Some (M:=gmap nat) id t Ht).
  - rewrite steps_snoc. by apply step_tasks_fresh.
Qed.

(** An activation stays parked where it is until the event that settles
    its own promise. *)
Lemma step_other_task e s id t :
  tasks_fresh s →
  tasks s !! id = Some t →
  (∀ r, e ≠ ResponseEvent id r) → (∀ b, e ≠ BodyEvent id b) →
  tasks (step e s) !! id = Some t.
Proof.
  intros Hs Hid Hr Hb.
  destruct (step_pending e s)
    as [Hp|[[o Hp]|(id0 & t0 & Hid0 & He & Hnext & Htasks)]].
  - injection Hp as -> _. done.
  - injection Hp as -> _. rewrite lookup_insert_ne; [done|].
    specialize (Hs id (mk_is_Some _ _ Hid)). lia.
  - assert (id0 ≠ id) as Hne.
    { intros ->. destruct He as [[r ->]|[b ->]]; [by eapply Hr|by eapply Hb]. }
    destruct Htasks as [->| ->].
    + by rewrite lookup_delete_ne.
    + rewrite lookup_insert_ne by done. by rewrite lookup_delete_ne.
Qed.

(** What the settling of a search makes of an element depends on the
    event and on that element only. *)
Lemma settle_event_dom (s1 s2 : page) id t (m : event) n :
  tasks s1 !! id = Some t → tasks s2 !! id = Some t →
  t_origin t ≠ FromSuggestions →
  (∃ r, m = ResponseEvent id r) ∨ (∃ b, m = BodyEvent id b) →
  dom s1 n = dom s2 n →
  dom (step m s1) n = dom (step m s2) n.
Proof.
  intros H1 H2 Ho Hm Hn. destruct t as [o st]. simpl in Ho.
  destruct Hm as [[r ->]|[b ->]]; unfold step, run; rewrite H1, H2.
  - destruct st; [|done].
    destruct o; [|done|].
    + by apply (uniform_main_continuation FromHandleSearch id (inl r)).
    + by apply (uniform_main_continuation FromPerformSearch id (inl r)).
  - destruct st; [done|].
    destruct o; [|done|].
    + by apply (uniform_main_continuation FromHandleSearch id (inr b)).
    + by apply (uniform_main_continuation FromPerformSearch id (inr b)).
Qed.

End Traces.

(** * The claims *)

Section Claims.
Context `{Host}.

(** C1.  The constant [aiResponse] of line 12 is [null], because
    [index.html] has no element with that id; [displayResults] therefore
    throws on every call.  When the body of a response to [handleSearch]
    has been read, whatever it holds, the [catch] clause runs: the error
    panel is shown with the message of the exception, the loading
    indicator is hidden and the activation is over. *)
Theorem displayResults_throws_and_error_panel_shown
    (s : page) (id : nat) (b : body_result) :
  tasks s !! id = Some {| t_origin := FromHandleSearch; t_stage := AwaitingBody |} →
  aiResponse = NullRef ∧
  (∀ data p, ∃ err p', displayResults data p = (Abrupt err, p')) ∧
  let s' := step (BodyEvent id b) s in
  ∃ err,
    hidden (dom s' el_error) = false ∧
    children (dom s' el_errorMessage) = TextContent (exn_message err) ∧
    hidden (dom s' el_loading) = true ∧
    tasks s' !! id = None.
Proof.
  intros Htask. split; [done|]. split; [apply displayResults_throws|].
  unfold step. rewrite Htask.
  set (s0 := set_tasks (delete id (tasks s)) (next_task s) s).
  assert (∃ err s1, run (handleSearch_body b) s0 = error_shown err s1 ∧
                    tasks s1 = tasks s0) as (err & s1 & Hrun & Htasks).
  { destruct b as [message|data].
    - by exists (ErrorObject message), s0.
    - destruct (displayResults_throws data s0) as (err & s1 & Hthrow).
      exists err, s1. split.
      + unfold run, handleSearch_body.
        erewrite handleSearch_settle_abrupt; [done|].
        unfold bind. by rewrite Hthrow.
      + pose proof (keeps_displayResults tasks data) as Hkeep.
        specialize (Hkeep ltac:(by intros ??) ltac:(by intros ??) s0).
        by rewrite Hthrow in Hkeep. }
  cbv zeta. rewrite Hrun. exists err.
  split; [apply error_shown_panel|].
  split; [apply error_shown_message|].
  split; [apply error_shown_loading|].
  change (tasks (error_shown err s1)) with (tasks s1).
  rewrite Htasks. apply lookup_delete_eq.
Qed.

(** C2.  In every page the event loop can reach, an event of the
    suggestion path (an edit of the search box, a timer firing, a
    suggestion response) leaves the searches alone: the activations of
    [handleSearch] and [performSearch] stay parked at their [await], no
    search request is added or changed, and no element other than the
    suggestions container (and the box the user edits) changes.  The
    input listener cancels nothing but the timer [searchTimeout]
    remembers. *)
Theorem suggestions_never_cancel_main_search
    (es : list event) (storage : gmap jsstring jsstring) (e : event) :
  let s := steps es (loaded storage) in
  suggestion_event s e →
  (∀ id t, tasks s !! id = Some t → t_origin t ≠ FromSuggestions →
     tasks (step e s) !! id = Some t) ∧
  main_requests (step e s) = main_requests s ∧
  (∀ n, n ≠ el_suggestions → n ≠ el_searchInput → dom (step e s) n = dom s n) ∧
  (∀ id t m n,
     tasks s !! id = Some t → t_origin t ≠ FromSuggestions →
     (∃ r, m = ResponseEvent id r) ∨ (∃ b, m = BodyEvent id b) →
     n ≠ el_suggestions → n ≠ el_searchInput →
     dom (step m (step e s)) n = dom (step m s) n) ∧
  (∀ text, e = InputEvent text →
     tasks (step e s) = tasks s ∧
     ∀ handle, handle ≠ next_timer s →
       timers (step e s) !! handle =
       if bool_decide (searchTimeout s = Some handle) then None
       else timers s !! handle).
Proof.
  intros s He.
  pose proof (reachable_tasks_fresh es storage) as Hfresh.
  fold s in Hfresh.
  assert (Htasks : ∀ id t, tasks s !! id = Some t → t_origin t ≠ FromSuggestions →
                     tasks (step e s) !! id = Some t).
  { intros id t Hid Ht. apply step_other_task; [done..| |].
    - intros r ->. destruct He as [st He]. rewrite Hid in He.
      injection He as ->. done.
    - intros b ->. destruct He as [st He]. rewrite Hid in He.
      injection He as ->. done. }
  assert (Hdom : ∀ n, n ≠ el_suggestions → n ≠ el_searchInput →
                   dom (step e s) n = dom s n).
  { intros n Hn Hn'. destruct e; try done; unfold step, run.
    - after_handler. cbn [dom set_dom]. by rewrite fn_lookup_alter_ne.
    - destruct (timers s !! handle); [|done]. by rewrite suggestionsCallback_run.
    - destruct He as [st ->]. destruct st; [|done]. after_handler.
    - destruct He as [st ->]. destruct st; [done|]. after_handler. }
  split; [done|]. split; [|split; [done|split]].
  - unfold main_requests. destruct e; try done; unfold step, run.
    + f_equal. after_handler.
    + destruct (timers s !! handle); [|done].
      rewrite suggestionsCallback_run. cbn [snd sent set_sent].
      rewrite filter_app, filter_cons_False, filter_nil by (by intros []).
      by rewrite app_nil_r.
    + destruct He as [st ->]. destruct st; [|done]. f_equal. after_handler.
    + destruct He as [st ->]. destruct st; [done|]. f_equal. after_handler.
  - intros id t m n Hid Ht Hm Hn Hn'.
    apply (settle_event_dom _ _ id t); auto.
  - intros text ->. split.
    + unfold step, run. after_handler.
    + intros h Hh. by apply input_clears_searchTimeout_only.
Qed.

(** C3, as the code has it.  In every page the event loop can reach at
    most one debounce timer is pending, and an input event cancels it:
    afterwards the only timer that can be pending is the one this event
    has set.  A suggestion request that is already in flight is not
    cancelled: the activations parked at an [await] are the same after the
    input event as before. *)
Theorem input_cancels_pending_timer_only
    (es : list event) (storage : gmap jsstring jsstring) (text : jsstring) :
  let s := steps es (loaded storage) in
  let s' := step (InputEvent text) s in
  (size (timers s) ≤ 1)%nat ∧
  (∀ handle, is_Some (timers s !! handle) → timers s' !! handle = None) ∧
  (∀ handle, is_Some (timers s' !! handle) →
     handle = next_timer s ∧ searchTimeout s' = Some handle) ∧
  tasks s' = tasks s.
Proof.
  intros s s'.
  pose proof (reachable_one_timer es storage) as Hone. fold s in Hone.
  destruct (input_timers text s Hone) as (Htimers & _ & _). fold s' in Htimers.
  split; [by apply one_timer_size|]. split; [|split].
  - intros h Hh. destruct (Hone h Hh) as [_ Hlt].
    destruct Htimers as [->|(q & -> & _)]; [done|].
    apply lookup_singleton_ne. lia.
  - intros h [q Hq].
    destruct Htimers as [Hempty|(q' & Hsingle & Htimeout & _)].
    + rewrite Hempty in Hq. exfalso. exact (lookup_empty_Some (M:=gmap positive) h q Hq).
    + rewrite Hsingle in Hq. by apply lookup_singleton_Some in Hq as [<- _].
  - unfold s', step, run. after_handler.
Qed.

(** C4.  When the text trims to the empty string, [handleSearch] (the text
    being that of the search box) and [performSearch] return at once and
    leave the page as it is, so no request goes out.  Every request the
    page ever sends carries a query that does not trim to the empty
    string, which is what the planner would reject as malformed. *)
Theorem blank_query_sends_no_request
    (s : page) (text random36 : jsstring) :
  trim text = [] →
  (input_value (dom s el_searchInput) = text →
     handleSearch random36 s = (Normal Completed, s)) ∧
  performSearch text s = (Normal Completed, s) ∧
  (∀ es storage i o r,
     sent (steps es (loaded storage)) !! i = Some (o, r) →
     ∃ query, assoc (js "query") (req_body r) = Some (VString query) ∧
              trim query ≠ [] ∧ plan_is_malformed query = false).
Proof.
  intros Hblank. split; [|split].
  - intros Hvalue. unfold handleSearch. cbn. rewrite Hvalue, Hblank. done.
  - unfold performSearch. cbn. by rewrite Hblank.
  - intros es storage i o r Hi.
    destruct (reachable_requests_ok es storage) as [_ Hsent].
    destruct (Hsent o r) as (query & Hq & Hr); [by eapply list_elem_of_lookup_2|].
    exists query. split; [|split; [done|by apply bool_decide_eq_false]].
    destruct o; [destruct Hr as [user_id ->]|subst r..]; done.
Qed.

(** C5, as the code has it.  Every request of [handleSearch] carries
    [context: {}]; a request of [performSearch] carries the query and
    nothing else, so no [context]. *)
Theorem context_sent_by_handleSearch_only
    (es : list event) (storage : gmap jsstring jsstring)
    (i : nat) (o : origin) (r : request) :
  sent (steps es (loaded storage)) !! i = Some (o, r) →
  match o with
  | FromHandleSearch => assoc (js "context") (req_body r) = Some (VObject [])
  | FromPerformSearch =>
      (∃ query, req_body r = [(js "query", VString query)]) ∧
      assoc (js "context") (req_body r) = None
  | FromSuggestions => True
  end.
Proof.
  intros Hi.
  destruct (reachable_requests_ok es storage) as [_ Hsent].
  destruct (Hsent o r) as (query & Hq & Hr); [by eapply list_elem_of_lookup_2|].
  destruct o; [destruct Hr as [user_id ->]|subst r..]; [done|done|].
  split; [by eexists|done].
Qed.

(** C6.  Every request the page sends goes to [/api/search] with a body
    whose fields are [query, user_id, filters, context] from
    [handleSearch], [query, generate_suggestions] (the latter [true]) from
    the suggestion path and [query] from [performSearch]: the fields are
    all in the inbound contract, and [query] is among them. *)
Theorem request_bodies_within_contract
    (es : list event) (storage : gmap jsstring jsstring)
    (i : nat) (o : origin) (r : request) :
  sent (steps es (loaded storage)) !! i = Some (o, r) →
  req_url r = js "/api/search" ∧
  body_fields r =
    match o with
    | FromHandleSearch => [js "query"; js "user_id"; js "filters"; js "context"]
    | FromSuggestions => [js "query"; js "generate_suggestions"]
    | FromPerformSearch => [js "query"]
    end ∧
  (o = FromSuggestions →
     assoc (js "generate_suggestions") (req_body r) = Some (VBool true)) ∧
  body_fields r ⊆ inbound_contract ∧
  js "query" ∈ body_fields r.
Proof.
  intros Hi.
  destruct (reachable_requests_ok es storage) as [_ Hsent].
  destruct (Hsent o r) as (query & Hq & Hr); [by eapply list_elem_of_lookup_2|].
  assert (Hfields : body_fields r =
            match o with
            | FromHandleSearch => [js "query"; js "user_id"; js "filters"; js "context"]
            | FromSuggestions => [js "query"; js "generate_suggestions"]
            | FromPerformSearch => [js "query"]
            end).
  { destruct o; [destruct Hr as [user_id ->]|subst r..]; done. }
  split; [destruct o; [destruct Hr as [user_id ->]|subst r..]; done|].
  split; [done|].
  split; [intros ->; by subst r|].
  rewrite Hfields. unfold inbound_contract.
  split; [|destruct o; by left].
  intros k. destruct o; rewrite !elem_of_cons, elem_of_nil;
    intros Hk; repeat (destruct Hk as [->|Hk]; [auto 10|]); done.
Qed.

(** C7, as the code has it.  When a search fails before its body is read,
    the text shown in the error element is the message of an error made
    on the page.  For a response that is not ok the script makes it: the
    literal [Search request failed] in [handleSearch], whatever the
    response holds, and [Search request failed: ] followed by the status
    text of the response in [performSearch].  For a request that did not
    get through it is the message of the error [fetch] rejects with.  The
    error panel is shown and the activation is over: the body of the
    response is never read. *)
Theorem failed_search_shows_text_made_by_the_page
    (s : page) (id : nat) (o : origin) (r : fetch_result) :
  tasks s !! id = Some {| t_origin := o; t_stage := AwaitingResponse |} →
  o ≠ FromSuggestions →
  fetch_failed r = true →
  let s' := step (ResponseEvent id r) s in
  children (dom s' el_errorMessage) =
    TextContent match r, o with
                | Rejected message, _ => message
                | Responded _ _, FromHandleSearch => js "Search request failed"
                | Responded _ statusText, _ => js "Search request failed: " ++ statusText
                end ∧
  hidden (dom s' el_error) = false ∧
  tasks s' !! id = None.
Proof.
  intros Htask Ho Hfailed. unfold step. rewrite Htask.
  set (s0 := set_tasks (delete id (tasks s)) (next_task s) s).
  assert (∃ err,
            run match o with
                | FromHandleSearch => handleSearch_response id r
                | FromSuggestions => suggestionsCallback_response id r
                | FromPerformSearch => performSearch_response id r
                end s0 = error_shown err s0 ∧
            exn_message err =
              match r, o with
              | Rejected message, _ => message
              | Responded _ _, FromHandleSearch => js "Search request failed"
              | Responded _ statusText, _ => js "Search request failed: " ++ statusText
              end) as (err & Hrun & Hmessage).
  { destruct o; [|done|]; destruct r as [message|[] statusText]; try done;
      by eexists (ErrorObject _). }
  assert (Hstep : match o with
                  | FromHandleSearch => run (handleSearch_response id r) s0
                  | FromSuggestions => run (suggestionsCallback_response id r) s0
                  | FromPerformSearch => run (performSearch_response id r) s0
                  end = error_shown err s0) by (by destruct o).
  cbv zeta. rewrite Hstep, <- Hmessage.
  split; [apply error_shown_message|]. split; [apply error_shown_panel|].
  apply lookup_delete_eq.
Qed.

(** C8, as the code has it.  The card [createProductCard] makes for a
    product depends on its [name], [description], [price], [category] and
    [attributes] only, all of them fields of the contract.  The card
    [performSearch] makes depends on [name], [price], [description] and on
    two fields outside the contract, [rating] and [reviews_count].  Of the
    response itself the handlers read [products], [ai_response] and
    [suggestions] only. *)
Theorem product_cards_depend_on_these_fields (p q p' q' d d' : value) (s : page) :
  same_props ["name"; "description"; "price"; "category"; "attributes"]%string p q →
  same_props ["name"; "price"; "description"; "rating"; "reviews_count"]%string p' q' →
  same_props ["products"; "ai_response"; "suggestions"]%string d d' →
  createProductCard (VObject [(js "product", p)]) =
    createProductCard (VObject [(js "product", q)]) ∧
  renderResultCard p' = renderResultCard q' ∧
  displayResults d s = displayResults d' s ∧
  performSearch_body (BodyJson d) s = performSearch_body (BodyJson d') s ∧
  suggestionsCallback_body (BodyJson d) s = suggestionsCallback_body (BodyJson d') s.
Proof.
  intros Hcard Hresult Hdata. split; [|split; [|split; [|split]]].
  - unfold createProductCard.
    destruct (wrapped_product p) as (-> & -> & -> & ->).
    destruct (wrapped_product q) as (-> & -> & -> & ->).
    cbn [c_bind].
    rewrite (Hcard "attributes"%string), (Hcard "name"%string),
      (Hcard "description"%string), (Hcard "price"%string),
      (Hcard "category"%string); [done|set_solver..].
  - unfold renderResultCard.
    rewrite (Hresult "name"%string), (Hresult "price"%string),
      (Hresult "description"%string), (Hresult "rating"%string),
      (Hresult "reviews_count"%string); [done|set_solver..].
  - unfold displayResults.
    rewrite (Hdata "ai_response"%string), (Hdata "products"%string);
      [done|set_solver..].
  - unfold performSearch_body.
    rewrite (Hdata "products"%string); [done|set_solver].
  - unfold suggestionsCallback_body.
    rewrite (Hdata "suggestions"%string); [done|set_solver].
Qed.

(** C9.  In [displaySuggestions] the name [suggestionsList] is the
    parameter, not the element the constant of line 9 denotes.  For a
    non-empty array the only change to the document is that the
    suggestions container loses [hidden]; the suggestion list element
    keeps its content.  When every item gets its tag the call completes
    normally and the markup is assigned to a property [innerHTML] of the
    array; suggestions that are strings always get their tags.  When an
    item cannot be converted to a string the call throws that exception
    before the assignment. *)
Theorem displaySuggestions_writes_on_its_argument (items : list value) (s : page) :
  items ≠ [] →
  suggestionsList = ElementRef el_suggestionsList ∧
  ∃ c s',
    displaySuggestions (VArray items) s = (c, s') ∧
    dom s' el_suggestionsList = dom s el_suggestionsList ∧
    dom s' el_suggestions =
      with_classList (token_remove "hidden") (dom s el_suggestions) ∧
    (∀ n, n ≠ el_suggestions → dom s' n = dom s n) ∧
    match c_map_list createSuggestionTag items with
    | Normal tags =>
        c = Normal () ∧
        heap_writes s' =
          heap_writes s ++ [(VArray items, "innerHTML"%string, join_empty tags)]
    | Abrupt err =>
        c = Abrupt err ∧ heap_writes s' = heap_writes s
    end ∧
    (∀ texts, items = VString <$> texts →
       c = Normal () ∧
       heap_writes s' =
         heap_writes s ++
         [(VArray items, "innerHTML"%string,
           join_empty (suggestion_tag_template <$> texts))]).
Proof.
  intros Hitems. split; [done|].
  assert (Hlength : get_prop (VArray items) "length" =
                    Normal (VNumber (num_of_nat (length items)))) by done.
  assert (Htruthy : truthy (VNumber (num_of_nat (length items))) = true).
  { cbn [truthy]. rewrite num_truthy_of_nat. by destruct items. }
  unfold displaySuggestions. rewrite Hlength. unfold call_map.
  destruct (c_map_list createSuggestionTag items) as [tags|err] eqn:Hmap;
    cbn -[createSuggestionTag truthy]; rewrite Htruthy; cbn -[createSuggestionTag];
    eexists _, _; (split; [done|]); cbn -[createSuggestionTag];
    (split; [done|]); (split; [done|]);
    (split; [intros n Hn; by rewrite fn_lookup_alter_ne|]);
    (split; [done|]); intros texts ->;
    rewrite createSuggestionTag_strings in Hmap; by simplify_eq.
Qed.

(** C10, as the code has it.  When nothing is stored under [userId],
    [getUserId] makes the identifier [user_] followed by at most nine
    characters, digits in base 36 when the random string has the form of
    [Math.random().toString(36)], and stores it.  When a non-empty string
    is stored it returns that string and leaves the storage as it is.  In
    every case a second call returns what the first returned and leaves
    the page as the first call left it. *)
Theorem getUserId_is_idempotent (s : page) (random36 random36' : jsstring) :
  (localStorage s !! js "userId" = None →
     let suffix := substr 2 9 random36 in
     getUserId random36 s =
       (Normal (js "user_" ++ suffix),
        set_localStorage (<[js "userId" := js "user_" ++ suffix]> (localStorage s)) s) ∧
     (length suffix ≤ 9)%nat ∧
     (is_random36 random36 = true → forallb is_base36 suffix = true)) ∧
  (∀ stored, localStorage s !! js "userId" = Some stored → stored ≠ [] →
     getUserId random36 s = (Normal stored, s)) ∧
  (∃ user_id s',
     getUserId random36 s = (Normal user_id, s') ∧
     getUserId random36' s' = (Normal user_id, s')).
Proof.
  split; [|split].
  - intros Hnone suffix. split; [|split].
    + unfold getUserId. cbn. by rewrite Hnone.
    + unfold suffix, substr. rewrite length_take. lia.
    + intros Hform. unfold suffix, substr.
      destruct random36 as [|c0 [|c1 digits]]; [done..|].
      assert (Hdigits : forallb is_base36 digits = true).
      { simpl in Hform. repeat case_match; try done. }
      change (drop 2 (c0 :: c1 :: digits)) with digits.
      apply forallb_forall. intros c Hc.
      rewrite forallb_forall in Hdigits. apply Hdigits.
      apply list_elem_of_In. apply list_elem_of_In in Hc.
      by apply (subseteq_take 9 digits).
  - intros stored Hstored Hne. unfold getUserId. cbn. rewrite Hstored.
    destruct stored; [done|]. done.
  - unfold getUserId at 1. cbn.
    destruct (localStorage s !! js "userId") as [[|c stored]|] eqn:Hstored; cbn.
    + eexists _, _. split; [done|]. unfold getUserId. cbn.
      rewrite lookup_insert_eq. done.
    + eexists _, _. split; [done|]. unfold getUserId. cbn.
      rewrite Hstored. done.
    + eexists _, _. split; [done|]. unfold getUserId. cbn.
      rewrite lookup_insert_eq. done.
Qed.

End Claims.

(** * Further properties of the script *)

(** ** The markup [formatAIResponse] makes *)

Lemma forallb_Forall_true {A} (f : A → bool) (l : list A) :
  forallb f l = true ↔ Forall (λ x, f x = true) l.
Proof.
  induction l as [|x l IH]; simpl; [by split|].
  rewrite andb_true_iff, Forall_cons, IH. done.
Qed.

Lemma is_text_spec (c : N) : is_text c = true → c ≠ 42 ∧ c ≠ 10.
Proof.
  unfold is_text. intros Hc. apply andb_true_iff in Hc as [H1 H2].
  apply negb_true_iff in H1, H2. apply N.eqb_neq in H1, H2. done.
Qed.

Lemma is_plain_spec (c : N) :
  is_plain c = true → c ≠ 42 ∧ is_line_terminator c = false.
Proof.
  unfold is_plain. intros Hc. apply andb_true_iff in Hc as [H1 H2].
  apply negb_true_iff in H1, H2. apply N.eqb_neq in H1. done.
Qed.

Lemma is_plain_text (c : N) : is_plain c = true → is_text c = true.
Proof.
  unfold is_plain, is_text, is_line_terminator. intros Hc.
  apply andb_true_iff in Hc as [H1 H2]. rewrite H1. simpl.
  destruct (c =? 10); [done|done].
Qed.

Lemma starts_with_app (p s : jsstring) : starts_with p (p ++ s) = true.
Proof. induction p as [|a p IH]; simpl; [done|]. by rewrite N.eqb_refl. Qed.

Lemma starts_with_other (d c : N) (p s : jsstring) :
  c ≠ d → starts_with (d :: p) (c :: s) = false.
Proof. intros Hc. simpl. by destruct (N.eqb_spec d c). Qed.

Lemma lazy_group_eq (close s : jsstring) :
  lazy_group close s =
  if starts_with close s then Some ([], drop (length close) s)
  else match s with
       | [] => None
       | c :: s' =>
           if is_line_terminator c then None
           else match lazy_group close s' with
                | Some (group, rest) => Some (c :: group, rest)
                | None => None
                end
       end.
Proof. by destruct s. Qed.

Lemma replace_delimited_cons (delim before after : jsstring) (c : N) (s' : jsstring) :
  replace_delimited delim before after 0 (c :: s') =
  if starts_with delim (c :: s') then
    match lazy_group delim (drop (length delim) (c :: s')) with
    | Some (group, _) =>
        before ++ group ++ after
        ++ replace_delimited delim before after
             (length delim + length group + length delim - 1) s'
    | None => c :: replace_delimited delim before after 0 s'
    end
  else c :: replace_delimited delim before after 0 s'.
Proof. done. Qed.

(** The group ends at the first closing delimiter. *)
Lemma lazy_group_found (d : N) (p g rest : jsstring) :
  Forall (λ c, c ≠ d ∧ is_line_terminator c = false) g →
  lazy_group (d :: p) (g ++ (d :: p) ++ rest) = Some (g, rest).
Proof.
  induction 1 as [|c g [Hc Hl] _ IH]; rewrite lazy_group_eq.
  - change ([] ++ (d :: p) ++ rest) with ((d :: p) ++ rest).
    by rewrite starts_with_app, drop_app_length.
  - cbn [app] in IH |- *. rewrite starts_with_other by done. by rewrite Hl, IH.
Qed.

(** Without the first character of the delimiter there is no match. *)
Lemma lazy_group_none (d : N) (p s : jsstring) :
  Forall (λ c, c ≠ d) s → lazy_group (d :: p) s = None.
Proof.
  induction 1 as [|c s Hc _ IH]; rewrite lazy_group_eq; [done|].
  rewrite starts_with_other by done. rewrite IH. by destruct (is_line_terminator c).
Qed.

Lemma replace_delimited_prefix (d : N) (p before after pre rest : jsstring) :
  Forall (λ c, c ≠ d) pre →
  replace_delimited (d :: p) before after 0 (pre ++ rest) =
  pre ++ replace_delimited (d :: p) before after 0 rest.
Proof.
  induction 1 as [|c pre Hc _ IH]; [done|].
  cbn [app]. rewrite replace_delimited_cons, starts_with_other by done.
  by rewrite IH.
Qed.

Lemma replace_delimited_text (d : N) (p before after s : jsstring) :
  Forall (λ c, c ≠ d) s → replace_delimited (d :: p) before after 0 s = s.
Proof.
  intros Hs. rewrite <- (app_nil_r s) at 1.
  rewrite replace_delimited_prefix by done. by rewrite app_nil_r.
Qed.

Lemma replace_delimited_skip (delim before after skipped rest : jsstring) :
  replace_delimited delim before after (length skipped) (skipped ++ rest) =
  replace_delimited delim before after 0 rest.
Proof. induction skipped as [|c k IH]; [done|]. exact IH. Qed.

(** A delimited group without line terminators and without the first
    character of the delimiter is wrapped, and the search goes on after
    the closing delimiter. *)
Lemma replace_delimited_match (d : N) (p before after g rest : jsstring) :
  Forall (λ c, c ≠ d ∧ is_line_terminator c = false) g →
  replace_delimited (d :: p) before after 0 ((d :: p) ++ g ++ (d :: p) ++ rest) =
  before ++ g ++ after ++ replace_delimited (d :: p) before after 0 rest.
Proof.
  intros Hg. cbn [app]. rewrite replace_delimited_cons.
  change (d :: p ++ g ++ d :: p ++ rest) with ((d :: p) ++ g ++ (d :: p) ++ rest).
  rewrite starts_with_app, drop_app_length, lazy_group_found by done.
  do 3 f_equal.
  replace (length (d :: p) + length g + length (d :: p) - 1)%nat
    with (length (p ++ g ++ d :: p)).
  - rewrite <- (replace_delimited_skip _ _ _ (p ++ g ++ d :: p) rest).
    by rewrite <- !app_assoc.
  - rewrite !length_app. simpl. lia.
Qed.

Lemma replace_newlines_text (s : jsstring) :
  Forall (λ c, c ≠ 10) s → replace_newlines s = s.
Proof.
  induction 1 as [|c s Hc _ IH]; [done|].
  simpl. rewrite IH. by destruct (N.eqb_spec c 10).
Qed.

Lemma text_no_asterisk (s : jsstring) :
  forallb is_text s = true → Forall (λ c, c ≠ 42) s.
Proof.
  rewrite forallb_Forall_true. intros Hs. eapply Forall_impl; [exact Hs|].
  intros c Hc. by apply is_text_spec in Hc as [? _].
Qed.

Lemma text_no_line_feed (s : jsstring) :
  forallb is_text s = true → Forall (λ c, c ≠ 10) s.
Proof.
  rewrite forallb_Forall_true. intros Hs. eapply Forall_impl; [exact Hs|].
  intros c Hc. by apply is_text_spec in Hc as [_ ?].
Qed.

Lemma plain_group (s : jsstring) :
  forallb is_plain s = true →
  Forall (λ c, c ≠ 42 ∧ is_line_terminator c = false) s.
Proof.
  rewrite forallb_Forall_true. intros Hs. eapply Forall_impl; [exact Hs|].
  intros c Hc. by apply is_plain_spec.
Qed.

Lemma plain_text (s : jsstring) :
  forallb is_plain s = true → forallb is_text s = true.
Proof.
  rewrite !forallb_Forall_true. intros Hs. eapply Forall_impl; [exact Hs|].
  intros c. apply is_plain_text.
Qed.

(** The two delimiters of lines 176-177 begin with an asterisk. *)
Lemma strong_text (before after s : jsstring) :
  Forall (λ c, c ≠ 42) s → replace_delimited (js "**") before after 0 s = s.
Proof. apply (replace_delimited_text 42 [42]). Qed.

Lemma em_text (before after s : jsstring) :
  Forall (λ c, c ≠ 42) s → replace_delimited (js "*") before after 0 s = s.
Proof. apply (replace_delimited_text 42 []). Qed.

Section Formatting.
Context `{Host}.

(** X1.  [formatAIResponse] returns a text without asterisk and line
    feed as it is: no character is escaped, angle brackets, ampersands
    and quotes are in the result as they are in the argument. *)
Theorem formatAIResponse_leaves_text_as_it_is (s : jsstring) :
  forallb is_text s = true →
  formatAIResponse (VString s) = Normal s.
Proof.
  intros Hs. unfold formatAIResponse. cbv zeta.
  rewrite strong_text by by apply text_no_asterisk.
  rewrite em_text by by apply text_no_asterisk.
  by rewrite replace_newlines_text by by apply text_no_line_feed.
Qed.

(** X2.  A run of characters between two pairs of asterisks, on one line
    and without an asterisk of its own, becomes a [strong] element; the
    text around it stays. *)
Theorem formatAIResponse_strong (pre g post : jsstring) :
  forallb is_text pre = true →
  forallb is_plain g = true →
  forallb is_text post = true →
  formatAIResponse (VString (pre ++ js "**" ++ g ++ js "**" ++ post)) =
  Normal (pre ++ js "<strong>" ++ g ++ js "</strong>" ++ post).
Proof.
  intros Hpre Hg Hpost.
  assert (Hout : forallb is_text (pre ++ js "<strong>" ++ g ++ js "</strong>" ++ post) = true).
  { rewrite !forallb_app, Hpre, Hpost, (plain_text g Hg). done. }
  unfold formatAIResponse. cbv zeta.
  assert (Hfirst :
    replace_delimited (js "**") (js "<strong>") (js "</strong>") 0
      (pre ++ js "**" ++ g ++ js "**" ++ post)
    = pre ++ js "<strong>" ++ g ++ js "</strong>" ++ post).
  { change (js "**") with (42 :: [42]).
    rewrite replace_delimited_prefix by by apply text_no_asterisk.
    rewrite replace_delimited_match by by apply plain_group.
    by rewrite (replace_delimited_text 42 [42] _ _ post) by by apply text_no_asterisk. }
  rewrite Hfirst.
  rewrite em_text by by apply text_no_asterisk.
  by rewrite replace_newlines_text by by apply text_no_line_feed.
Qed.

(** X3.  A run of characters between two single asterisks, on one line
    and without an asterisk of its own, becomes an [em] element.  The run
    may be empty: two adjacent asterisks that open no [strong] element
    become an empty [em] element. *)
Theorem formatAIResponse_em (pre g post : jsstring) :
  forallb is_text pre = true →
  forallb is_plain g = true →
  forallb is_text post = true →
  formatAIResponse (VString (pre ++ js "*" ++ g ++ js "*" ++ post)) =
  Normal (pre ++ js "<em>" ++ g ++ js "</em>" ++ post).
Proof.
  intros Hpre Hg Hpost.
  pose proof (text_no_asterisk _ Hpre) as Hpre'.
  pose proof (text_no_asterisk _ Hpost) as Hpost'.
  pose proof (plain_group _ Hg) as Hg'.
  assert (Hout : forallb is_text (pre ++ js "<em>" ++ g ++ js "</em>" ++ post) = true).
  { rewrite !forallb_app, Hpre, Hpost, (plain_text g Hg). done. }
  unfold formatAIResponse. cbv zeta.
  assert (Hfirst :
    replace_delimited (js "**") (js "<strong>") (js "</strong>") 0
      (pre ++ js "*" ++ g ++ js "*" ++ post) = pre ++ js "*" ++ g ++ js "*" ++ post).
  { change (js "**") with (42 :: [42]). change (js "*") with [42].
    rewrite replace_delimited_prefix by done. f_equal.
    assert (Hclose : replace_delimited (42 :: [42]) (js "<strong>") (js "</strong>") 0
                       ([42] ++ post) = [42] ++ post).
    { cbn [app]. rewrite replace_delimited_cons.
      rewrite (replace_delimited_text 42 [42] _ _ post) by done.
      destruct Hpost' as [|c post Hc Hpost'].
      - done.
      - cbn [starts_with]. apply N.eqb_neq in Hc. rewrite N.eqb_sym in Hc.
        by rewrite N.eqb_refl, Hc. }
    destruct Hg' as [|c g [Hc Hl] Hg'].
    - cbn [app]. rewrite replace_delimited_cons.
      change (starts_with (42 :: [42]) (42 :: 42 :: post)) with true. cbv iota.
      change (drop (length (42 :: [42])) (42 :: 42 :: post)) with post.
      rewrite lazy_group_none by done. f_equal. exact Hclose.
    - cbn [app]. rewrite replace_delimited_cons.
      assert (Hno : starts_with (42 :: [42]) (42 :: c :: g ++ 42 :: post) = false).
      { cbn [starts_with]. apply N.eqb_neq in Hc. rewrite N.eqb_sym in Hc.
        by rewrite N.eqb_refl, Hc. }
      rewrite Hno. f_equal.
      change (c :: g ++ 42 :: post) with ((c :: g) ++ [42] ++ post).
      rewrite replace_delimited_prefix.
      + by rewrite Hclose.
      + constructor; [done|]. eapply Forall_impl; [exact Hg'|]. by intros ? [? _]. }
  rewrite Hfirst. change (js "*") with [42].
  rewrite replace_delimited_prefix by done.
  rewrite replace_delimited_match by done.
  rewrite (replace_delimited_text 42 [] _ _ post) by done.
  by rewrite replace_newlines_text by by apply text_no_line_feed.
Qed.


End Formatting.

(** ** The cards of the products *)
Section Cards.
Context `{Host}.

Lemma get_prop_normal (v : value) (prop : string) :
  v ≠ VUndefined → v ≠ VNull → ∃ w, get_prop v prop = Normal w.
Proof. destruct v; intros ??; try done; by eexists. Qed.


Lemma get_prop_some (v w : value) (prop : string) :
  get_prop v prop = Normal w → v ≠ VUndefined ∧ v ≠ VNull.
Proof. by destruct v. Qed.

(** Line 300 gives a text for every price. *)
Lemma price_text_normal (price : value) :
  ∃ t, (if is_number price
        then let! fixed := call_toFixed price "product.price.toFixed" 2 in
             Normal (js "$" ++ fixed)
        else Normal (js "Price not available")) = Normal t.
Proof. destruct price; by eexists. Qed.


(** X6.  The arrow function of line 295 makes a card for a product
    exactly when the product has properties, its [name] and its
    [description] (or the texts that stand in for them) can be converted
    to a string, its [reviews_count], if truthy, can be converted too,
    and, if its [rating] is a Number, the two calls of [repeat] of line
    311 accept their counts.  A missing price or name does not stop it. *)
Theorem renderResultCard_completes_exactly_when (p : value) :
  (∃ card, renderResultCard p = Normal card) ↔
  (∃ name description rating reviews_count,
     get_prop p "name" = Normal name ∧
     get_prop p "description" = Normal description ∧
     get_prop p "rating" = Normal rating ∧
     get_prop p "reviews_count" = Normal reviews_count ∧
     converts (or_else name (VString (js "Unnamed Product"))) ∧
     converts (or_else description (VString (js "No description available"))) ∧
     rating_drawable rating ∧
     (truthy reviews_count = true → converts reviews_count)).
Proof.
  unfold renderResultCard. split.
  - intros [card Hcard].
    destruct (get_prop p "name") as [name|] eqn:Hname; [|done].
    destruct (get_prop_some _ _ _ Hname) as [Hu Hn]. cbn [c_bind] in Hcard.
    destruct (get_prop_normal p "price" Hu Hn) as [price Hprice].
    destruct (get_prop_normal p "description" Hu Hn) as [d Hd].
    destruct (get_prop_normal p "rating" Hu Hn) as [rating Hrating].
    destruct (get_prop_normal p "reviews_count" Hu Hn) as [c Hc].
    rewrite Hprice, Hd, Hrating, Hc in Hcard.
    destruct (to_string (or_else name (VString (js "Unnamed Product"))))
      as [tn|] eqn:Htn; [|done].
    cbn [c_bind] in Hcard.
    destruct (price_text_normal price) as [t Hp].
    rewrite Hp in Hcard. cbn [c_bind] in Hcard.
    destruct (to_string (or_else d (VString (js "No description available"))))
      as [td|] eqn:Htd; [|done].
    cbn [c_bind] in Hcard.
    exists name, d, rating, c.
    do 4 (split; [done|]). split; [by exists tn|]. split; [by exists td|].
    assert (Hdraw : rating_drawable rating ∧
              ∃ tr, (match rating with
                     | VNumber r =>
                         let! filled := call_repeat [9733] (num_round r) in
                         let! hollow := call_repeat [9734]
                                          (num_sub (num_of_nat 5) (num_round r)) in
                         let! fixed := call_toFixed rating "product.rating.toFixed" 1 in
                         Normal (rating_template filled hollow fixed)
                     | _ => Normal []
                     end) = Normal tr).
    { destruct rating as [| | |r| | |]; try (split; [done|by eexists]).
      unfold rating_drawable. unfold call_repeat in Hcard |- *.
      destruct (num_repeat_count (num_round r)); [|done].
      destruct (num_repeat_count (num_sub (num_of_nat 5) (num_round r))); [|done].
      split; [done|]. by eexists. }
    destruct Hdraw as [Hdraw [tr Htr]]. split; [done|].
    rewrite Htr in Hcard. cbn [c_bind] in Hcard.
    intros Htruthy. rewrite Htruthy in Hcard.
    destruct (to_string c) as [tc|] eqn:Htc; [by exists tc|done].
  - intros (name & d & rating & c & Hname & Hd & Hrating & Hc
            & [tn Htn] & [td Htd] & Hdraw & Hreviews).
    destruct (get_prop_some _ _ _ Hname) as [Hu Hn].
    destruct (get_prop_normal p "price" Hu Hn) as [price Hprice].
    rewrite Hname, Hprice, Hd, Hrating, Hc. cbn [c_bind].
    rewrite Htn. cbn [c_bind].
    destruct (price_text_normal price) as [t ->]. cbn [c_bind].
    rewrite Htd. cbn [c_bind].
    assert (Hr : ∃ tr, (match rating with
                        | VNumber r =>
                            let! filled := call_repeat [9733] (num_round r) in
                            let! hollow := call_repeat [9734]
                                             (num_sub (num_of_nat 5) (num_round r)) in
                            let! fixed := call_toFixed rating "product.rating.toFixed" 1 in
                            Normal (rating_template filled hollow fixed)
                        | _ => Normal []
                        end) = Normal tr).
    { destruct rating as [| | |r| | |]; try by eexists.
      destruct Hdraw as [[n1 Hn1] [n2 Hn2]].
      unfold call_repeat. rewrite Hn1, Hn2. by eexists. }
    destruct Hr as [tr ->]. cbn [c_bind].
    destruct (truthy c) eqn:Htruthy; [|by eexists].
    destruct (Hreviews eq_refl) as [tc ->]. by eexists.
Qed.

End Cards.

(** ** What a response makes of the page *)
Section Bodies.
Context `{Host}.

Lemma performSearch_settle_completed body s s' :
  body s = (Normal Completed, s') →
  performSearch_settle body s =
  (Normal Completed, set_dom (alter (with_classList (token_add "hidden")) el_loading) s').
Proof. intros Hb. unfold performSearch_settle. by rewrite Hb. Qed.

Lemma c_map_list_abrupt {A B} (f : A → completion B) (good : list A) (bad : A)
    (rest : list A) (done_ : list B) (err : exn) :
  c_map_list f good = Normal done_ →
  f bad = Abrupt err →
  c_map_list f (good ++ bad :: rest) = Abrupt err.
Proof.
  revert done_. induction good as [|x good IH]; intros done_ Hgood Hbad; simpl.
  - by rewrite Hbad.
  - simpl in Hgood. destruct (f x) as [y|]; [|done]. cbn [c_bind] in *.
    destruct (c_map_list f good) as [ys|] eqn:Hys; [|done].
    by rewrite (IH ys).
Qed.

Lemma array_length (items : list value) :
  get_prop (VArray items) "length" = Normal (VNumber (num_of_nat (length items))).
Proof. done. Qed.

(** The test of line 291 on an array. *)
Lemma products_test (items : list value) :
  num_lt (num_of_nat 0) (num_of_nat (length items))
  = negb (bool_decide (items = [])).
Proof. rewrite num_lt_zero_of_nat. by destruct items. Qed.

(** X7.  When the response of [performSearch] has no [products], or a
    falsy value or an empty array there, the product list holds the
    paragraph of line 323; the results are shown and the loading
    indicator is hidden. *)
Theorem performSearch_body_without_products (data products : value) (s : page) :
  get_prop data "products" = Normal products →
  truthy products = false ∨ products = VArray [] →
  performSearch_body (BodyJson data) s =
  (Normal Completed,
   results_shown (tpl "<p class=`text-gray-500`>No products found.</p>") s).
Proof.
  intros Hproducts Hnone. unfold performSearch_body.
  apply performSearch_settle_completed.
  unfold bind, lift. rewrite Hproducts.
  destruct Hnone as [Hfalsy| ->].
  - by rewrite Hfalsy.
  - cbn [truthy]. rewrite array_length. cbn [to_number]. unfold ret.
    by rewrite (products_test []).
Qed.

(** [performSearch] after its second [await], for products that all get
    their card. *)
Lemma performSearch_body_cards
    (data : value) (items : list value) (cards : list jsstring) (s : page) :
  get_prop data "products" = Normal (VArray items) →
  items ≠ [] →
  c_map_list renderResultCard items = Normal cards →
  performSearch_body (BodyJson data) s =
    (Normal Completed, results_shown (concat cards) s).
Proof.
  intros Hproducts Hitems Hcards.
  unfold performSearch_body.
  apply performSearch_settle_completed.
  unfold bind, lift. rewrite Hproducts.
  cbn [truthy]. rewrite array_length. cbn [to_number]. unfold ret.
  rewrite products_test, bool_decide_eq_false_2 by done.
  cbn [negb call_map]. by rewrite Hcards.
Qed.

(** X8.  When every product of a non-empty array gets its card, the
    product list holds the cards one after the other; the results are
    shown and the loading indicator is hidden.  The error panel is left
    as it was. *)
Theorem performSearch_body_shows_the_cards
    (data : value) (items : list value) (cards : list jsstring) (s : page) :
  get_prop data "products" = Normal (VArray items) →
  items ≠ [] →
  c_map_list renderResultCard items = Normal cards →
  performSearch_body (BodyJson data) s =
    (Normal Completed, results_shown (concat cards) s) ∧
  dom (results_shown (concat cards) s) el_error = dom s el_error.
Proof.
  intros Hproducts Hitems Hcards. split; [|done].
  by apply (performSearch_body_cards data items).
Qed.

(** X9.  One product that gets no card fails the whole list: the product
    list and the results container stay as they were, and the error
    panel shows the message of the exception. *)
Theorem performSearch_body_one_failure_shows_no_card
    (data : value) (good : list value) (bad : value) (rest : list value)
    (cards : list jsstring) (err : exn) (s : page) :
  get_prop data "products" = Normal (VArray (good ++ bad :: rest)) →
  c_map_list renderResultCard good = Normal cards →
  renderResultCard bad = Abrupt err →
  let s' := snd (performSearch_body (BodyJson data) s) in
  s' = error_shown err s ∧
  dom s' el_productResults = dom s el_productResults ∧
  dom s' el_results = dom s el_results ∧
  children (dom s' el_errorMessage) = TextContent (exn_message err) ∧
  hidden (dom s' el_error) = false.
Proof.
  intros Hproducts Hgood Hbad. cbv zeta.
  assert (Hrun : performSearch_body (BodyJson data) s = (Normal Completed, error_shown err s)).
  { unfold performSearch_body. apply performSearch_settle_abrupt.
    unfold bind, lift. rewrite Hproducts.
    cbn [truthy]. rewrite array_length. cbn [to_number]. unfold ret.
    rewrite products_test, bool_decide_eq_false_2 by by destruct good.
    cbn [negb call_map]. by rewrite (c_map_list_abrupt _ _ _ _ _ _ Hgood Hbad). }
  rewrite Hrun. cbn [snd].
  split; [done|]. split; [done|]. split; [done|].
  split; [apply error_shown_message|apply error_shown_panel].
Qed.

(** What [displayResults] does before it throws: lines 109-110. *)
Lemma displayResults_run (data : value) (s : page) :
  ∃ err,
    displayResults data s = (Abrupt err, results_unveiled s) ∧
    (∀ a, get_prop data "ai_response" = Normal a →
          truthy a = false ∨ (∃ text, a = VString text) →
          err = EngineError (WriteNullish "innerHTML")).
Proof.
  unfold displayResults, bind, lift, classList_remove, classList_add. cbn.
  destruct (get_prop data "ai_response") as [a|e] eqn:Ha.
  - destruct (formatAIResponse (or_else a (VString (js "No response available."))))
      as [formatted|e] eqn:Hf.
    + eexists. split; [done|]. done.
    + eexists. split; [done|]. intros a' [= <-] [Hfalsy|[text ->]].
      * unfold or_else in Hf. by rewrite Hfalsy in Hf.
      * unfold or_else in Hf. by destruct (truthy (VString text)).
  - eexists. split; [done|]. done.
Qed.

(** [handleSearch] after its second [await], in closed form. *)
Lemma handleSearch_body_run (data : value) (s : page) :
  ∃ err,
    handleSearch_body (BodyJson data) s =
      (Normal Completed, error_shown err (results_unveiled s)) ∧
    (∀ a, get_prop data "ai_response" = Normal a →
          truthy a = false ∨ (∃ text, a = VString text) →
          err = EngineError (WriteNullish "innerHTML")).
Proof.
  destruct (displayResults_run data s) as (err & Hrun & Herr).
  exists err. split; [|exact Herr].
  unfold handleSearch_body. apply handleSearch_settle_abrupt.
  unfold bind. by rewrite Hrun.
Qed.

(** X10.  When the body of a response to [handleSearch] has been read,
    the results container is shown, with what it held before, next to
    the error panel: lines 109-110 run before line 113 throws.  The
    product list is not written.  For a response whose [ai_response] is
    a string or is missing, the exception is the one of the assignment
    to [null]. *)
Theorem handleSearch_body_shows_stale_results (data : value) (s : page) :
  ∃ err,
    handleSearch_body (BodyJson data) s =
      (Normal Completed, error_shown err (results_unveiled s)) ∧
    hidden (dom (error_shown err (results_unveiled s)) el_results) = false ∧
    dom (error_shown err (results_unveiled s)) el_productResults
      = dom s el_productResults ∧
    (∀ a, get_prop data "ai_response" = Normal a →
          truthy a = false ∨ (∃ text, a = VString text) →
          err = EngineError (WriteNullish "innerHTML")).
Proof.
  destruct (handleSearch_body_run data s) as (err & Hrun & Herr).
  exists err. split; [exact Hrun|split; [|split]].
  - unfold error_shown, results_unveiled. cbn [dom set_dom].
    rewrite !fn_lookup_alter_ne by done. rewrite !fn_lookup_alter.
    unfold hidden. cbn [classList with_classList].
    apply bool_decide_eq_false. intros Hin.
    assert (Hno : "hidden"%string ∉ token_remove "hidden" (classList (dom s el_results))).
    { unfold token_remove. rewrite list_elem_of_filter. by intros [? _]. }
    unfold token_add in Hin. case_bool_decide; [done|].
    apply elem_of_app in Hin as [Hin|Hin]; [done|].
    by apply list_elem_of_singleton in Hin.
  - done.
  - exact Herr.
Qed.

End Bodies.

(** ** How a search starts *)
Section Searches.
Context `{Host}.

Lemma set_localStorage_same (s : page) : set_localStorage (localStorage s) s = s.
Proof. by destruct s. Qed.

(** [getUserId] in closed form. *)
Lemma getUserId_run random36 s :
  getUserId random36 s =
  (Normal (user_id_on random36 s),
   set_localStorage (<[js "userId" := user_id_on random36 s]> (localStorage s)) s).
Proof.
  unfold getUserId, user_id_on, bind, localStorage_getItem, gets.
  destruct (localStorage s !! js "userId") as [[|c stored]|] eqn:Hstored; cbn.
  - done.
  - rewrite insert_id by done. by rewrite set_localStorage_same.
  - done.
Qed.

Lemma user_id_on_not_empty random36 s : user_id_on random36 s ≠ [].
Proof.
  unfold user_id_on.
  destruct (localStorage s !! js "userId") as [[|c stored]|]; try done;
    intros Heq; apply (f_equal length) in Heq; by rewrite length_app in Heq.
Qed.

Lemma user_id_on_stored random36 s stored :
  localStorage s !! js "userId" = Some stored → stored ≠ [] →
  user_id_on random36 s = stored.
Proof. unfold user_id_on. intros -> ?. by destruct stored. Qed.

Lemma handleSearch_blank random36 s :
  trim (input_value (dom s el_searchInput)) = [] →
  handleSearch random36 s = (Normal Completed, s).
Proof. intros Hq. unfold handleSearch. cbn. by rewrite Hq. Qed.

(** [handleSearch] up to its first [await], for a box that does not trim
    to the empty string. *)
Lemma handleSearch_started random36 s :
  let query := trim (input_value (dom s el_searchInput)) in
  query ≠ [] →
  handleSearch random36 s =
  (Normal Suspended,
   request_sent FromHandleSearch (handleSearch_request query (user_id_on random36 s))
     (set_localStorage (<[js "userId" := user_id_on random36 s]> (localStorage s))
        (search_announced (set_currentQuery query s)))).
Proof.
  intros query Hq. unfold handleSearch. cbn.
  rewrite bool_decide_eq_false_2 by done. cbn.
  unfold handleSearch_settle, bind. rewrite getUserId_run. done.
Qed.

Lemma performSearch_blank query s :
  trim query = [] → performSearch query s = (Normal Completed, s).
Proof. intros Hq. unfold performSearch. cbn. by rewrite Hq. Qed.

(** [performSearch] up to its first [await]. *)
Lemma performSearch_started query s :
  trim query ≠ [] →
  performSearch query s =
  (Normal Suspended,
   request_sent FromPerformSearch (performSearch_request query) (search_announced s)).
Proof.
  intros Hq. unfold performSearch. cbn.
  by rewrite bool_decide_eq_false_2 by done.
Qed.

Lemma search_announced_shows s :
  hidden (dom (search_announced s) el_loading) = false ∧
  hidden (dom (search_announced s) el_results) = true ∧
  hidden (dom (search_announced s) el_error) = true.
Proof.
  unfold search_announced. cbn [dom set_dom].
  split; [|split].
  - rewrite !fn_lookup_alter_ne by done. rewrite fn_lookup_alter.
    apply not_hidden_after_remove.
  - rewrite fn_lookup_alter_ne by done. rewrite fn_lookup_alter.
    apply hidden_after_add.
  - rewrite fn_lookup_alter. apply hidden_after_add.
Qed.

(** X11.  [handleSearch] on a box whose text does not trim to the empty
    string: it stops at the first [await] with one request sent, which
    carries the trimmed text and the identifier of [getUserId]; the
    identifier is stored; [currentQuery] is the trimmed text; the loading
    indicator is shown, the results and the error panel are hidden.  The
    box keeps its text and a pending debounce timer is not cancelled. *)
Theorem handleSearch_starts_a_search (random36 : jsstring) (s : page) :
  let query := trim (input_value (dom s el_searchInput)) in
  let user_id := user_id_on random36 s in
  query ≠ [] →
  ∃ s',
    handleSearch random36 s = (Normal Suspended, s') ∧
    sent s' = sent s ++ [(FromHandleSearch, handleSearch_request query user_id)] ∧
    tasks s' !! next_task s
      = Some {| t_origin := FromHandleSearch; t_stage := AwaitingResponse |} ∧
    localStorage s' !! js "userId" = Some user_id ∧
    currentQuery s' = query ∧
    hidden (dom s' el_loading) = false ∧
    hidden (dom s' el_results) = true ∧
    hidden (dom s' el_error) = true ∧
    dom s' el_searchInput = dom s el_searchInput ∧
    debounce s' = debounce s.
Proof.
  intros query user_id Hq. eexists. split; [by apply handleSearch_started|].
  destruct (search_announced_shows (set_currentQuery query s)) as (Hl & Hr & He).
  repeat split; try done.
  - cbn. apply lookup_insert_eq.
  - cbn. apply lookup_insert_eq.
Qed.

(** X12.  A click on an example search puts the text without its quote
    characters into the box, which strips line breaks from it, and hands
    it to [performSearch] as it is: the request carries it untrimmed,
    with no other field.  The loading indicator is shown, the results
    and the error panel are hidden; [currentQuery] and the storage are
    not written. *)
Theorem example_click_sends_the_text_without_quotes (searchText : jsstring) (s : page) :
  let query := filter (λ c, c ≠ 39 ∧ c ≠ 34) searchText in
  trim query ≠ [] →
  let s' := step (ExampleEvent searchText) s in
  (39 ∉ query) ∧ (34 ∉ query) ∧
  input_value (dom s' el_searchInput) = strip_newlines query ∧
  sent s' = sent s ++ [(FromPerformSearch, performSearch_request query)] ∧
  req_body (performSearch_request query) = [(js "query", VString query)] ∧
  hidden (dom s' el_loading) = false ∧
  hidden (dom s' el_results) = true ∧
  hidden (dom s' el_error) = true ∧
  currentQuery s' = currentQuery s ∧
  localStorage s' = localStorage s.
Proof.
  intros query Hq s'.
  assert (Hs' : s' = request_sent FromPerformSearch (performSearch_request query)
                       (search_announced
                          (set_dom (alter (with_input_value (strip_newlines query))
                                      el_searchInput) s))).
  { unfold s', step, run. rewrite exampleClick_run. fold query.
    by rewrite performSearch_started. }
  destruct (search_announced_shows
              (set_dom (alter (with_input_value (strip_newlines query))
                          el_searchInput) s))
    as (Hl & Hr & He).
  split; [|split].
  - unfold query. rewrite list_elem_of_filter. by intros [[? _] _].
  - unfold query. rewrite list_elem_of_filter. by intros [[_ ?] _].
  - rewrite Hs'. repeat split; try done.
Qed.

(** X13.  A click on the button, or Enter in the box, with a box that
    does not trim to the empty string sends one request of
    [performSearch] with the trimmed text; the box keeps its text. *)
Theorem search_click_sends_the_trimmed_text (s : page) :
  let query := trim (input_value (dom s el_searchInput)) in
  query ≠ [] →
  let s' := step SearchClickEvent s in
  sent s' = sent s ++ [(FromPerformSearch, performSearch_request query)] ∧
  tasks s' !! next_task s
    = Some {| t_origin := FromPerformSearch; t_stage := AwaitingResponse |} ∧
  dom s' el_searchInput = dom s el_searchInput ∧
  hidden (dom s' el_loading) = false.
Proof.
  intros query Hq s'.
  assert (Hs' : s' = request_sent FromPerformSearch (performSearch_request query)
                       (search_announced s)).
  { unfold s', step, run. rewrite searchClick_run. fold query.
    rewrite performSearch_started; [done|]. unfold query. by rewrite trim_idem. }
  destruct (search_announced_shows s) as (Hl & _ & _).
  rewrite Hs'. repeat split; try done.
  cbn. apply lookup_insert_eq.
Qed.

(** X14.  A click on a suggestion assigns the suggestion to the box,
    which strips line breaks from it, and starts [handleSearch], which
    reads the box: the request carries the stripped text, trimmed.  The
    suggestions container stays as it was, and a pending debounce timer
    is not cancelled. *)
Theorem applySuggestion_searches_for_the_suggestion
    (suggestion random36 : jsstring) (s : page) :
  let text := strip_newlines suggestion in
  trim text ≠ [] →
  let s' := step (SuggestionEvent suggestion random36) s in
  input_value (dom s' el_searchInput) = text ∧
  currentQuery s' = trim text ∧
  sent s' = sent s ++
    [(FromHandleSearch,
      handleSearch_request (trim text) (user_id_on random36 s))] ∧
  dom s' el_suggestions = dom s el_suggestions ∧
  debounce s' = debounce s.
Proof.
  intros text Hq s'. unfold s', step, run. rewrite applySuggestion_run. fold text.
  set (s0 := set_dom _ s).
  assert (Hbox : input_value (dom s0 el_searchInput) = text).
  { unfold s0. cbn [dom set_dom]. by rewrite fn_lookup_alter. }
  rewrite handleSearch_started by by rewrite Hbox.
  rewrite Hbox. repeat split; done.
Qed.

End Searches.

(** ** The pages the event loop reaches *)
Section Reachable.
Context `{Host}.

Lemma reachable_ind (P : page → Prop) (storage : gmap jsstring jsstring) :
  P (loaded storage) →
  (∀ es e, P (steps es (loaded storage)) → P (step e (steps es (loaded storage)))) →
  ∀ es, P (steps es (loaded storage)).
Proof.
  intros Hloaded Hstep es. induction es as [|e es IH] using rev_ind; [done|].
  rewrite steps_snoc. by apply Hstep.
Qed.

Lemma step_unwritten (n : node) e s :
  n = el_searchButton ∨ n = el_suggestionsList → dom (step e s) n = dom s n.
Proof.
  intros [-> | ->]; destruct e; unfold step, run;
    try (destruct (tasks s !! id) as [[[] []]|]; try done);
    try (destruct (timers s !! handle); [|done]);
    after_handler.
Qed.

(** X15.  No event writes the search button or the suggestion list
    element: on every page the event loop reaches they are as
    [index.html] has them.  The suggestions the service returns are
    never put into the document. *)
Theorem button_and_suggestion_list_are_never_written
    (es : list event) (storage : gmap jsstring jsstring) :
  let s := steps es (loaded storage) in
  dom s el_searchButton = index_html el_searchButton ∧
  dom s el_suggestionsList = index_html el_suggestionsList.
Proof.
  cbv zeta. apply (reachable_ind (λ s, dom s el_searchButton = index_html el_searchButton ∧
                                       dom s el_suggestionsList = index_html el_suggestionsList)).
  - done.
  - intros es' e [Hb Hl]. rewrite !step_unwritten by auto. done.
Qed.

(** X16.  The product list is written by one event only: the arrival of
    the body of a response to [performSearch].  A search [handleSearch]
    has started never shows a product. *)
Theorem product_list_is_written_by_performSearch_only (e : event) (s : page) :
  (∀ id b, e = BodyEvent id b →
     tasks s !! id ≠ Some {| t_origin := FromPerformSearch; t_stage := AwaitingBody |}) →
  dom (step e s) el_productResults = dom s el_productResults.
Proof.
  intros He.
  destruct e as [text|random36|suggestion random36|searchText| |handle|id r|id b];
    unfold step, run;
    try (destruct (timers s !! handle); [|done]).
  1-6: after_handler.
  - destruct (tasks s !! id) as [[[] []]|]; try done; after_handler.
  - destruct (tasks s !! id) as [[[] []]|] eqn:Hid; try done.
    + destruct b as [message|data].
      * done.
      * destruct (handleSearch_body_run data (set_tasks (delete id (tasks s)) (next_task s) s))
          as (err & -> & _). done.
    + after_handler.
    + by destruct (He id b eq_refl).
Qed.

Lemma handleSearch_settle_hides_loading body s :
  fst (body s) ≠ Normal Suspended →
  hidden (dom (snd (handleSearch_settle body s)) el_loading) = true.
Proof.
  unfold handleSearch_settle. destruct (body s) as [[[]|err] s']; intros Hb; try done.
  - cbn. rewrite fn_lookup_alter. apply hidden_after_add.
  - apply (error_shown_loading err s').
Qed.

Lemma performSearch_settle_hides_loading body s :
  fst (body s) ≠ Normal Suspended →
  hidden (dom (snd (performSearch_settle body s)) el_loading) = true.
Proof.
  unfold performSearch_settle. destruct (body s) as [[[]|err] s']; intros Hb; try done.
  - cbn. rewrite fn_lookup_alter. apply hidden_after_add.
  - apply (error_shown_loading err s').
Qed.

Lemma bind_finishes {A} (m : action A) (k : A → action progress) s :
  (∀ a s', fst (k a s') ≠ Normal Suspended) → fst (bind m k s) ≠ Normal Suspended.
Proof. intros Hk. unfold bind. destruct (m s) as [[a|e] s']; [apply Hk|done]. Qed.

(** The [finally] clauses: once the body of a response has been dealt
    with, the loading indicator is hidden. *)
Lemma body_hides_loading (o : origin) b s :
  o ≠ FromSuggestions →
  let m := match o with
           | FromHandleSearch => handleSearch_body b
           | FromSuggestions => suggestionsCallback_body b
           | FromPerformSearch => performSearch_body b
           end in
  hidden (dom (snd (m s)) el_loading) = true.
Proof.
  intros Ho. destruct o; [|done|]; cbv zeta.
  - apply handleSearch_settle_hides_loading.
    destruct b; [done|]. apply bind_finishes. done.
  - unfold performSearch_body. apply performSearch_settle_hides_loading.
    destruct b; [done|]. repeat (apply bind_finishes; intros). done.
Qed.

(** A response to a search ends it with the loading indicator hidden, or
    leaves it parked under the same identifier. *)
Lemma response_hides_loading_or_parks (o : origin) id r s :
  o ≠ FromSuggestions →
  let m := match o with
           | FromHandleSearch => handleSearch_response id r
           | FromSuggestions => suggestionsCallback_response id r
           | FromPerformSearch => performSearch_response id r
           end in
  hidden (dom (snd (m s)) el_loading) = true ∨
  tasks (snd (m s)) !! id = Some {| t_origin := o; t_stage := AwaitingBody |}.
Proof.
  intros Ho. destruct o; [|done|]; cbv zeta.
  - destruct r as [message|[] statusText].
    + left. apply handleSearch_settle_hides_loading. done.
    + right. cbn. apply lookup_insert_eq.
    + left. apply handleSearch_settle_hides_loading. done.
  - destruct r as [message|[] statusText].
    + left. apply performSearch_settle_hides_loading. done.
    + right. cbn. apply lookup_insert_eq.
    + left. apply performSearch_settle_hides_loading. done.
Qed.

Lemma step_loading e s :
  tasks_fresh s → loading_means_search s → loading_means_search (step e s).
Proof.
  intros Hfresh Hinv. unfold loading_means_search in *.
  assert (Hframe :
    dom (step e s) el_loading = dom s el_loading →
    (∀ id t, tasks s !! id = Some t → t_origin t ≠ FromSuggestions →
       tasks (step e s) !! id = Some t) →
    hidden (dom (step e s) el_loading) = false → search_in_flight (step e s)).
  { intros Hdom Htasks Hshown. rewrite Hdom in Hshown.
    destruct (Hinv Hshown) as (id & t & Hid & Ht).
    exists id, t. split; [by apply Htasks|done]. }
  destruct e as [text|random36|suggestion random36|searchText| |handle|id r|id b].
  - apply Hframe.
    + unfold step, run. after_handler.
    + intros id t Hid Ht. by apply step_other_task.
  - unfold step, run.
    destruct (decide (trim (input_value (dom s el_searchInput)) = [])) as [Hq|Hq].
    + by rewrite handleSearch_blank.
    + intros _. rewrite handleSearch_started by done.
      eexists (next_task s), _. split; [apply lookup_insert_eq|done].
  - unfold step, run. rewrite applySuggestion_run.
    set (s0 := set_dom _ s).
    destruct (decide (trim (input_value (dom s0 el_searchInput)) = [])) as [Hq|Hq].
    + by rewrite handleSearch_blank.
    + intros _. rewrite handleSearch_started by done.
      eexists (next_task s), _. split; [apply lookup_insert_eq|done].
  - unfold step, run. rewrite exampleClick_run. cbv zeta.
    set (query := filter _ searchText).
    destruct (decide (trim query = [])) as [Hq|Hq].
    + by rewrite performSearch_blank.
    + intros _. rewrite performSearch_started by done.
      eexists (next_task s), _. split; [apply lookup_insert_eq|done].
  - unfold step, run. rewrite searchClick_run.
    set (query := trim _).
    destruct (decide (trim query = [])) as [Hq|Hq].
    + by rewrite performSearch_blank.
    + intros _. rewrite performSearch_started by done.
      eexists (next_task s), _. split; [apply lookup_insert_eq|done].
  - apply Hframe.
    + unfold step, run. destruct (timers s !! handle); [|done]. after_handler.
    + intros id t Hid Ht. by apply step_other_task.
  - destruct (tasks s !! id) as [[o st]|] eqn:Hid.
    2: { unfold step. by rewrite Hid. }
    destruct st.
    2: { unfold step. rewrite Hid. by destruct o. }
    destruct (decide (o = FromSuggestions)) as [->|Ho].
    + apply Hframe.
      * unfold step, run. rewrite Hid. after_handler.
      * intros id' t Hid' Ht. apply step_other_task; try done.
        intros r' [= ->]. rewrite Hid in Hid'. by injection Hid' as <-.
    + intros Hshown.
      assert (Hstep : step (ResponseEvent id r) s =
                snd (match o with
                     | FromHandleSearch => handleSearch_response id r
                     | FromSuggestions => suggestionsCallback_response id r
                     | FromPerformSearch => performSearch_response id r
                     end (set_tasks (delete id (tasks s)) (next_task s) s))).
      { unfold step, run. rewrite Hid. by destruct o. }
      destruct (response_hides_loading_or_parks o id r
                  (set_tasks (delete id (tasks s)) (next_task s) s) Ho) as [Hh|Hp].
      * rewrite Hstep in Hshown. cbv zeta in Hh. by rewrite Hh in Hshown.
      * rewrite Hstep. eexists id, _. split; [exact Hp|done].
  - destruct (tasks s !! id) as [[o st]|] eqn:Hid.
    2: { unfold step. by rewrite Hid. }
    destruct st.
    1: { unfold step. rewrite Hid. by destruct o. }
    destruct (decide (o = FromSuggestions)) as [->|Ho].
    + apply Hframe.
      * unfold step, run. rewrite Hid. after_handler.
      * intros id' t Hid' Ht. apply step_other_task; try done.
        intros b' [= ->]. rewrite Hid in Hid'. by injection Hid' as <-.
    + intros Hshown.
      assert (Hstep : step (BodyEvent id b) s =
                snd (match o with
                     | FromHandleSearch => handleSearch_body b
                     | FromSuggestions => suggestionsCallback_body b
                     | FromPerformSearch => performSearch_body b
                     end (set_tasks (delete id (tasks s)) (next_task s) s))).
      { unfold step, run. rewrite Hid. by destruct o. }
      pose proof (body_hides_loading o b
                    (set_tasks (delete id (tasks s)) (next_task s) s) Ho) as Hh.
      rewrite Hstep in Hshown. cbv zeta in Hh. by rewrite Hh in Hshown.
Qed.

(** X17.  On every page the event loop reaches, the loading indicator is
    shown only while an activation of [handleSearch] or of
    [performSearch] is parked at an [await]. *)
Theorem loading_is_shown_only_during_a_search
    (es : list event) (storage : gmap jsstring jsstring) :
  let s := steps es (loaded storage) in
  hidden (dom s el_loading) = false → search_in_flight s.
Proof.
  cbv zeta. apply (reachable_ind loading_means_search).
  - intros Hshown. done.
  - intros es' e Hinv. apply step_loading; [apply reachable_tasks_fresh|done].
Qed.

(** An event other than the two that call [handleSearch] leaves the
    storage as it is, and sends no request of [handleSearch]. *)
Lemma step_other_sent e s :
  (∀ random36, e ≠ SearchEvent random36) →
  (∀ suggestion random36, e ≠ SuggestionEvent suggestion random36) →
  localStorage (step e s) = localStorage s ∧
  (sent (step e s) = sent s ∨
   ∃ o r, o ≠ FromHandleSearch ∧ sent (step e s) = sent s ++ [(o, r)]).
Proof.
  intros Hs Hg.
  destruct e as [text|random36|suggestion random36|searchText| |handle|id r|id b];
    try (by destruct (Hs random36)); try (by destruct (Hg suggestion random36)).
  - split; [|left]; unfold step, run; after_handler.
  - split; [unfold step, run; after_handler|].
    unfold step, run. rewrite exampleClick_run. cbv zeta.
    destruct (performSearch_fetch (filter (λ c, c ≠ 39 ∧ c ≠ 34) searchText)
                (set_dom (alter (with_input_value
                                   (strip_newlines (filter (λ c, c ≠ 39 ∧ c ≠ 34) searchText)))
                            el_searchInput) s)) as [[Hsent _]|(_ & Hsent & _)].
    + by left.
    + right. eexists _, _. split; [|exact Hsent]. done.
  - split; [unfold step, run; after_handler|].
    unfold step, run. rewrite searchClick_run.
    destruct (performSearch_fetch (trim (input_value (dom s el_searchInput))) s)
      as [[Hsent _]|(_ & Hsent & _)].
    + by left.
    + right. eexists _, _. split; [|exact Hsent]. done.
  - unfold step, run. destruct (timers s !! handle); [|by split; [|left]].
    rewrite suggestionsCallback_run. split; [done|]. right.
    eexists _, _. split; [|done]. done.
  - split; [|left]; unfold step, run;
      destruct (tasks s !! id) as [[[] []]|]; try done; after_handler.
  - split; [|left]; unfold step, run;
      destruct (tasks s !! id) as [[[] []]|]; try done; after_handler.
Qed.

Lemma handleSearch_stored_id random36 s :
  stored_id_sent s → stored_id_sent (snd (handleSearch random36 s)).
Proof.
  intros Hinv.
  destruct (decide (trim (input_value (dom s el_searchInput)) = [])) as [Hq|Hq].
  - by rewrite handleSearch_blank.
  - rewrite handleSearch_started by done. intros i r Hi. cbn in Hi.
    apply lookup_app_Some in Hi as [Hi|[_ Hi]].
    + destruct (Hinv i r Hi) as (user_id & Hne & Hr & Hstored).
      exists user_id. split; [done|]. split; [done|]. cbn.
      rewrite (user_id_on_stored random36 s user_id) by done.
      apply lookup_insert_eq.
    + apply list_lookup_singleton_Some in Hi as [_ [= <-]].
      exists (user_id_on random36 s). split; [apply user_id_on_not_empty|].
      split; [done|]. cbn. apply lookup_insert_eq.
Qed.

Lemma step_stored_id e s : stored_id_sent s → stored_id_sent (step e s).
Proof.
  intros Hinv.
  assert (Hother :
    (∀ random36, e ≠ SearchEvent random36) →
    (∀ suggestion random36, e ≠ SuggestionEvent suggestion random36) →
    stored_id_sent (step e s)).
  { intros Hs Hg. destruct (step_other_sent e s Hs Hg) as [Hstorage Hsent].
    intros i r Hi. rewrite Hstorage.
    destruct Hsent as [Hsent|(o & r' & Ho & Hsent)]; rewrite Hsent in Hi.
    - by apply (Hinv i r).
    - apply lookup_app_Some in Hi as [Hi|[_ Hi]]; [by apply (Hinv i r)|].
      apply list_lookup_singleton_Some in Hi as [_ [= -> _]]. done. }
  destruct e; try (by apply Hother).
  - by apply handleSearch_stored_id.
  - unfold step, run. rewrite applySuggestion_run. by apply handleSearch_stored_id.
Qed.

(** X18.  Every request of [handleSearch] the page has sent carries the
    user identifier the storage holds, and that identifier is not
    empty: all searches of a run, and of later runs on the same storage,
    go out under one identifier. *)
Theorem handleSearch_requests_carry_the_stored_user_id
    (es : list event) (storage : gmap jsstring jsstring) (i : nat) (r : request) :
  let s := steps es (loaded storage) in
  sent s !! i = Some (FromHandleSearch, r) →
  ∃ user_id, user_id ≠ [] ∧
    user_id_of r = Some (VString user_id) ∧
    localStorage s !! js "userId" = Some user_id.
Proof.
  cbv zeta. revert i r. apply (reachable_ind stored_id_sent).
  - intros i r Hi. done.
  - intros es' e Hinv. by apply step_stored_id.
Qed.

(** An event sends nothing and leaves the parked activations with their
    origins, or it sends one request and parks its activation under the
    next identifier. *)
Lemma step_requests e s :
  (sent (step e s) = sent s ∧ next_task (step e s) = next_task s ∧
   ∀ id t, tasks (step e s) !! id = Some t →
     ∃ t0, tasks s !! id = Some t0 ∧ t_origin t0 = t_origin t)
  ∨ (∃ o r, sent (step e s) = sent s ++ [(o, r)] ∧ pending (step e s) = parked o s).
Proof.
  assert (Hsame : ∀ s', sent s' = sent s → pending s' = pending s →
            sent s' = sent s ∧ next_task s' = next_task s ∧
            ∀ id t, tasks s' !! id = Some t →
              ∃ t0, tasks s !! id = Some t0 ∧ t_origin t0 = t_origin t).
  { intros s' Hsent Hp. injection Hp as Ht Hn.
    split; [done|]. split; [done|]. intros id t Hid. rewrite Ht in Hid. by exists t. }
  destruct e as [text|random36|suggestion random36|searchText| |handle|id r|id b].
  - left. apply Hsame; unfold step, run; after_handler.
  - unfold step, run.
    destruct (decide (trim (input_value (dom s el_searchInput)) = [])) as [Hq|Hq].
    + left. rewrite handleSearch_blank by done. by apply Hsame.
    + right. rewrite handleSearch_started by done. by eexists _, _.
  - unfold step, run. rewrite applySuggestion_run.
    set (s0 := set_dom _ s).
    destruct (decide (trim (input_value (dom s0 el_searchInput)) = [])) as [Hq|Hq].
    + left. rewrite handleSearch_blank by done. by apply Hsame.
    + right. rewrite handleSearch_started by done. by eexists _, _.
  - unfold step, run. rewrite exampleClick_run. cbv zeta.
    set (query := filter _ searchText).
    destruct (decide (trim query = [])) as [Hq|Hq].
    + left. rewrite performSearch_blank by done. by apply Hsame.
    + right. rewrite performSearch_started by done. by eexists _, _.
  - unfold step, run. rewrite searchClick_run.
    set (query := trim _).
    destruct (decide (trim query = [])) as [Hq|Hq].
    + left. rewrite performSearch_blank by done. by apply Hsame.
    + right. rewrite performSearch_started by done. by eexists _, _.
  - unfold step, run. destruct (timers s !! handle); [|by left; apply Hsame].
    right. rewrite suggestionsCallback_run. by eexists _, _.
  - destruct (tasks s !! id) as [[o st]|] eqn:Hid.
    2: { left. apply Hsame; unfold step; by rewrite Hid. }
    destruct st.
    2: { left. apply Hsame; unfold step; rewrite Hid; by destruct o. }
    left.
    set (s0 := set_tasks (delete id (tasks s)) (next_task s) s).
    assert (Hstep : step (ResponseEvent id r) s =
              snd (match o with
                   | FromHandleSearch => handleSearch_response id r
                   | FromSuggestions => suggestionsCallback_response id r
                   | FromPerformSearch => performSearch_response id r
                   end s0)).
    { unfold step, run. rewrite Hid. by destruct o. }
    rewrite Hstep. split; [by destruct o; after_handler|].
    destruct (response_pending o id r s0) as [Hp|Hp];
      cbv zeta in Hp; injection Hp as Ht Hn.
    + split; [done|]. intros id' t Hid'. rewrite Ht in Hid'.
      apply lookup_delete_Some in Hid' as [_ Hid']. by exists t.
    + split; [done|]. intros id' t Hid'. rewrite Ht in Hid'.
      apply lookup_insert_Some in Hid' as [[<- <-]|[_ Hid']].
      * by eexists.
      * apply lookup_delete_Some in Hid' as [_ Hid']. by exists t.
  - destruct (tasks s !! id) as [[o st]|] eqn:Hid.
    2: { left. apply Hsame; unfold step; by rewrite Hid. }
    destruct st.
    1: { left. apply Hsame; unfold step; rewrite Hid; by destruct o. }
    left.
    set (s0 := set_tasks (delete id (tasks s)) (next_task s) s).
    assert (Hstep : step (BodyEvent id b) s =
              snd (match o with
                   | FromHandleSearch => handleSearch_body b
                   | FromSuggestions => suggestionsCallback_body b
                   | FromPerformSearch => performSearch_body b
                   end s0)).
    { unfold step, run. rewrite Hid. by destruct o. }
    rewrite Hstep.
    assert (Hsent : sent (snd (match o with
                               | FromHandleSearch => handleSearch_body b
                               | FromSuggestions => suggestionsCallback_body b
                               | FromPerformSearch => performSearch_body b
                               end s0)) = sent s).
    { by destruct o; after_handler. }
    split; [done|].
    pose proof (body_pending o b s0) as Hp. cbv zeta in Hp. injection Hp as Ht Hn.
    split; [done|]. intros id' t Hid'. rewrite Ht in Hid'.
    apply lookup_delete_Some in Hid' as [_ Hid']. by exists t.
Qed.

Lemma step_requests_match e s : requests_match_tasks s → requests_match_tasks (step e s).
Proof.
  intros [Hnext Htasks].
  destruct (step_requests e s) as [(Hsent & Hn & Ht)|(o & r & Hsent & Hp)].
  - split; [by rewrite Hn, Hsent|].
    intros id t Hid. destruct (Ht id t Hid) as (t0 & Hid0 & <-).
    rewrite Hsent. by apply Htasks.
  - injection Hp as Ht Hn. split.
    + rewrite Hn, Hsent, length_app. simpl. lia.
    + intros id t Hid. rewrite Ht in Hid. rewrite Hsent.
      apply lookup_insert_Some in Hid as [[<- <-]|[_ Hid]].
      * exists r. rewrite Hnext. by rewrite list_lookup_middle.
      * destruct (Htasks id t Hid) as [r' Hr']. exists r'.
        by apply lookup_app_l_Some.
Qed.

(** X19.  On every page the event loop reaches the activations are
    numbered as the requests are: the next identifier is the number of
    requests sent, and an activation parked at an [await] has the origin
    of the request that bears its number.  Every activation awaits the
    answer to the one request it has sent itself. *)
Theorem parked_activations_await_their_own_request
    (es : list event) (storage : gmap jsstring jsstring) :
  let s := steps es (loaded storage) in
  next_task s = length (sent s) ∧
  ∀ id t, tasks s !! id = Some t → ∃ r, sent s !! id = Some (t_origin t, r).
Proof.
  cbv zeta. apply (reachable_ind requests_match_tasks).
  - split; [done|]. intros id t Hid. done.
  - intros es' e Hinv. by apply step_requests_match.
Qed.

End Reachable.

(** ** Suggestions *)
Section Suggestions.
Context `{Host}.

Lemma quiet_steps_debounce (es : list event) (s : page) :
  forallb quiet es = true → debounce (steps es s) = debounce s.
Proof.
  revert s. induction es as [|e es IH]; intros s Hq; [done|].
  simpl in Hq. apply andb_true_iff in Hq as [He Hes].
  change (steps (e :: es) s) with (steps es (step e s)).
  rewrite IH by done. apply step_debounce; intros ? ->; done.
Qed.

(** The input listener on a text of two characters or more, when at most
    the timer [searchTimeout] remembers is pending. *)
Lemma input_sets_timer (text : jsstring) (s : page) :
  one_timer s → (2 ≤ length (trim text))%nat →
  debounce (step (InputEvent text) s) =
  ({[next_timer s := trim text]}, Some (next_timer s), Pos.succ (next_timer s)).
Proof.
  intros Hone Hlen. unfold step, run. rewrite handleSearchInput_run. cbv zeta.
  set (s0 := set_dom _ s).
  assert (Htext : input_value (dom s0 el_searchInput) = text).
  { unfold s0. cbn [dom set_dom]. by rewrite fn_lookup_alter. }
  rewrite Htext.
  destruct (Nat.ltb_spec (length (trim text)) 2) as [Hlt|_]; [lia|].
  unfold debounce. cbn [snd timers searchTimeout next_timer set_searchTimeout set_timers].
  assert (Hcleared : timers (timer_cleared s0) = ∅) by by apply one_timer_cleared.
  rewrite Hcleared. by rewrite insert_empty.
Qed.

(** X20.  A debounce timer the input listener has set stays pending
    through every event that is neither an edit of the box nor the
    firing of a timer: starting a search, by the button, by Enter, by a
    suggestion or by an example, does not cancel it.  When it fires, the
    suggestion request goes out for the text the box held when the timer
    was set. *)
Theorem search_does_not_cancel_the_suggestion_timer
    (es : list event) (storage : gmap jsstring jsstring)
    (text : jsstring) (later : list event) :
  let s := steps es (loaded storage) in
  (2 ≤ length (trim text))%nat →
  forallb quiet later = true →
  let s1 := steps later (step (InputEvent text) s) in
  timers s1 = {[next_timer s := trim text]} ∧
  sent (step (TimerEvent (next_timer s)) s1) =
    sent s1 ++ [(FromSuggestions, suggestions_request (trim text))].
Proof.
  intros s Hlen Hquiet s1.
  pose proof (quiet_steps_debounce later (step (InputEvent text) s) Hquiet) as Hd.
  rewrite input_sets_timer in Hd by (done || apply reachable_one_timer).
  fold s1 in Hd.
  assert (Htimers : timers s1 = {[next_timer s := trim text]})
    by exact (f_equal (λ d, d.1.1) Hd).
  split; [done|].
  unfold step, run. rewrite Htimers, lookup_singleton_eq.
  by rewrite suggestionsCallback_run.
Qed.

(** X21.  An edit that leaves fewer than two characters after trimming
    hides the suggestions and leaves no timer pending; it sends nothing
    and touches no activation in flight. *)
Theorem short_input_hides_the_suggestions
    (es : list event) (storage : gmap jsstring jsstring) (text : jsstring) :
  let s := steps es (loaded storage) in
  (length (trim text) < 2)%nat →
  let s' := step (InputEvent text) s in
  timers s' = ∅ ∧
  hidden (dom s' el_suggestions) = true ∧
  sent s' = sent s ∧
  tasks s' = tasks s.
Proof.
  intros s Hlen s'. unfold s', step, run. rewrite handleSearchInput_run. cbv zeta.
  set (s0 := set_dom _ s).
  assert (Htext : input_value (dom s0 el_searchInput) = text).
  { unfold s0. cbn [dom set_dom]. by rewrite fn_lookup_alter. }
  rewrite Htext.
  destruct (Nat.ltb_spec (length (trim text)) 2) as [_|Hge]; [|lia].
  cbn [snd].
  assert (Hcleared : timers (timer_cleared s0) = ∅).
  { apply one_timer_cleared. apply (reachable_one_timer es storage). }
  split; [exact Hcleared|]. split; [|split].
  - cbn [dom set_dom]. rewrite fn_lookup_alter. apply hidden_after_add.
  - unfold timer_cleared. by destruct (searchTimeout s0).
  - unfold timer_cleared. by destruct (searchTimeout s0).
Qed.

(** X22.  A suggestion request that fails, by rejection, by a status
    that is not ok or by a body that cannot be read, leaves no trace on
    the page: the activation is over and nothing else has changed. *)
Theorem failed_suggestions_are_silent (s : page) (id : nat) (st : stage) (e : event) :
  tasks s !! id = Some {| t_origin := FromSuggestions; t_stage := st |} →
  match st with
  | AwaitingResponse => ∃ r, e = ResponseEvent id r ∧ fetch_failed r = true
  | AwaitingBody => ∃ message, e = BodyEvent id (BodyError message)
  end →
  step e s = resumed id s.
Proof.
  intros Hid He. destruct st.
  - destruct He as (r & -> & Hr). unfold step. rewrite Hid.
    by destruct r as [message|[] statusText].
  - destruct He as (message & ->). unfold step. by rewrite Hid.
Qed.

(** X23.  A response of the suggestion path without [suggestions], or
    with a falsy value or an empty array there, hides the suggestions
    container and changes nothing else. *)
Theorem suggestions_body_without_suggestions (data list : value) (s : page) :
  get_prop data "suggestions" = Normal list →
  truthy list = false ∨ list = VArray [] →
  suggestionsCallback_body (BodyJson data) s =
  (Normal Completed,
   set_dom (alter (with_classList (token_add "hidden")) el_suggestions) s).
Proof.
  intros Hlist Hnone.
  assert (Hshown : or_else list (VArray []) = VArray []).
  { unfold or_else. destruct Hnone as [-> | ->]; done. }
  unfold suggestionsCallback_body, suggestions_settle, try_catch, bind, lift.
  rewrite Hlist, Hshown. unfold displaySuggestions, bind, lift.
  rewrite array_length. cbn [truthy length]. rewrite num_truthy_of_nat. done.
Qed.

Lemma string_length (t : jsstring) :
  get_prop (VString t) "length" = Normal (VNumber (num_of_nat (length t))).
Proof. done. Qed.

(** X24.  When [suggestions] is a non-empty string instead of an array,
    the suggestions container is shown and the call of [map] throws; the
    exception ends in the [catch] of line 100.  The container is shown
    with the content it had. *)
Theorem suggestions_of_the_wrong_type_show_the_container
    (data : value) (text : jsstring) (s : page) :
  get_prop data "suggestions" = Normal (VString text) →
  text ≠ [] →
  suggestionsCallback_body (BodyJson data) s =
  (Normal Completed,
   set_dom (alter (with_classList (token_remove "hidden")) el_suggestions) s).
Proof.
  intros Hlist Htext.
  assert (Hshown : or_else (VString text) (VArray []) = VString text).
  { unfold or_else. cbn [truthy]. by rewrite bool_decide_eq_false_2. }
  unfold suggestionsCallback_body, suggestions_settle, try_catch, bind, lift.
  rewrite Hlist, Hshown. unfold displaySuggestions, bind, lift.
  rewrite string_length. cbn [truthy]. rewrite num_truthy_of_nat.
  by destruct text.
Qed.

(** X25.  A response with an ok status changes nothing on the page when
    it arrives: the activation waits for the body under the same
    identifier, whatever the status text, and the loading indicator
    stays as it is. *)
Theorem ok_response_waits_for_the_body
    (s : page) (id : nat) (o : origin) (statusText : jsstring) :
  tasks s !! id = Some {| t_origin := o; t_stage := AwaitingResponse |} →
  step (ResponseEvent id (Responded true statusText)) s =
  set_tasks (<[id := {| t_origin := o; t_stage := AwaitingBody |}]> (tasks s))
    (next_task s) s.
Proof.
  intros Hid. unfold step. rewrite Hid.
  assert (Hinsert : <[id := {| t_origin := o; t_stage := AwaitingBody |}]>
                      (delete id (tasks s))
                    = <[id := {| t_origin := o; t_stage := AwaitingBody |}]> (tasks s))
    by apply insert_delete_eq.
  destruct o; cbn; by rewrite Hinsert.
Qed.

End Suggestions.

(** ** Late responses *)
Section LateResponses.
Context `{Host}.

Lemma step_body_performSearch (s : page) (id : nat) (b : body_result) :
  tasks s !! id = Some {| t_origin := FromPerformSearch; t_stage := AwaitingBody |} →
  step (BodyEvent id b) s = snd (performSearch_body b (resumed id s)).
Proof. intros Hid. unfold step, run. by rewrite Hid. Qed.

(** X26.  [performSearch] does not ask which search a response belongs
    to.  Of two searches whose bodies are awaited, the one whose body
    arrives last fills the product list, whichever was started first;
    and when the earlier body could not be read, its error stays on
    display beside the results. *)
Theorem later_body_fills_the_product_list
    (s : page) (id1 id2 : nat) (b1 : body_result)
    (d2 : value) (items : list value) (cards : list jsstring) :
  id1 ≠ id2 →
  tasks s !! id1 = Some {| t_origin := FromPerformSearch; t_stage := AwaitingBody |} →
  tasks s !! id2 = Some {| t_origin := FromPerformSearch; t_stage := AwaitingBody |} →
  get_prop d2 "products" = Normal (VArray items) →
  items ≠ [] →
  c_map_list renderResultCard items = Normal cards →
  let s' := step (BodyEvent id2 (BodyJson d2)) (step (BodyEvent id1 b1) s) in
  children (dom s' el_productResults) = InnerHTML (concat cards) ∧
  hidden (dom s' el_results) = false ∧
  (∀ message, b1 = BodyError message →
     hidden (dom s' el_error) = false ∧
     children (dom s' el_errorMessage) = TextContent message).
Proof.
  intros Hne Hid1 Hid2 Hproducts Hitems Hcards.
  set (s1 := step (BodyEvent id1 b1) s). intros s'.
  assert (Hs1 : s1 = snd (performSearch_body b1 (resumed id1 s)))
    by by apply step_body_performSearch.
  assert (Htask : tasks s1 !! id2
            = Some {| t_origin := FromPerformSearch; t_stage := AwaitingBody |}).
  { pose proof (body_pending FromPerformSearch b1 (resumed id1 s)) as Hp.
    change (pending (snd (performSearch_body b1 (resumed id1 s)))
            = pending (resumed id1 s)) in Hp.
    rewrite <- Hs1 in Hp.
    apply (f_equal fst) in Hp. cbn [fst pending] in Hp. rewrite Hp.
    cbn. by rewrite lookup_delete_ne. }
  assert (Hs' : s' = results_shown (concat cards) (resumed id2 s1)).
  { unfold s'. rewrite (step_body_performSearch s1 id2 _ Htask).
    by rewrite (performSearch_body_cards d2 items cards). }
  rewrite Hs'. split; [|split].
  - unfold results_shown. cbn [dom set_dom].
    rewrite !fn_lookup_alter_ne by done. by rewrite fn_lookup_alter.
  - unfold results_shown. cbn [dom set_dom].
    rewrite fn_lookup_alter_ne by done. rewrite fn_lookup_alter.
    apply not_hidden_after_remove.
  - intros message ->.
    assert (Herr : s1 = error_shown (ErrorObject message) (resumed id1 s))
      by (by rewrite Hs1).
    rewrite Herr. split.
    + apply (error_shown_panel (ErrorObject message) (resumed id1 s)).
    + apply (error_shown_message (ErrorObject message) (resumed id1 s)).
Qed.

End LateResponses.

(** ** The colour scheme *)

Lemma token_add_elem (t u : string) (l : list string) :
  u ∈ token_add t l ↔ u = t ∨ u ∈ l.
Proof.
  unfold token_add. case_bool_decide as Ht.
  - split; [by right|]. by intros [->|?].
  - rewrite elem_of_app, list_elem_of_singleton. tauto.
Qed.

Lemma token_remove_elem (t u : string) (l : list string) :
  u ∈ token_remove t l ↔ u ≠ t ∧ u ∈ l.
Proof. unfold token_remove. by rewrite list_elem_of_filter. Qed.

Lemma token_add_idem (t : string) (l : list string) :
  token_add t (token_add t l) = token_add t l.
Proof.
  unfold token_add at 1. rewrite bool_decide_eq_true_2; [done|].
  apply token_add_elem. by left.
Qed.

Lemma token_remove_idem (t : string) (l : list string) :
  token_remove t (token_remove t l) = token_remove t l.
Proof.
  unfold token_remove. induction l as [|u l IH]; [done|].
  rewrite (filter_cons _ u l). destruct (decide (u ≠ t)) as [Hu|Hu]; [|done].
  rewrite filter_cons, decide_True by done. by rewrite IH.
Qed.

Lemma updateTheme_dark (matches : bool) (root : element) :
  "dark"%string ∈ classList (updateTheme matches root) ↔ matches = true.
Proof.
  destruct matches; cbn.
  - rewrite token_add_elem. split; [done|]. by left.
  - rewrite token_remove_elem. split; [by intros [? _]|done].
Qed.

(** X27.  After [updateTheme] the root element carries the class [dark]
    exactly when the media query matches; its other classes and its
    content are as before, and a second call with the same answer
    changes nothing. *)
Theorem updateTheme_follows_the_media_query (matches : bool) (root : element) :
  ("dark"%string ∈ classList (updateTheme matches root) ↔ matches = true) ∧
  (∀ t, t ≠ "dark"%string →
     t ∈ classList (updateTheme matches root) ↔ t ∈ classList root) ∧
  children (updateTheme matches root) = children root ∧
  updateTheme matches (updateTheme matches root) = updateTheme matches root.
Proof.
  split; [apply updateTheme_dark|].
  destruct matches; cbn [updateTheme]; (split; [|split]).
  - intros t Ht. cbn. rewrite token_add_elem. split; [by intros [?|?]|by right].
  - done.
  - unfold with_classList. cbn [classList children input_value].
    by rewrite token_add_idem.
  - intros t Ht. cbn. rewrite token_remove_elem. split; [by intros [_ ?]|done].
  - done.
  - unfold with_classList. cbn [classList children input_value].
    by rewrite token_remove_idem.
Qed.

(** X28.  After the call of line 228 and any number of changes of the
    media query, the root element carries [dark] exactly when the last
    answer of the query was that it matches. *)
Theorem theme_is_that_of_the_last_answer
    (initial : bool) (changes : list bool) (root : element) :
  "dark"%string ∈ classList (theme_after initial changes root) ↔
  last (initial :: changes) = Some true.
Proof.
  induction changes as [|m changes _] using rev_ind.
  - cbn [theme_after foldl last].
    rewrite updateTheme_dark. split; [by intros ->|by intros [= ->]].
  - unfold theme_after. rewrite foldl_app. cbn [foldl].
    rewrite updateTheme_dark, app_comm_cons, last_snoc.
    split; [by intros ->|by intros [= ->]].
Qed.

(** * The claims on the sample runs *)

#[local] Existing Instance V8.host.

(** C1 on a successful response: the body of the sample response arrives
    and the error panel is shown. *)
Lemma successful_response_shows_error_panel :
  tasks Sample.answered !! 0%nat
    = Some {| t_origin := FromHandleSearch; t_stage := AwaitingBody |} ∧
  let s' := step (BodyEvent 0 (BodyJson Sample.response)) Sample.answered in
  ∃ err,
    hidden (dom s' el_error) = false ∧
    children (dom s' el_errorMessage) = TextContent (exn_message err) ∧
    hidden (dom s' el_loading) = true ∧
    tasks s' !! 0%nat = None.
Proof.
  split; [reflexivity|].
  apply (displayResults_throws_and_error_panel_shown
           Sample.answered 0 (BodyJson Sample.response)).
  reflexivity.
Defined.

(** C2 while a search is in flight: the user edits the box, and the
    activation of [handleSearch] stays parked. *)
Lemma edit_during_search_keeps_activation :
  suggestion_event Sample.searching (InputEvent (js "laptops")) ∧
  tasks (step (InputEvent (js "laptops")) Sample.searching) !! 0%nat
    = Some {| t_origin := FromHandleSearch; t_stage := AwaitingResponse |}.
Proof.
  split; [done|].
  apply (suggestions_never_cancel_main_search
           [InputEvent (js "laptop"); SearchEvent Sample.random36] ∅
           (InputEvent (js "laptops")) I).
  - reflexivity.
  - done.
Defined.

(** C3 as stated fails: after the timer has fired, a new input event leaves
    the suggestion request in flight and sets a new timer, so two
    suggestion computations are active. *)
Lemma input_leaves_suggestion_fetch_in_flight :
  let s := steps Sample.typing (loaded ∅) in
  active_suggestion_computations s = 2%nat ∧
  tasks s !! 0%nat = Some {| t_origin := FromSuggestions; t_stage := AwaitingResponse |} ∧
  timers s !! 2%positive = Some (js "abc").
Proof. lazy zeta. repeat split; reflexivity. Qed.

(** C3 on the same run: the third event finds the timer of the first
    one fired and gone, and one timer is pending after it. *)
Lemma one_timer_pending_while_typing :
  let s := steps Sample.typing (loaded ∅) in
  (size (timers s) ≤ 1)%nat ∧
  timers s !! 1%positive = None.
Proof.
  intros s.
  destruct (input_cancels_pending_timer_only
              [InputEvent (js "ab"); TimerEvent 1] ∅ (js "abc"))
    as (_ & _ & Honly & _).
  split.
  - by destruct (input_cancels_pending_timer_only Sample.typing ∅ []) as [? _].
  - destruct (timers s !! 1%positive) eqn:E; [|done].
    destruct (Honly 1%positive (mk_is_Some _ _ E)) as [Hnew _].
    by lazy in Hnew.
Defined.

(** C4 on a box that holds three spaces. *)
Lemma spaces_send_no_request :
  trim (js "   ") = [] ∧
  performSearch (js "   ") (loaded (H:=V8.host) ∅) = (Normal Completed, loaded ∅).
Proof.
  split; [reflexivity|].
  apply (blank_query_sends_no_request (loaded ∅) (js "   ") []).
  reflexivity.
Defined.

(** C5 as stated fails: the request of [performSearch] for an example
    search has the one field [query]. *)
Lemma performSearch_sends_no_context :
  let s := steps (H:=V8.host)
             [ExampleEvent (quoted (js "gaming laptop under $2000"))] (loaded ∅) in
  let r := performSearch_request (js "gaming laptop under $2000") in
  sent s = [(FromPerformSearch, r)] ∧
  body_fields r = [js "query"] ∧
  assoc (js "context") (req_body r) = None.
Proof. lazy zeta. repeat split; reflexivity. Qed.

(** C5 on the request of [handleSearch]. *)
Lemma handleSearch_sends_empty_context :
  sent Sample.searching !! 0%nat
    = Some (FromHandleSearch, handleSearch_request (js "laptop") (js "user_4fzyo82mv")) ∧
  assoc (js "context")
    (req_body (handleSearch_request (H:=V8.host) (js "laptop") (js "user_4fzyo82mv")))
    = Some (VObject []).
Proof.
  split; [reflexivity|].
  apply (context_sent_by_handleSearch_only
           [InputEvent (js "laptop"); SearchEvent Sample.random36] ∅ 0
           FromHandleSearch).
  reflexivity.
Defined.

(** C6 on the request of the suggestion path. *)
Lemma suggestion_request_within_contract :
  let es := [InputEvent (H:=V8.host) (js "laptop"); TimerEvent 1] in
  let r := suggestions_request (js "laptop") in
  sent (steps es (loaded ∅)) !! 0%nat = Some (FromSuggestions, r) ∧
  body_fields r = [js "query"; js "generate_suggestions"] ∧
  body_fields r ⊆ inbound_contract.
Proof.
  intros es r.
  assert (Hsent : sent (steps es (loaded ∅)) !! 0%nat = Some (FromSuggestions, r))
    by reflexivity.
  split; [done|].
  destruct (request_bodies_within_contract es ∅ 0 FromSuggestions r Hsent)
    as (_ & Hfields & _ & Hsub & _).
  done.
Defined.

(** C7 as stated fails: whatever the status of the failed response, the
    text shown is the literal of line 54. *)
Lemma failed_search_text_ignores_the_response :
  let failed statusText :=
    step (ResponseEvent 0 (Responded false statusText)) Sample.searching in
  children (dom (failed (js "Internal Server Error")) el_errorMessage)
    = TextContent (js "Search request failed") ∧
  children (dom (failed (js "Bad Request")) el_errorMessage)
    = TextContent (js "Search request failed") ∧
  hidden (dom (failed (js "Bad Request")) el_error) = false.
Proof. lazy zeta. repeat split; reflexivity. Qed.

(** C7 on the sample search. *)
Lemma failed_sample_search_shows_literal :
  tasks Sample.searching !! 0%nat
    = Some {| t_origin := FromHandleSearch; t_stage := AwaitingResponse |} ∧
  FromHandleSearch ≠ FromSuggestions ∧
  fetch_failed (Responded false (js "Bad Gateway")) = true ∧
  children (dom (step (ResponseEvent 0 (Responded false (js "Bad Gateway")))
                   Sample.searching) el_errorMessage)
    = TextContent (js "Search request failed").
Proof.
  split; [reflexivity|]. split; [done|]. split; [done|].
  apply (failed_search_shows_text_made_by_the_page
           Sample.searching 0 FromHandleSearch (Responded false (js "Bad Gateway"))).
  - reflexivity.
  - done.
  - done.
Defined.

Lemma same_contract_fields :
  same_props product_contract Sample.rated_product Sample.product.
Proof.
  intros prop Hin. unfold product_contract in Hin.
  repeat (apply elem_of_cons in Hin as [->|Hin]; [reflexivity|]).
  by apply elem_of_nil in Hin.
Qed.

(** C8 as stated fails: two products with the same fields of the contract
    get different cards from [performSearch], which shows the rating and
    the number of reviews. *)
Lemma result_card_shows_fields_outside_contract :
  same_props product_contract Sample.rated_product Sample.product ∧
  renderResultCard Sample.rated_product ≠ renderResultCard Sample.product.
Proof.
  split; [apply same_contract_fields|].
  intros Heq. apply (f_equal Sample.length_of) in Heq.
  lazy in Heq. discriminate Heq.
Qed.

(** Two values have the same properties of the given names when each of
    the names reads the same. *)
Ltac same_props_by_computation :=
  let prop := fresh "prop" in
  let Hin := fresh "Hin" in
  intros prop Hin;
  repeat (apply elem_of_cons in Hin as [->|Hin]; [reflexivity|]);
  by apply elem_of_nil in Hin.

(** C8 on two products that differ in a field neither card reads, on one
    that differs in fields only [performSearch] reads, and on a response
    with a field more. *)
Lemma cards_of_sample_products :
  same_props ["name"; "description"; "price"; "category"; "attributes"]%string
    Sample.rated_product Sample.renamed_product ∧
  same_props ["name"; "price"; "description"; "rating"; "reviews_count"]%string
    Sample.product Sample.renamed_product ∧
  same_props ["products"; "ai_response"; "suggestions"]%string
    Sample.response Sample.timed_response ∧
  createProductCard (VObject [(js "product", Sample.rated_product)]) =
    createProductCard (VObject [(js "product", Sample.renamed_product)]) ∧
  renderResultCard Sample.product = renderResultCard Sample.renamed_product.
Proof.
  assert (H1 : same_props ["name"; "description"; "price"; "category"; "attributes"]%string
                 Sample.rated_product Sample.renamed_product)
    by same_props_by_computation.
  assert (H2 : same_props ["name"; "price"; "description"; "rating"; "reviews_count"]%string
                 Sample.product Sample.renamed_product)
    by same_props_by_computation.
  assert (H3 : same_props ["products"; "ai_response"; "suggestions"]%string
                 Sample.response Sample.timed_response)
    by same_props_by_computation.
  split; [done|]. split; [done|]. split; [done|].
  destruct (product_cards_depend_on_these_fields _ _ _ _ _ _ (loaded ∅) H1 H2 H3)
    as (Hcard & Hresult & _).
  done.
Defined.

(** C9 on one suggestion: the suggestion list element keeps the content
    of [index.html].  On an item with a field [toString] the call throws
    and nothing is assigned. *)
Lemma one_suggestion_leaves_list_element :
  [VString (H:=V8.host) (js "gaming laptop")] ≠ [] ∧
  (∃ s',
     displaySuggestions (VArray [VString (js "gaming laptop")]) (loaded ∅)
       = (Normal (), s') ∧
     children (dom s' el_suggestionsList) = Original ∧
     hidden (dom s' el_suggestions) = false) ∧
  (∃ s',
     displaySuggestions (VArray [VObject [(js "toString", V8.int 1)]]) (loaded ∅)
       = (Abrupt (EngineError NotPrimitive), s') ∧
     heap_writes s' = [] ∧
     children (dom s' el_suggestionsList) = Original ∧
     hidden (dom s' el_suggestions) = false).
Proof.
  split; [done|]. split.
  - destruct (displaySuggestions_writes_on_its_argument
                [VString (H:=V8.host) (js "gaming laptop")] (loaded ∅) ltac:(done))
      as (_ & c & s' & Hrun & Hlist & Hbox & _ & _ & Hstrings).
    destruct (Hstrings [js "gaming laptop"] eq_refl) as [-> _].
    exists s'. split; [done|]. rewrite Hlist, Hbox. split; reflexivity.
  - destruct (displaySuggestions_writes_on_its_argument
                [VObject [(js "toString", V8.int 1)]] (loaded ∅) ltac:(done))
      as (_ & c & s' & Hrun & Hlist & Hbox & _ & Hthrown & _).
    change (c = Abrupt (EngineError NotPrimitive) ∧
            heap_writes s' = heap_writes (loaded (H:=V8.host) ∅)) in Hthrown.
    destruct Hthrown as [-> Hheap].
    exists s'. split; [done|]. rewrite Hheap, Hlist, Hbox. repeat split; reflexivity.
Defined.

(** C10 as stated fails when the string stored under [userId] is empty:
    the call makes a new identifier and overwrites the stored value. *)
Lemma getUserId_replaces_empty_stored_value :
  let s := loaded (H:=V8.host) {[js "userId" := []]} in
  localStorage s !! js "userId" = Some [] ∧
  fst (getUserId Sample.random36 s) = Normal (js "user_4fzyo82mv") ∧
  localStorage (snd (getUserId Sample.random36 s)) !! js "userId"
    = Some (js "user_4fzyo82mv").
Proof. lazy zeta. repeat split; reflexivity. Qed.

(** C10 on a browser that has nothing stored: the first call stores
    [user_4fzyo82mv], nine digits in base 36 after the prefix. *)
Lemma getUserId_first_visit :
  let s := loaded (H:=V8.host) ∅ in
  localStorage s !! js "userId" = None ∧
  is_random36 Sample.random36 = true ∧
  fst (getUserId Sample.random36 s) = Normal (js "user_4fzyo82mv") ∧
  forallb is_base36 (substr 2 9 Sample.random36) = true.
Proof.
  intros s.
  assert (Hnone : localStorage s !! js "userId" = None) by reflexivity.
  assert (Hform : is_random36 Sample.random36 = true) by reflexivity.
  destruct (getUserId_is_idempotent s Sample.random36 []) as (Hfirst & _ & _).
  destruct (Hfirst Hnone) as (Hrun & _ & Hdigits).
  split; [done|]. split; [done|]. split; [|by apply Hdigits].
  rewrite Hrun. reflexivity.
Defined.

(** * The further properties on sample inputs *)

(** X1 on a text with angle brackets, an ampersand and quotes. *)
Lemma text_with_angle_brackets_is_returned :
  forallb is_text (js "<b>R&D</b> 'laptop'") = true ∧
  formatAIResponse (VString (js "<b>R&D</b> 'laptop'"))
    = Normal (js "<b>R&D</b> 'laptop'").
Proof.
  split; [reflexivity|].
  apply (formatAIResponse_leaves_text_as_it_is (js "<b>R&D</b> 'laptop'")).
  reflexivity.
Defined.

(** X2 on one word of a sentence. *)
Lemma one_word_in_bold :
  formatAIResponse (VString (js "The **best** laptop"))
    = Normal (js "The <strong>best</strong> laptop").
Proof.
  exact (formatAIResponse_strong (js "The ") (js "best") (js " laptop")
           eq_refl eq_refl eq_refl).
Defined.

(** X3 on one word of a sentence, and on two asterisks with nothing
    between them. *)
Lemma one_word_in_italics :
  formatAIResponse (VString (js "a *light* laptop"))
    = Normal (js "a <em>light</em> laptop") ∧
  formatAIResponse (VString (js "2 ** 3")) = Normal (js "2 <em></em> 3").
Proof.
  split.
  - exact (formatAIResponse_em (js "a ") (js "light") (js " laptop")
             eq_refl eq_refl eq_refl).
  - exact (formatAIResponse_em (js "2 ") [] (js " 3") eq_refl eq_refl eq_refl).
Defined.


(** X6 on the product without a price, which gets its card, on a
    product rated six and on one whose name cannot be converted. *)
Lemma result_cards_with_and_without :
  (∃ card, renderResultCard Scenario.unpriced_product = Normal card) ∧
  (¬ ∃ card, renderResultCard Scenario.overrated_product = Normal card) ∧
  renderResultCard Scenario.unprintable_product = Abrupt (EngineError NotPrimitive).
Proof.
  split; [|split; [|reflexivity]].
  - apply (renderResultCard_completes_exactly_when Scenario.unpriced_product).
    exists (VString (js "Laptop")), VUndefined, VUndefined, VUndefined.
    do 4 (split; [reflexivity|]). split; [by eexists|]. split; [by eexists|].
    split; [exact I|]. intros Htruthy. discriminate Htruthy.
  - intros Hcard.
    apply (renderResultCard_completes_exactly_when Scenario.overrated_product) in Hcard
      as (name & d & rating & c & _ & _ & Hrating & _ & _ & _ & Hdraw & _).
    change (Normal (V8.int 6) = Normal rating) in Hrating.
    injection Hrating as <-. destruct Hdraw as [_ [n Hn]]. discriminate Hn.
Defined.

(** X7 on a response without fields. *)
Lemma empty_response_shows_the_paragraph :
  get_prop (VObject []) "products" = Normal VUndefined ∧
  performSearch_body (BodyJson (VObject [])) (loaded ∅) =
    (Normal Completed,
     results_shown (tpl "<p class=`text-gray-500`>No products found.</p>") (loaded ∅)).
Proof.
  split; [reflexivity|].
  apply (performSearch_body_without_products (VObject []) VUndefined (loaded ∅)).
  - reflexivity.
  - left. reflexivity.
Defined.

(** X8 on the sample response. *)
Lemma sample_response_shows_one_card :
  ∃ card,
    renderResultCard Sample.product = Normal card ∧
    performSearch_body (BodyJson Sample.response) (loaded ∅) =
      (Normal Completed, results_shown (concat [card]) (loaded ∅)).
Proof.
  eexists. split; [reflexivity|].
  apply (performSearch_body_shows_the_cards Sample.response [Sample.product]).
  - reflexivity.
  - done.
  - reflexivity.
Defined.

(** X9 on a list whose second product is rated six: the count of the
    hollow stars is negative. *)
Lemma overrated_product_fails_the_list :
  let data := VObject [(js "products",
                        VArray [Sample.product; Scenario.overrated_product])] in
  let s' := snd (performSearch_body (BodyJson data) (loaded ∅)) in
  children (dom s' el_errorMessage) = TextContent (js "Invalid count value: -1") ∧
  children (dom s' el_productResults) = Original ∧
  hidden (dom s' el_results) = true.
Proof.
  intros data s'.
  edestruct (performSearch_body_one_failure_shows_no_card
               data [Sample.product] Scenario.overrated_product [])
    with (s := loaded (H:=V8.host) ∅)
    as (_ & Hlist & Hresults & Hmessage & _).
  - reflexivity.
  - reflexivity.
  - reflexivity.
  - fold s' in Hlist, Hresults, Hmessage.
    rewrite Hlist, Hresults, Hmessage. repeat split; reflexivity.
Defined.

(** X10 on the sample response: what the error panel says in V8. *)
Lemma sample_response_fails_at_the_assignment :
  ∃ err,
    handleSearch_body (BodyJson Sample.response) (loaded ∅) =
      (Normal Completed, error_shown err (results_unveiled (loaded ∅))) ∧
    exn_message err = js "Cannot set properties of null (setting 'innerHTML')".
Proof.
  destruct (handleSearch_body_shows_stale_results Sample.response (loaded ∅))
    as (err & Hrun & _ & _ & Herr).
  exists err. split; [exact Hrun|].
  rewrite (Herr (VString (js "Here is a laptop.")) eq_refl
             (or_intror (ex_intro _ (js "Here is a laptop.") eq_refl))).
  reflexivity.
Defined.

(** X11 on the first search of a visit: the box holds [laptop] between
    two spaces, and the timer of the input event stays pending. *)
Lemma first_search_of_a_visit :
  let s := step (InputEvent (js " laptop ")) (loaded (H:=V8.host) ∅) in
  ∃ s',
    handleSearch Sample.random36 s = (Normal Suspended, s') ∧
    sent s' = [(FromHandleSearch,
                handleSearch_request (js "laptop") (js "user_4fzyo82mv"))] ∧
    timers s' !! 1%positive = Some (js "laptop").
Proof.
  intros s.
  destruct (handleSearch_starts_a_search Sample.random36 s)
    as (s' & Hrun & Hsent & _ & _ & _ & _ & _ & _ & _ & Hd).
  - done.
  - exists s'. split; [exact Hrun|]. split.
    + rewrite Hsent. reflexivity.
    + apply (f_equal (λ d, d.1.1)) in Hd. cbn [fst debounce] in Hd.
      rewrite Hd. reflexivity.
Defined.

(** X12 on the first example of [index.html]. *)
Lemma first_example_is_sent_without_quotes :
  let s' := step (ExampleEvent (quoted (js "gaming laptop under $2000")))
              (loaded (H:=V8.host) ∅) in
  input_value (dom s' el_searchInput) = js "gaming laptop under $2000" ∧
  sent s' = [(FromPerformSearch, performSearch_request (js "gaming laptop under $2000"))].
Proof.
  intros s'.
  destruct (example_click_sends_the_text_without_quotes
              (quoted (js "gaming laptop under $2000")) (loaded (H:=V8.host) ∅))
    as (_ & _ & Hbox & Hsent & _).
  - done.
  - fold s' in Hbox, Hsent. split.
    + rewrite Hbox. reflexivity.
    + rewrite Hsent. reflexivity.
Defined.

(** X13 on a box that holds [laptop] between two spaces. *)
Lemma click_sends_the_trimmed_box :
  let s := step (InputEvent (js " laptop ")) (loaded (H:=V8.host) ∅) in
  sent (step SearchClickEvent s)
    = [(FromPerformSearch, performSearch_request (js "laptop"))] ∧
  input_value (dom (step SearchClickEvent s) el_searchInput) = js " laptop ".
Proof.
  intros s.
  destruct (search_click_sends_the_trimmed_text s) as (Hsent & _ & Hbox & _).
  - done.
  - split.
    + rewrite Hsent. reflexivity.
    + rewrite Hbox. reflexivity.
Defined.

(** X14 on a suggestion with a line feed in it and a space at its end. *)
Lemma suggestion_is_stripped_and_trimmed :
  let s' := step (SuggestionEvent (js "gaming" ++ [10] ++ js "laptop ") Sample.random36)
              (loaded (H:=V8.host) ∅) in
  input_value (dom s' el_searchInput) = js "gaminglaptop " ∧
  sent s' = [(FromHandleSearch,
              handleSearch_request (js "gaminglaptop") (js "user_4fzyo82mv"))].
Proof.
  intros s'.
  destruct (applySuggestion_searches_for_the_suggestion
              (js "gaming" ++ [10] ++ js "laptop ") Sample.random36
              (loaded (H:=V8.host) ∅))
    as (Hbox & _ & Hsent & _).
  - done.
  - fold s' in Hbox, Hsent. split.
    + rewrite Hbox. reflexivity.
    + rewrite Hsent. reflexivity.
Defined.

(** X16 on the sample search: the body of its response leaves the
    product list as [index.html] has it. *)
Lemma sample_search_shows_no_product :
  children (dom (step (BodyEvent 0 (BodyJson Sample.response)) Sample.answered)
              el_productResults) = Original.
Proof.
  rewrite (product_list_is_written_by_performSearch_only
             (BodyEvent 0 (BodyJson Sample.response)) Sample.answered).
  - reflexivity.
  - intros id b [= <- <-]. done.
Defined.

(** X17 on the sample search. *)
Lemma sample_search_is_in_flight :
  hidden (dom Sample.searching el_loading) = false ∧
  search_in_flight Sample.searching.
Proof.
  split; [reflexivity|].
  apply (loading_is_shown_only_during_a_search
           [InputEvent (js "laptop"); SearchEvent Sample.random36] ∅).
  reflexivity.
Defined.

(** X18 on the sample search. *)
Lemma sample_search_carries_the_stored_id :
  sent Sample.searching !! 0%nat
    = Some (FromHandleSearch, handleSearch_request (js "laptop") (js "user_4fzyo82mv")) ∧
  ∃ user_id,
    user_id ≠ [] ∧
    user_id_of (handleSearch_request (js "laptop") (js "user_4fzyo82mv"))
      = Some (VString user_id) ∧
    localStorage Sample.searching !! js "userId" = Some user_id.
Proof.
  split; [reflexivity|].
  apply (handleSearch_requests_carry_the_stored_user_id
           [InputEvent (js "laptop"); SearchEvent Sample.random36] ∅ 0
           (handleSearch_request (js "laptop") (js "user_4fzyo82mv"))).
  reflexivity.
Defined.

(** X19 on the two example searches. *)
Lemma two_searches_await_their_requests :
  next_task Scenario.two_searches = 2%nat ∧
  ∃ r, sent Scenario.two_searches !! 1%nat = Some (FromPerformSearch, r).
Proof.
  destruct (parked_activations_await_their_own_request
              [ ExampleEvent (quoted (js "gaming laptop under $2000"));
                ExampleEvent (quoted (js "latest MacBook models compared"));
                ResponseEvent 0 (Responded true (js "OK"));
                ResponseEvent 1 (Responded true (js "OK")) ] ∅) as [Hnext Htasks].
  split; [reflexivity|].
  apply (Htasks 1%nat {| t_origin := FromPerformSearch; t_stage := AwaitingBody |}).
  reflexivity.
Defined.

(** X20 on the sample search: the user types [laptop] and presses Enter
    before the timer fires. *)
Lemma suggestions_follow_the_sample_search :
  let s := steps [] (loaded (H:=V8.host) ∅) in
  let s1 := steps [SearchEvent Sample.random36] (step (InputEvent (js "laptop")) s) in
  length (trim (js "laptop")) = 6%nat ∧
  timers s1 = {[next_timer s := trim (js "laptop")]} ∧
  sent (step (TimerEvent (next_timer s)) s1) =
    sent s1 ++ [(FromSuggestions, suggestions_request (trim (js "laptop")))].
Proof.
  intros s s1.
  assert (Hlen : length (trim (js "laptop")) = 6%nat) by reflexivity.
  split; [exact Hlen|].
  apply (search_does_not_cancel_the_suggestion_timer
           [] ∅ (js "laptop") [SearchEvent Sample.random36]).
  - rewrite Hlen. lia.
  - reflexivity.
Defined.

(** X21 on a box from which the second character is deleted: the timer
    of the first edit is gone. *)
Lemma one_character_hides_the_suggestions :
  let s := steps [InputEvent (js "la")] (loaded (H:=V8.host) ∅) in
  let s' := step (InputEvent (js "l")) s in
  timers s !! 1%positive = Some (js "la") ∧
  timers s' = ∅ ∧
  hidden (dom s' el_suggestions) = true.
Proof.
  intros s s'. split; [reflexivity|].
  destruct (short_input_hides_the_suggestions [InputEvent (js "la")] ∅ (js "l"))
    as (Htimers & Hhidden & _).
  - assert (Hlen : length (trim (js "l")) = 1%nat) by reflexivity.
    rewrite Hlen. lia.
  - split; [exact Htimers|exact Hhidden].
Defined.

(** X22 on a suggestion request that does not get through. *)
Lemma rejected_suggestions_change_nothing :
  tasks Scenario.suggesting !! 0%nat
    = Some {| t_origin := FromSuggestions; t_stage := AwaitingResponse |} ∧
  step (ResponseEvent 0 (Rejected (js "Failed to fetch"))) Scenario.suggesting
    = resumed 0 Scenario.suggesting.
Proof.
  split; [reflexivity|].
  apply (failed_suggestions_are_silent Scenario.suggesting 0 AwaitingResponse).
  - reflexivity.
  - exists (Rejected (js "Failed to fetch")). split; reflexivity.
Defined.

(** X23 on a response without fields. *)
Lemma empty_response_hides_the_suggestions :
  suggestionsCallback_body (BodyJson (VObject [])) (loaded (H:=V8.host) ∅) =
  (Normal Completed,
   set_dom (alter (with_classList (token_add "hidden")) el_suggestions) (loaded ∅)).
Proof.
  apply (suggestions_body_without_suggestions (VObject []) VUndefined).
  - reflexivity.
  - left. reflexivity.
Defined.

(** X24 on a response whose [suggestions] is one string. *)
Lemma one_string_shows_the_container :
  let data := VObject [(js "suggestions", VString (js "gaming laptop"))] in
  suggestionsCallback_body (BodyJson data) (loaded (H:=V8.host) ∅) =
  (Normal Completed,
   set_dom (alter (with_classList (token_remove "hidden")) el_suggestions) (loaded ∅)).
Proof.
  intros data.
  apply (suggestions_of_the_wrong_type_show_the_container data (js "gaming laptop")).
  - reflexivity.
  - done.
Defined.

(** X25 on the sample search: the response arrives with status 200. *)
Lemma sample_response_waits_for_its_body :
  Sample.answered =
  set_tasks (<[0%nat := {| t_origin := FromHandleSearch; t_stage := AwaitingBody |}]>
               (tasks Sample.searching))
    (next_task Sample.searching) Sample.searching.
Proof.
  apply (ok_response_waits_for_the_body Sample.searching 0 FromHandleSearch (js "OK")).
  reflexivity.
Defined.

(** X26 on two example searches: the body of the second cannot be read,
    then the body of the first arrives. *)
Lemma first_search_answers_last :
  let s' := steps [ BodyEvent 1 (BodyError (js "Unexpected end of JSON input"));
                    BodyEvent 0 (BodyJson Sample.response) ] Scenario.two_searches in
  (∃ card, renderResultCard Sample.product = Normal card ∧
           children (dom s' el_productResults) = InnerHTML (concat [card])) ∧
  hidden (dom s' el_results) = false ∧
  hidden (dom s' el_error) = false ∧
  children (dom s' el_errorMessage) = TextContent (js "Unexpected end of JSON input").
Proof.
  intros s'.
  edestruct (later_body_fills_the_product_list
               Scenario.two_searches 1 0
               (BodyError (js "Unexpected end of JSON input"))
               Sample.response [Sample.product])
    as (Hlist & Hresults & Herror).
  - done.
  - reflexivity.
  - reflexivity.
  - reflexivity.
  - done.
  - reflexivity.
  - destruct (Herror _ eq_refl) as [Hpanel Hmessage].
    split; [|split; [|split]].
    + eexists. split; [reflexivity|]. exact Hlist.
    + exact Hresults.
    + exact Hpanel.
    + exact Hmessage.
Defined.

(** X27 on a root element with one class. *)
Lemma dark_is_added_once :
  let root := {| classList := ["h-full"]; children := Original; input_value := [] |} in
  classList (updateTheme true root) = ["h-full"; "dark"]%string ∧
  classList (updateTheme true (updateTheme true root)) = ["h-full"; "dark"]%string ∧
  classList (updateTheme false (updateTheme true root)) = ["h-full"]%string.
Proof.
  intros root.
  destruct (updateTheme_follows_the_media_query true root) as (_ & _ & _ & Hidem).
  rewrite Hidem. repeat split; reflexivity.
Defined.
